(** * Electroplating calculator: geometry ingestion and plating formulas

    A shallow embedding of the TypeScript sources

      - [utils/electroplating.ts]  (Faraday formulas, duration codec),
      - [utils/geometry.ts]        (unit conversion, triangle areas),
      - [utils/stlParser.ts]       (text and binary STL),
      - [utils/threeMFParser.ts]   (3MF: XML mesh, transforms, unit scaling),
      - [components/FileDropZone.tsx] ([processFile], [handleFiles]),

    followed by the properties of the specification that were checked
    against it.

    Conventions.  A JavaScript [number] is an element of a type [num] that
    comes with the arithmetic of the class [Arith]; the code is written once,
    over any such type, and is read at three instances:

      - [float], Rocq's primitive binary64 numbers, which are JavaScript's
        numbers bit for bit (round to nearest, ties to even), with
        JavaScript's reading and printing of decimal numerals;
      - [R], exact arithmetic on real numbers;
      - [xreal], exact reals extended with [NaN] and the two infinities.

    A JavaScript string is a [string] of 8-bit characters; an [ArrayBuffer]
    is such a string read as bytes.  Code that may throw returns a [result]. *)

From Stdlib Require Import ZArith NArith List Permutation String Ascii Bool Lia.
From Stdlib Require Import Decimal DecimalString DecimalN DecimalFacts.
From Stdlib Require Import Reals Lra R_Ifp.
From Stdlib Require Import Floats.
Import ListNotations.

Set Implicit Arguments.
Set Warnings "-register-all".
Open Scope string_scope.

(* ================================================================== *)
(** * Results of code that may throw *)

Inductive exn : Type :=
| RangeError                (* DataView access outside the buffer *)
| TypeError                 (* property read on [undefined] *)
| Error (msg : string).     (* [throw new Error(msg)] *)

Inductive result (A : Type) : Type :=
| Return (a : A)
| Throw (e : exn).

Arguments Return {A} a.
Arguments Throw {A} e.

Definition bind {A B} (r : result A) (k : A -> result B) : result B :=
  match r with
  | Return a => k a
  | Throw e => Throw e
  end.

Declare Scope result_scope.
Delimit Scope result_scope with result.
Notation "x <- r ;; k" := (bind r (fun x => k))
  (at level 60, r at next level, right associativity) : result_scope.

(* ================================================================== *)
(** * JavaScript strings *)

Module JS.

(** [\s] of regular expressions and the characters [trim] removes, among
    the 8-bit characters: TAB, LF, VT, FF, CR, SPACE and NBSP. *)
Definition isWhiteSpace (c : ascii) : bool :=
  let n := N_of_ascii c in
  ((9 <=? n) && (n <=? 13) || (n =? 32) || (n =? 160))%N.

Definition isDigit (c : ascii) : bool :=
  let n := N_of_ascii c in ((48 <=? n) && (n <=? 57))%N.

Fixpoint all (p : ascii -> bool) (s : string) : bool :=
  match s with
  | EmptyString => true
  | String c r => p c && all p r
  end.

Fixpoint trimStart (s : string) : string :=
  match s with
  | EmptyString => EmptyString
  | String c r => if isWhiteSpace c then trimStart r else s
  end.

Fixpoint trimEnd (s : string) : string :=
  match s with
  | EmptyString => EmptyString
  | String c r =>
      match trimEnd r with
      | EmptyString => if isWhiteSpace c then EmptyString else String c EmptyString
      | r' => String c r'
      end
  end.

Definition trim (s : string) : string := trimEnd (trimStart s).

(** [s.split(sep)] for a one-character separator: never the empty array. *)
Fixpoint split (sep : ascii) (s : string) : list string :=
  match s with
  | EmptyString => [EmptyString]
  | String c r =>
      if Ascii.eqb c sep then EmptyString :: split sep r
      else match split sep r with
           | p :: ps => String c p :: ps
           | [] => [String c EmptyString]
           end
  end.

(** [s.split(/\s+/)]: the separators are the maximal runs of white space;
    [inrun] says that the previous character belonged to such a run. *)
Fixpoint splitWhiteSpaceFrom (inrun : bool) (s : string) : list string :=
  match s with
  | EmptyString => [EmptyString]
  | String c r =>
      if isWhiteSpace c then
        if inrun then splitWhiteSpaceFrom true r
        else EmptyString :: splitWhiteSpaceFrom true r
      else match splitWhiteSpaceFrom false r with
           | p :: ps => String c p :: ps
           | [] => [String c EmptyString]
           end
  end.

Definition splitWhiteSpace (s : string) : list string :=
  splitWhiteSpaceFrom false s.

Fixpoint startsWith (s prefix : string) : bool :=
  match prefix, s with
  | EmptyString, _ => true
  | String p ps, String c cs => Ascii.eqb c p && startsWith cs ps
  | String _ _, EmptyString => false
  end.

Fixpoint drop (n : nat) (s : string) : string :=
  match n, s with
  | O, _ => s
  | S n', String _ r => drop n' r
  | S _, EmptyString => EmptyString
  end.

Fixpoint take (n : nat) (s : string) : string :=
  match n, s with
  | O, _ => EmptyString
  | S n', String c r => String c (take n' r)
  | S _, EmptyString => EmptyString
  end.

Definition endsWith (s suffix : string) : bool :=
  (String.length suffix <=? String.length s)%nat
  && String.eqb (drop (String.length s - String.length suffix) s) suffix.

Fixpoint includesChar (s : string) (c : ascii) : bool :=
  match s with
  | EmptyString => false
  | String d r => Ascii.eqb d c || includesChar r c
  end.

Fixpoint includes (s sub : string) : bool :=
  startsWith s sub
  || match s with
     | EmptyString => false
     | String _ r => includes r sub
     end.

Definition lowerChar (c : ascii) : ascii :=
  let n := N_of_ascii c in
  if ((65 <=? n) && (n <=? 90))%N then ascii_of_N (n + 32) else c.

Fixpoint toLowerCase (s : string) : string :=
  match s with
  | EmptyString => EmptyString
  | String c r => String (lowerChar c) (toLowerCase r)
  end.

Fixpoint repeatChar (c : ascii) (n : nat) : string :=
  match n with
  | O => EmptyString
  | S n' => String c (repeatChar c n')
  end.

(** [s.padStart(n, c)] for a one-character filler. *)
Definition padStart (n : nat) (c : ascii) (s : string) : string :=
  repeatChar c (n - String.length s) ++ s.

(** ** Numeric literals

    What [parseFloat], [Number] and [parseInt] read is a sign, decimal
    digits and a power of ten; the value is computed by the number type. *)

Inductive literal : Type :=
| LNaN
| LInfinity (negative : bool)
| LDecimal (negative : bool) (mantissa : N) (exponent : Z).

Definition digitOf (c : ascii) : uint -> uint :=
  match (N_of_ascii c - 48)%N with
  | 0 => D0 | 1 => D1 | 2 => D2 | 3 => D3 | 4 => D4
  | 5 => D5 | 6 => D6 | 7 => D7 | 8 => D8 | _ => D9
  end%N.

(** The longest prefix of decimal digits, and what follows it. *)
Fixpoint scanDigits (s : string) : uint * string :=
  match s with
  | EmptyString => (Nil, EmptyString)
  | String c r =>
      if isDigit c then let (d, rest) := scanDigits r in (digitOf c d, rest)
      else (Nil, s)
  end.

Definition scanSign (s : string) : bool * string :=
  match s with
  | String "-" r => (true, r)
  | String "+" r => (false, r)
  | _ => (false, s)
  end.

Definition isExponentMark (c : ascii) : bool :=
  Ascii.eqb c "e" || Ascii.eqb c "E".

(** [ExponentPart]: taken only when at least one digit follows the mark
    and the optional sign. *)
Definition scanExponent (s : string) : Z * string :=
  match s with
  | String c r =>
      if isExponentMark c then
        let (neg, r1) := scanSign r in
        let (d, r2) := scanDigits r1 in
        match d with
        | Nil => (0%Z, s)
        | _ => ((if neg then - Z.of_N (N.of_uint d) else Z.of_N (N.of_uint d))%Z, r2)
        end
      else (0%Z, s)
  | EmptyString => (0%Z, s)
  end.

(** The longest prefix that is a [StrDecimalLiteral], and what follows. *)
Definition scanDecimalLiteral (s : string) : literal * string :=
  let (neg, s1) := scanSign s in
  if startsWith s1 "Infinity" then (LInfinity neg, drop 8 s1)
  else
    let (ip, s2) := scanDigits s1 in
    let '(fp, s3) :=
      match s2 with
      | String "." r => scanDigits r
      | _ => (Nil, s2)
      end in
    match ip, fp with
    | Nil, Nil => (LNaN, s)
    | _, _ =>
        let (e, s4) := scanExponent s3 in
        (LDecimal neg (N.of_uint (Decimal.app ip fp))
                  (e - Z.of_nat (Decimal.nb_digits fp)), s4)
    end.

(** Digits of the radices of [0x], [0o] and [0b] literals. *)
Definition radixDigit (radix : N) (c : ascii) : option N :=
  let n := N_of_ascii c in
  let v := (if (48 <=? n) && (n <=? 57) then n - 48
            else if (97 <=? n) && (n <=? 102) then n - 87
            else if (65 <=? n) && (n <=? 70) then n - 55
            else 99)%N in
  if (v <? radix)%N then Some v else None.

Fixpoint radixValue (radix : N) (acc : N) (s : string) : option N :=
  match s with
  | EmptyString => Some acc
  | String c r =>
      match radixDigit radix c with
      | Some v => radixValue radix (acc * radix + v)%N r
      | None => None
      end
  end.

Definition radixOfPrefix (s : string) : option (N * string) :=
  match s with
  | String "0" (String c r) =>
      if Ascii.eqb c "x" || Ascii.eqb c "X" then Some (16%N, r)
      else if Ascii.eqb c "o" || Ascii.eqb c "O" then Some (8%N, r)
      else if Ascii.eqb c "b" || Ascii.eqb c "B" then Some (2%N, r)
      else None
  | _ => None
  end.

(** [parseFloat(s)]: leading white space is skipped, the longest numeric
    prefix is read, the rest is ignored. *)
Definition parseFloatLiteral (s : string) : literal :=
  fst (scanDecimalLiteral (trimStart s)).

(** [Number(s)]: white space is trimmed at both ends, the empty string is
    0, and the whole of what remains has to be one literal. *)
Definition numberLiteral (s : string) : literal :=
  let t := trim s in
  match t with
  | EmptyString => LDecimal false 0 0
  | _ =>
      match radixOfPrefix t with
      | Some (radix, (String _ _) as ds) =>
          match radixValue radix 0 ds with
          | Some v => LDecimal false v 0
          | None => LNaN
          end
      | Some (_, EmptyString) => LNaN
      | None =>
          match scanDecimalLiteral t with
          | (l, EmptyString) => l
          | (_, String _ _) => LNaN
          end
      end
  end.

(** [parseInt(s, 10)]: an integer, or [None] for NaN. *)
Definition parseInt10 (s : string) : option Z :=
  let (neg, s1) := scanSign (trimStart s) in
  match scanDigits s1 with
  | (Nil, _) => None
  | (d, _) => Some (if neg then - Z.of_N (N.of_uint d) else Z.of_N (N.of_uint d))%Z
  end.

(** [v || d] on an attribute value: [null] and the empty string are
    falsy. *)
Definition orDefault (v : option string) (d : string) : string :=
  match v with
  | Some (String _ _ as s) => s
  | _ => d
  end.

End JS.

(* ================================================================== *)
(** * JavaScript numbers *)

(** The arithmetic the sources use.  [ofRatio neg p q] is the number that
    the literal or conversion of value [+-p/q] denotes: that value itself in
    exact arithmetic, the double nearest to it in binary64. *)
Class Arith (num : Type) : Type := {
  ofRatio : bool -> N -> positive -> num;
  nadd : num -> num -> num;
  nsub : num -> num -> num;
  nmul : num -> num -> num;
  ndiv : num -> num -> num;
  nsqrt : num -> num                      (* Math.sqrt *)
}.

(** Numbers with the non-finite values, as parsers produce and test them. *)
Class JSNumber (num : Type) : Type := {
  js_arith :: Arith num;
  NaN : num;
  Infinity : bool -> num;                 (* [Infinity true] is -Infinity *)
  isNaN : num -> bool;
  strictEq : num -> num -> bool           (* x === y *)
}.

(** What the duration formatter needs on top. *)
Class Printing (num : Type) : Type := {
  floor : num -> num;                     (* Math.floor *)
  nrem : num -> num -> num;               (* x % y *)
  toString : num -> string                (* x.toString() *)
}.

Declare Scope js_scope.
Delimit Scope js_scope with js.
Infix "+" := nadd : js_scope.
Infix "-" := nsub : js_scope.
Infix "*" := nmul : js_scope.
Infix "/" := ndiv : js_scope.
Notation "x 'mod' y" := (nrem x y) : js_scope.       (* x % y *)

Section Literals.
Context {num : Type}.

(** An integer literal. *)
Definition ofZ `{Arith num} (z : Z) : num :=
  ofRatio (z <? 0)%Z (Z.abs_N z) 1.

(** The decimal literal [+-m*10^e]. *)
Definition ofDecimal `{Arith num} (neg : bool) (m : N) (e : Z) : num :=
  match e with
  | Zneg p => ofRatio neg m (10 ^ p)
  | Z0 => ofRatio neg m 1
  | Zpos p => ofRatio neg (m * Npos (10 ^ p)) 1
  end.

(** The dyadic number [+-m*2^e], as binary formats store it. *)
Definition ofBinary `{Arith num} (neg : bool) (m : N) (e : Z) : num :=
  match e with
  | Zneg p => ofRatio neg m (2 ^ p)
  | Z0 => ofRatio neg m 1
  | Zpos p => ofRatio neg (m * Npos (2 ^ p)) 1
  end.

Definition ofLiteral `{JSNumber num} (l : JS.literal) : num :=
  match l with
  | JS.LNaN => NaN
  | JS.LInfinity s => Infinity s
  | JS.LDecimal neg m e => ofDecimal neg m e
  end.

Definition parseFloat `{JSNumber num} (s : string) : num :=
  ofLiteral (JS.parseFloatLiteral s).

(** [Number(s)], the conversion of a string. *)
Definition Number `{JSNumber num} (s : string) : num :=
  ofLiteral (JS.numberLiteral s).

(** The value of the IEEE 754 binary32 pattern [bits] (0 <= bits < 2^32),
    which [DataView.getFloat32] widens without rounding. *)
Definition ofFloat32Bits `{JSNumber num} (bits : N) : num :=
  let neg := N.testbit bits 31 in
  let e := N.land (N.shiftr bits 23) 255 in
  let m := N.land bits 8388607 in
  if (e =? 255)%N then (if (m =? 0)%N then Infinity neg else NaN)
  else if (e =? 0)%N then ofBinary neg m (-149)
  else ofBinary neg (8388608 + m) (Z.of_N e - 150).
End Literals.

(** ** Exact real arithmetic

    The division is [Rdiv], which is total: a quotient by zero, where the
    code gives an infinity or NaN, is not a value of [R].  The properties
    stated over [R] divide by constants that are not zero or assume that the
    divisor is not zero; [xreal] below has the quotients by zero. *)

#[export] Instance R_Arith : Arith R := {
  ofRatio neg p q :=
    let v := (IZR (Z.of_N p) / IZR (Zpos q))%R in if neg then (- v)%R else v;
  nadd := Rplus;
  nsub := Rminus;
  nmul := Rmult;
  ndiv := Rdiv;
  nsqrt := R_sqrt.sqrt
}.

(** ** Binary64 arithmetic *)

Definition b64_ofRatio (neg : bool) (p : N) (q : positive) : float :=
  match p with
  | N0 => if neg then neg_zero else zero
  | Npos p' =>
      SF2Prim (SFdiv prec emax (S754_finite neg p' 0) (S754_finite false q 0))
  end.

#[export] Instance b64_Arith : Arith float := {
  ofRatio := b64_ofRatio;
  nadd := PrimFloat.add;
  nsub := PrimFloat.sub;
  nmul := PrimFloat.mul;
  ndiv := PrimFloat.div;
  nsqrt := PrimFloat.sqrt
}.

#[export] Instance b64_JSNumber : JSNumber float := {
  NaN := nan;
  Infinity neg := if neg then neg_infinity else infinity;
  isNaN := is_nan;
  strictEq := PrimFloat.eqb
}.

(** [Math.floor]: a finite number with a negative exponent is [+-m / 2^k];
    every other number is an integer, an infinity or NaN already. *)
Definition b64_floor (x : float) : float :=
  match Prim2SF x with
  | S754_finite s m (Zneg k) =>
      let q := (Zpos m / Zpos (2 ^ k))%Z in
      let exact := (Zpos m mod Zpos (2 ^ k) =? 0)%Z in
      if s then ofZ (- (if exact then q else q + 1)) else ofZ q
  | _ => x
  end.

(** [x % y]: the remainder of the division truncated towards zero, which is
    exact and has the sign of [x]. *)
Definition b64_rem (x y : float) : float :=
  match Prim2SF x, Prim2SF y with
  | S754_nan, _ | _, S754_nan => PrimFloat.nan
  | S754_infinity _, _ => PrimFloat.nan
  | _, S754_zero _ => PrimFloat.nan
  | _, S754_infinity _ => x
  | S754_zero _, _ => x
  | S754_finite sx mx ex, S754_finite _ my ey =>
      let e0 := Z.min ex ey in
      let X := (Zpos mx * 2 ^ (ex - e0))%Z in
      let Y := (Zpos my * 2 ^ (ey - e0))%Z in
      match (X mod Y)%Z with
      | Z0 => if sx then PrimFloat.neg_zero else PrimFloat.zero
      | r => SF2Prim (binary_normalize prec emax (if sx then - r else r) e0 false)
      end
  end.

(** [Number::toString]: the digits [s], their number [k] and the decimal
    exponent [n] are such that [s * 10^(n-k)] is read back as [x], with [k]
    as small as possible and, among the candidates, [s] closest to [x]. *)

Definition decimalDigits (n : N) : string := NilZero.string_of_uint (N.to_uint n).

Definition pow10 (e : Z) : N :=
  match e with
  | Zpos p => Npos (10 ^ p)
  | _ => 1%N
  end.

(** The integer [n] with [10^(n-1) <= num/den < 10^n], for [0 < num/den < 1]
    and then for any [num/den > 0]. *)
Fixpoint magnitudeBelowOne (fuel : nat) (num den : N) : Z :=
  match fuel with
  | O => 0
  | S f =>
      if (den <=? num * 10)%N then 0
      else (magnitudeBelowOne f (num * 10) den - 1)%Z
  end.

Definition magnitude (num den : N) : Z :=
  if (den <=? num)%N then Z.of_nat (String.length (decimalDigits (num / den)))
  else magnitudeBelowOne 400 num den.

(** The search for the shortest digits of [x = num/den], from [k] digits
    on; 17 digits always suffice. *)
Fixpoint shortestDigits (fuel : nat) (x : float) (num den : N) (n k : Z) : N * Z * Z :=
  let scaledNum := (num * pow10 (k - n))%N in
  let scaledDen := (den * pow10 (n - k))%N in
  let lo := (scaledNum / scaledDen)%N in
  let r := (scaledNum mod scaledDen)%N in
  let hi := (lo + 1)%N in
  let lo_ok := PrimFloat.eqb (ofDecimal false lo (n - k)) x in
  let hi_ok := PrimFloat.eqb (ofDecimal false hi (n - k)) x in
  let useHi :=
    if lo_ok then
      hi_ok && match (2 * r ?= scaledDen)%N with
               | Lt => false
               | Gt => true
               | Eq => N.even hi
               end
    else true in
  match fuel with
  | O => (lo, k, n)
  | S f =>
      if lo_ok || hi_ok then
        if useHi then
          if (hi =? pow10 k)%N then (pow10 (k - 1), k, (n + 1)%Z) else (hi, k, n)
        else (lo, k, n)
      else shortestDigits f x num den n (k + 1)
  end.

Definition formatDigits (s : N) (k n : Z) : string :=
  let digits := decimalDigits s in
  if ((k <=? n) && (n <=? 21))%Z then
    digits ++ JS.repeatChar "0" (Z.to_nat (n - k))
  else if ((0 <? n) && (n <=? 21))%Z then
    JS.take (Z.to_nat n) digits ++ "." ++ JS.drop (Z.to_nat n) digits
  else if ((-6 <? n) && (n <=? 0))%Z then
    "0." ++ JS.repeatChar "0" (Z.to_nat (- n)) ++ digits
  else
    let e := (n - 1)%Z in
    (if (k =? 1)%Z then digits else JS.take 1 digits ++ "." ++ JS.drop 1 digits)
    ++ "e" ++ (if (e <? 0)%Z then "-" else "+") ++ decimalDigits (Z.abs_N e).

Definition b64_toString (x : float) : string :=
  match Prim2SF x with
  | S754_nan => "NaN"
  | S754_zero _ => "0"
  | S754_infinity s => if s then "-Infinity" else "Infinity"
  | S754_finite sg m e =>
      let num := match e with Zpos p => (Npos m * Npos (2 ^ p))%N | _ => Npos m end in
      let den := match e with Zneg p => Npos (2 ^ p) | _ => 1%N end in
      let '(s, k, n) :=
        shortestDigits 17 (PrimFloat.abs x) num den (magnitude num den) 1 in
      (if sg then "-" else "") ++ formatDigits s k n
  end.

#[export] Instance b64_Printing : Printing float := {
  floor := b64_floor;
  nrem := b64_rem;
  toString := b64_toString
}.

(** ** Exact arithmetic with NaN and the infinities

    Finite values are real numbers and are never rounded; the non-finite
    values follow IEEE 754.  There is one zero, which divides as +0. *)

Inductive xreal : Type :=
| XNaN
| XInf (negative : bool)
| XFin (r : R).

Definition Rsign (r : R) : comparison :=
  match total_order_T r 0 with
  | inleft (left _) => Lt
  | inleft (right _) => Eq
  | inright _ => Gt
  end.

Definition xadd (x y : xreal) : xreal :=
  match x, y with
  | XNaN, _ | _, XNaN => XNaN
  | XInf s, XInf t => if Bool.eqb s t then XInf s else XNaN
  | XInf s, XFin _ | XFin _, XInf s => XInf s
  | XFin a, XFin b => XFin (a + b)
  end.

Definition xopp (x : xreal) : xreal :=
  match x with
  | XNaN => XNaN
  | XInf s => XInf (negb s)
  | XFin a => XFin (- a)
  end.

Definition xsub (x y : xreal) : xreal :=
  match x, y with
  | XFin a, XFin b => XFin (a - b)
  | _, _ => xadd x (xopp y)
  end.

Definition xmul (x y : xreal) : xreal :=
  match x, y with
  | XNaN, _ | _, XNaN => XNaN
  | XInf s, XInf t => XInf (xorb s t)
  | XInf s, XFin r | XFin r, XInf s =>
      match Rsign r with
      | Eq => XNaN
      | Lt => XInf (negb s)
      | Gt => XInf s
      end
  | XFin a, XFin b => XFin (a * b)
  end.

Definition xdiv (x y : xreal) : xreal :=
  match x, y with
  | XNaN, _ | _, XNaN => XNaN
  | XInf _, XInf _ => XNaN
  | XInf s, XFin r => match Rsign r with Lt => XInf (negb s) | _ => XInf s end
  | XFin _, XInf _ => XFin 0
  | XFin a, XFin b =>
      match Rsign b with
      | Eq => match Rsign a with
              | Eq => XNaN
              | Lt => XInf true
              | Gt => XInf false
              end
      | _ => XFin (a / b)
      end
  end.

Definition xsqrt (x : xreal) : xreal :=
  match x with
  | XNaN => XNaN
  | XInf s => if s then XNaN else XInf false
  | XFin a => match Rsign a with Lt => XNaN | _ => XFin (R_sqrt.sqrt a) end
  end.

Definition xeqb (x y : xreal) : bool :=
  match x, y with
  | XFin a, XFin b => if Req_dec_T a b then true else false
  | XInf s, XInf t => Bool.eqb s t
  | _, _ => false
  end.

Definition xfloor (x : xreal) : xreal :=
  match x with
  | XFin a => XFin (IZR (Int_part a))
  | _ => x
  end.

(** The integer part of [q], towards zero. *)
Definition Rtrunc (q : R) : Z :=
  match Rsign q with
  | Lt => (- Int_part (- q))%Z
  | _ => Int_part q
  end.

Definition xrem (x y : xreal) : xreal :=
  match x, y with
  | XFin a, XFin b =>
      match Rsign b with
      | Eq => XNaN
      | _ => XFin (a - b * IZR (Rtrunc (a / b)))
      end
  | XFin a, XInf _ => XFin a
  | _, _ => XNaN
  end.

(** The decimal numeral of an integer. *)
Definition printZ (z : Z) : string :=
  match z with
  | Zneg p => String "-" (NilZero.string_of_uint (Pos.to_uint p))
  | _ => NilZero.string_of_uint (N.to_uint (Z.to_N z))
  end.

#[export] Instance xreal_Arith : Arith xreal := {
  ofRatio neg p q :=
    let v := (IZR (Z.of_N p) / IZR (Zpos q))%R in XFin (if neg then (- v)%R else v);
  nadd := xadd;
  nsub := xsub;
  nmul := xmul;
  ndiv := xdiv;
  nsqrt := xsqrt
}.

#[export] Instance xreal_JSNumber : JSNumber xreal := {
  NaN := XNaN;
  Infinity := XInf;
  isNaN x := match x with XNaN => true | _ => false end;
  strictEq := xeqb
}.

(** The digits of a whole number without the zeros at its end, and the
    number of those zeros. *)
Fixpoint stripZeros (fuel : nat) (v : N) : N * nat :=
  match fuel with
  | O => (v, O)
  | S f =>
      if ((0 <? v) && (v mod 10 =? 0))%N then
        let (s, t) := stripZeros f (v / 10) in (s, S t)
      else (v, O)
  end.

(** [Number::toString] of a whole number [v], every digit of which exact
    arithmetic has: [s] is [v] without the zeros at its end, [k] is the
    number of digits of [s] and [n] that of [v], so that [s * 10^(n-k)] is
    [v] with [k] as small as possible.  The layout is that of binary64: the
    plain numeral up to 21 digits, the exponent form beyond. *)
Definition printWhole (v : N) : string :=
  match v with
  | N0 => "0"
  | _ =>
      let (s, t) := stripZeros (N.to_nat (N.size v)) v in
      let k := Z.of_nat (String.length (decimalDigits s)) in
      formatDigits s k (k + Z.of_nat t)
  end.

(** [x.toString()].  A whole number prints as [printWhole] says, behind its
    sign.  A number with a fraction need not have finitely many decimal
    digits in exact arithmetic: how it prints is left to [printFraction]. *)
Definition xtoString (printFraction : R -> string) (x : xreal) : string :=
  match x with
  | XNaN => "NaN"
  | XInf s => if s then "-Infinity" else "Infinity"
  | XFin a =>
      if Req_dec_T a (IZR (Int_part a)) then
        (if (Int_part a <? 0)%Z then "-" else "") ++ printWhole (Z.abs_N (Int_part a))
      else printFraction a
  end.

Definition xreal_Printing (printFraction : R -> string) : Printing xreal := {|
  floor := xfloor;
  nrem := xrem;
  toString := xtoString printFraction
|}.

(* ================================================================== *)
(** * types.ts *)

Inductive STLUnit : Type := mm | cm | inch.

Inductive Material : Type := Copper | Nickel.

Definition Point (num : Type) : Type := (num * num * num)%type.

Record Triangle (num : Type) : Type := mkTriangle {
  a : Point num;
  b : Point num;
  c : Point num
}.

Arguments mkTriangle {num} a b c.
Arguments a {num} t.
Arguments b {num} t.
Arguments c {num} t.

Record FileData (num : Type) : Type := mkFileData {
  filename : string;
  surfaceArea_dm2 : num
}.

Arguments mkFileData {num} filename surfaceArea_dm2.

(* ================================================================== *)
(** * utils/electroplating.ts *)

Section Electroplating.
Context {num : Type} `{Arith num}.
Local Open Scope js_scope.

(** Copper: 270.5 seconds; Nickel: 292.6 seconds. *)
Definition FARADAY_CONSTANTS (material : Material) : num :=
  match material with
  | Copper => ofDecimal false 2705 (-1)
  | Nickel => ofDecimal false 2926 (-1)
  end.

Definition calculateTimeFromThickness
    (thickness_um currentDensity efficiency : num) (material : Material) : num :=
  let K := FARADAY_CONSTANTS material in
  (K * thickness_um) / (currentDensity * efficiency).

Definition calculateThicknessFromTime
    (time_seconds currentDensity efficiency : num) (material : Material) : num :=
  let K := FARADAY_CONSTANTS material in
  (time_seconds * currentDensity * efficiency) / K.

Definition calculateDepositionRate
    (currentDensity efficiency : num) (material : Material) : num :=
  let K := FARADAY_CONSTANTS material in
  (ofZ 60 * currentDensity * efficiency) / K.

Definition calculateTotalCurrent (surfaceArea_dm2 currentDensity : num) : num :=
  surfaceArea_dm2 * currentDensity.
End Electroplating.

Section DurationCodec.
Context {num : Type} `{JSNumber num}.
Local Open Scope js_scope.

Definition formatTime `{Printing num} (seconds : num) : string :=
  let hours := floor (seconds / ofZ 3600) in
  let minutes := floor ((seconds mod ofZ 3600) / ofZ 60) in
  let secs := floor (seconds mod ofZ 60) in
  JS.padStart 2 "0" (toString hours) ++ ":"
  ++ JS.padStart 2 "0" (toString minutes) ++ ":"
  ++ JS.padStart 2 "0" (toString secs).

Definition parseTime (timeString : string) : num :=
  let parts := map Number (JS.split ":" timeString) in
  match parts with
  | [p0; p1; p2] => p0 * ofZ 3600 + p1 * ofZ 60 + p2
  | [p0; p1] => p0 * ofZ 60 + p1
  | [p0] => p0
  | _ => ofZ 0
  end.
End DurationCodec.

(* ================================================================== *)
(** * utils/geometry.ts *)

Section Geometry.
Context {num : Type} `{Arith num}.
Local Open Scope js_scope.

(** The table [conversions] of [toMillimeters]: mm 1, cm 10, inch 25.4. *)
Definition conversions (unit : STLUnit) : num :=
  match unit with
  | mm => ofZ 1
  | cm => ofZ 10
  | inch => ofDecimal false 254 (-1)
  end.

Definition toMillimeters (value : num) (unit : STLUnit) : num :=
  value * conversions unit.

Definition mm2ToDm2 (mm2 : num) : num := mm2 / ofZ 10000.

Definition calculateTriangleArea (triangle : Triangle num) : num :=
  let '(ax, ay, az) := a triangle in
  let '(bx, by_, bz) := b triangle in
  let '(cx, cy, cz) := c triangle in
  let '(ba0, ba1, ba2) := (bx - ax, by_ - ay, bz - az) in
  let '(ca0, ca1, ca2) := (cx - ax, cy - ay, cz - az) in
  let crossX := ba1 * ca2 - ba2 * ca1 in
  let crossY := ba2 * ca0 - ba0 * ca2 in
  let crossZ := ba0 * ca1 - ba1 * ca0 in
  let magnitude := nsqrt (crossX * crossX + crossY * crossY + crossZ * crossZ) in
  ofDecimal false 5 (-1) * magnitude.

Definition convertPoint (p : Point num) (unit : STLUnit) : Point num :=
  let '(x, y, z) := p in
  (toMillimeters x unit, toMillimeters y unit, toMillimeters z unit).

(** The loop of [calculateSurfaceArea] adds the areas to a total that
    starts at 0, in the order of the array. *)
Definition calculateSurfaceArea (triangles : list (Triangle num)) (unit : STLUnit) : num :=
  let totalArea_mm2 :=
    fold_left
      (fun total triangle =>
         let convertedTriangle :=
           mkTriangle (convertPoint (a triangle) unit)
                      (convertPoint (b triangle) unit)
                      (convertPoint (c triangle) unit) in
         let area_mm2 := calculateTriangleArea convertedTriangle in
         total + area_mm2)
      triangles (ofZ 0) in
  mm2ToDm2 totalArea_mm2.
End Geometry.

(** [toMillimeters] as it runs once the types are erased: [unit] is then any
    string, the table is looked up by key, a key it does not have gives
    [undefined], and [value * undefined] is NaN.  (The two lower-case keys
    that an object literal inherits, [constructor] and [__proto__], give a
    function and an object, whose product with a number is NaN as well.) *)
Section GeometryUntyped.
Context {num : Type} `{JSNumber num}.
Local Open Scope js_scope.

Definition unitOfKey (key : string) : option STLUnit :=
  if String.eqb key "mm" then Some mm
  else if String.eqb key "cm" then Some cm
  else if String.eqb key "inch" then Some inch
  else None.

Definition keyOfUnit (unit : STLUnit) : string :=
  match unit with mm => "mm" | cm => "cm" | inch => "inch" end.

Definition toMillimetersUntyped (value : num) (unit : string) : num :=
  match unitOfKey unit with
  | Some u => value * conversions u
  | None => NaN
  end.
End GeometryUntyped.

(* ================================================================== *)
(** * utils/stlParser.ts *)

(** An [ArrayBuffer] is a string of bytes. *)
Definition ArrayBuffer : Type := string.

Definition byteLength (buffer : ArrayBuffer) : nat := String.length buffer.

(** [new TextDecoder('ascii').decode(buffer)]: one character per byte.  (The
    label names windows-1252, which sends no byte to white space or to a
    digit, sign or letter other than itself.) *)
Definition decodeAscii (buffer : ArrayBuffer) : string := buffer.

Section DataView.
Context {num : Type} `{JSNumber num}.

Definition byteAt (buffer : ArrayBuffer) (i : nat) : N :=
  match String.get i buffer with
  | Some ch => N_of_ascii ch
  | None => 0%N
  end.

(** [view.getUint32(offset, true)]: little-endian; a RangeError when the
    four bytes are not all inside the buffer. *)
Definition getUint32 (buffer : ArrayBuffer) (offset : nat) : result N :=
  if (offset + 4 <=? byteLength buffer)%nat then
    Return (byteAt buffer offset
            + 256 * byteAt buffer (offset + 1)
            + 65536 * byteAt buffer (offset + 2)
            + 16777216 * byteAt buffer (offset + 3))%N
  else Throw RangeError.

(** [view.getFloat32(offset, true)]. *)
Definition getFloat32 (buffer : ArrayBuffer) (offset : nat) : result num :=
  (bits <- getUint32 buffer offset ;; Return (ofFloat32Bits bits))%result.
End DataView.

Section STLParser.
Context {num : Type} `{JSNumber num}.
Local Open Scope list_scope.
Local Open Scope result_scope.

(** The object [currentTriangle], whose three fields start undefined. *)
Record PartialTriangle : Type := mkPartial {
  pa : option (Point num);
  pb : option (Point num);
  pc : option (Point num)
}.

Definition emptyPartial : PartialTriangle := mkPartial None None None.

Record ASCIIState : Type := mkASCIIState {
  triangles : list (Triangle num);
  currentTriangle : PartialTriangle;
  vertexIndex : nat
}.

Definition storeVertex (cur : PartialTriangle) (index : nat) (p : Point num)
  : PartialTriangle :=
  match index with
  | 0 => mkPartial (Some p) (pb cur) (pc cur)
  | 1 => mkPartial (pa cur) (Some p) (pc cur)
  | 2 => mkPartial (pa cur) (pb cur) (Some p)
  | _ => cur
  end.

(** The body of the loop over the lines. *)
Definition parseASCIILine (st : ASCIIState) (line : string) : ASCIIState :=
  let trimmed := JS.trim line in
  if JS.startsWith trimmed "vertex" then
    match JS.splitWhiteSpace trimmed with
    | _ :: p1 :: p2 :: p3 :: _ =>
        let x := parseFloat p1 in
        let y := parseFloat p2 in
        let z := parseFloat p3 in
        if negb (isNaN x) && negb (isNaN y) && negb (isNaN z) then
          let cur := storeVertex (currentTriangle st) (vertexIndex st) (x, y, z) in
          let index := S (vertexIndex st) in
          match Nat.eqb index 3, pa cur, pb cur, pc cur with
          | true, Some va, Some vb, Some vc =>
              mkASCIIState (triangles st ++ [mkTriangle va vb vc]) emptyPartial 0
          | _, _, _, _ => mkASCIIState (triangles st) cur index
          end
        else st
    | _ => st
    end
  else if JS.startsWith trimmed "endfacet" then
    mkASCIIState (triangles st) emptyPartial 0
  else st.

Definition parseASCIISTL (content : string) : list (Triangle num) :=
  let lines := JS.split "010" content in
  triangles (fold_left parseASCIILine lines (mkASCIIState [] emptyPartial 0)).

Definition readPoint (buffer : ArrayBuffer) (offset : nat) : result (Point num) :=
  x <- getFloat32 buffer offset ;;
  y <- getFloat32 buffer (offset + 4) ;;
  z <- getFloat32 buffer (offset + 8) ;;
  Return (x, y, z).

(** The loop of [parseBinarySTL] with [remaining] records still to read;
    [offset] is at the start of the next record. *)
Fixpoint readRecords (buffer : ArrayBuffer) (remaining offset : nat)
  : result (list (Triangle num)) :=
  match remaining with
  | O => Return []
  | S n =>
      va <- readPoint buffer (offset + 12) ;;
      vb <- readPoint buffer (offset + 24) ;;
      vc <- readPoint buffer (offset + 36) ;;
      rest <- readRecords buffer n (offset + 50) ;;
      Return (mkTriangle va vb vc :: rest)
  end.

Definition parseBinarySTL (buffer : ArrayBuffer) : result (list (Triangle num)) :=
  numTriangles <- getUint32 buffer 80 ;;
  readRecords buffer (N.to_nat numTriangles) 84.

Definition isASCIISTL (buffer : ArrayBuffer) : bool :=
  let text := decodeAscii (JS.take (Nat.min 100 (byteLength buffer)) buffer) in
  JS.startsWith (JS.toLowerCase (JS.trim text)) "solid"
  && negb (JS.includesChar text "000")
  && JS.includesChar text "010".
End STLParser.

(* ================================================================== *)
(** * utils/threeMFParser.ts *)

(** ** The document [DOMParser] returns: elements, attributes, children *)

Inductive Element : Type :=
| Elem (tagName : string) (attributes : list (string * string)) (children : list Element).

Definition tagName (e : Element) : string := let 'Elem t _ _ := e in t.

Definition getAttribute (e : Element) (name : string) : option string :=
  let 'Elem _ attrs _ := e in
  option_map snd (find (fun kv => String.eqb (fst kv) name) attrs).

(** The elements below [e], in document order. *)
Fixpoint descendants (e : Element) : list Element :=
  let 'Elem _ _ cs := e in
  flat_map (fun child => child :: descendants child) cs.

(** [e.querySelectorAll(tag)] and [e.querySelector(tag)], for a selector
    that is an element name. *)
Definition querySelectorAll (e : Element) (tag : string) : list Element :=
  filter (fun d => String.eqb (tagName d) tag) (descendants e).

Definition querySelector (e : Element) (tag : string) : option Element :=
  hd_error (querySelectorAll e tag).

(** The same on the document, whose root element is a candidate too. *)
Definition documentQuerySelectorAll (root : Element) (tag : string) : list Element :=
  filter (fun d => String.eqb (tagName d) tag) (root :: descendants root).

Definition documentQuerySelector (root : Element) (tag : string) : option Element :=
  hd_error (documentQuerySelectorAll root tag).

(** ** Arrays shared by reference

    A vertex [[x, y, z]] is an array, pushed once into [vertices] and then
    referenced by every triangle that names its index.  The store keeps the
    arrays; a triangle has three references into it. *)

Definition ref : Type := nat.

Record TriangleRefs : Type := mkRefs { ta : ref; tb : ref; tc : ref }.

Section ThreeMF.
Context {num : Type} `{JSNumber num}.
Local Open Scope list_scope.
Local Open Scope js_scope.

Definition Heap : Type := list (Point num).

Definition alloc (h : Heap) (p : Point num) : Heap * ref := (h ++ [p], List.length h).

Definition deref (h : Heap) (r : ref) : Point num := nth r h (NaN, NaN, NaN).

Fixpoint store (h : Heap) (r : ref) (p : Point num) : Heap :=
  match h, r with
  | [], _ => []
  | _ :: rest, O => p :: rest
  | q :: rest, S r' => q :: store rest r' p
  end.

Definition applyTransform (point : Point num) (matrix : list num) : Point num :=
  match matrix with
  | [m00; m01; m02; m03; m10; m11; m12; m13; m20; m21; m22; m23] =>
      let '(x, y, z) := point in
      (m00 * x + m01 * y + m02 * z + m03,
       m10 * x + m11 * y + m12 * z + m13,
       m20 * x + m21 * y + m22 * z + m23)
  | _ => point
  end.

(** [applyTransform] on a reference: the argument itself when the matrix
    has not 12 entries, a new array otherwise. *)
Definition applyTransformRef (h : Heap) (r : ref) (matrix : list num) : Heap * ref :=
  if Nat.eqb (List.length matrix) 12 then alloc h (applyTransform (deref h r) matrix)
  else (h, r).

(** The table [unitScales] and the fallback [|| 1].  The keys
    [constructor] and [__proto__] are inherited by the object literal and
    are truthy without being numbers: multiplying by them gives NaN. *)
Definition unitScaleOf (unit : string) : num :=
  let key := JS.toLowerCase unit in
  if String.eqb key "millimeter" then ofZ 1
  else if String.eqb key "micron" then ofDecimal false 1 (-3)
  else if String.eqb key "centimeter" then ofZ 10
  else if String.eqb key "inch" then ofDecimal false 254 (-1)
  else if String.eqb key "foot" then ofDecimal false 3048 (-1)
  else if String.eqb key "meter" then ofZ 1000
  else if String.eqb key "constructor" || String.eqb key "__proto__" then NaN
  else ofZ 1.

(** Lines 129-132: one [vertex] element. *)
Definition readVertex (vertex : Element) : Point num :=
  let x := parseFloat (JS.orDefault (getAttribute vertex "x") "0") in
  let y := parseFloat (JS.orDefault (getAttribute vertex "y") "0") in
  let z := parseFloat (JS.orDefault (getAttribute vertex "z") "0") in
  (x, y, z).

Definition readVertices (h : Heap) (vertexElements : list Element) : Heap * list ref :=
  fold_left
    (fun '(h, vertices) vertex =>
       let (h', r) := alloc h (readVertex vertex) in (h', vertices ++ [r]))
    vertexElements (h, []).

Definition readIndex (triangle : Element) (name : string) : option Z :=
  JS.parseInt10 (JS.orDefault (getAttribute triangle name) "0").

(** [v >= 0 && v < vertices.length]; false on NaN. *)
Definition inRange (v : option Z) (n : nat) : bool :=
  match v with
  | Some z => (0 <=? z)%Z && (z <? Z.of_nat n)%Z
  | None => false
  end.

Definition indexOf (v : option Z) : nat :=
  match v with Some z => Z.to_nat z | None => 0 end.

(** Lines 141-155: one [triangle] element. *)
Definition readTriangle (vertices : list ref) (triangles : list TriangleRefs)
    (triangle : Element) : list TriangleRefs :=
  let v1 := readIndex triangle "v1" in
  let v2 := readIndex triangle "v2" in
  let v3 := readIndex triangle "v3" in
  let n := List.length vertices in
  if inRange v1 n && inRange v2 n && inRange v3 n then
    triangles ++ [mkRefs (nth (indexOf v1) vertices 0)
                         (nth (indexOf v2) vertices 0)
                         (nth (indexOf v3) vertices 0)]
  else triangles.

(** Line 161. *)
Definition parseMatrix (transform : string) : list num :=
  filter (fun v => negb (isNaN v)) (map parseFloat (JS.splitWhiteSpace transform)).

Definition transformTriangle (matrixValues : list num)
    (st : Heap * list TriangleRefs) (t : TriangleRefs) : Heap * list TriangleRefs :=
  let (h, done) := st in
  let (h1, ra) := applyTransformRef h (ta t) matrixValues in
  let (h2, rb) := applyTransformRef h1 (tb t) matrixValues in
  let (h3, rc) := applyTransformRef h2 (tc t) matrixValues in
  (h3, done ++ [mkRefs ra rb rc]).

(** Lines 164-170: the loop from [objectTriangleStart] to the end of
    [triangles].  A negative start reads [triangles[-1]], which is
    [undefined], and [t.a] then throws. *)
Definition transformFrom (objectTriangleStart : Z) (matrixValues : list num)
    (h : Heap) (triangles : list TriangleRefs) : result (Heap * list TriangleRefs) :=
  if (objectTriangleStart <? 0)%Z then Throw TypeError
  else
    let start := Z.to_nat objectTriangleStart in
    Return (fold_left (transformTriangle matrixValues)
                      (skipn start triangles) (h, firstn start triangles)).

(** The body of the loop over the [object] elements. *)
Definition parseObject (st : Heap * list TriangleRefs) (object : Element)
  : result (Heap * list TriangleRefs) :=
  let (h, triangles) := st in
  match querySelector object "mesh" with
  | None => Return st
  | Some mesh =>
      match querySelector mesh "vertices" with
      | None => Return st
      | Some verticesElement =>
          let vertexElements := querySelectorAll verticesElement "vertex" in
          let (h1, vertices) := readVertices h vertexElements in
          match querySelector mesh "triangles" with
          | None => Return (h1, triangles)
          | Some trianglesElement =>
              let triangleElements := querySelectorAll trianglesElement "triangle" in
              let triangles1 := fold_left (readTriangle vertices) triangleElements triangles in
              match getAttribute object "transform" with
              | Some (String _ _ as transform) =>
                  let matrixValues := parseMatrix transform in
                  if Nat.eqb (List.length matrixValues) 12 then
                    let objectTriangleStart :=
                      (Z.of_nat (List.length triangles1) - Z.of_nat (List.length triangleElements))%Z in
                    transformFrom objectTriangleStart matrixValues h1 triangles1
                  else Return (h1, triangles1)
              | _ => Return (h1, triangles1)
              end
          end
      end
  end.

Fixpoint parseObjects (st : Heap * list TriangleRefs) (objects : list Element)
  : result (Heap * list TriangleRefs) :=
  match objects with
  | [] => Return st
  | object :: rest =>
      match parseObject st object with
      | Return st' => parseObjects st' rest
      | Throw e => Throw e
      end
  end.

(** [p[0] *= s; p[1] *= s; p[2] *= s] on the array behind [r]. *)
Definition scaleArray (unitScale : num) (h : Heap) (r : ref) : Heap :=
  let '(x, y, z) := deref h r in
  store h r (x * unitScale, y * unitScale, z * unitScale).

(** Lines 177-187: the body of the scaling loop. *)
Definition scaleTriangle (unitScale : num) (h : Heap) (t : TriangleRefs) : Heap :=
  scaleArray unitScale (scaleArray unitScale (scaleArray unitScale h (ta t)) (tb t)) (tc t).

(** What the caller reads through the references. *)
Definition resolve (h : Heap) (t : TriangleRefs) : Triangle num :=
  mkTriangle (deref h (ta t)) (deref h (tb t)) (deref h (tc t)).

Record ParseResult3MF : Type := mkParseResult3MF {
  result_triangles : list (Triangle num);
  result_unitScale : num
}.

(** [parse3MF] from line 96 on: [xml] is the parsed document. *)
Definition parse3MFDocument (xml : Element) : result ParseResult3MF :=
  let model := documentQuerySelector xml "model" in
  let unit :=
    JS.orDefault (match model with
                  | Some m => getAttribute m "unit"
                  | None => None
                  end) "millimeter" in
  let unitScale := unitScaleOf unit in
  let objects := documentQuerySelectorAll xml "object" in
  match parseObjects ([], []) objects with
  | Throw e => Throw e
  | Return (h, triangles) =>
      let h' :=
        if negb (strictEq unitScale (ofZ 1))
        then fold_left (scaleTriangle unitScale) triangles h
        else h in
      Return (mkParseResult3MF (map (resolve h') triangles) (ofZ 1))
  end.

(** ** Reading the archive

    JSZip and DOMParser are libraries: [loadZip] stands for
    [JSZip.loadAsync] followed by [file.async('string')], and gives the
    archive's files by name in the archive's order, or throws;
    [decodeUtf8] is [TextDecoder('utf-8')]; [parseXML] is
    [DOMParser.parseFromString]. *)
Variable loadZip : ArrayBuffer -> result (list (string * string)).
Variable decodeUtf8 : ArrayBuffer -> string.
Variable parseXML : string -> Element.

Definition isZipFile (buffer : ArrayBuffer) : bool :=
  (2 <=? byteLength buffer)%nat
  && (byteAt buffer 0 =? 80)%N && (byteAt buffer 1 =? 75)%N.

Definition zipFile (zip : list (string * string)) (path : string) : option string :=
  option_map snd (find (fun entry => String.eqb (fst entry) path) zip).

Definition isModelName (name : string) : bool :=
  JS.endsWith name ".model" || (JS.endsWith name ".xml" && JS.includes name "model").

Definition extract3MFXML (buffer : ArrayBuffer) : result string :=
  if negb (isZipFile buffer) then Return (decodeUtf8 buffer)
  else
    match loadZip buffer with
    | Throw e => Throw e
    | Return zip =>
        match zipFile zip "3D/3dmodel.model" with
        | Some text => Return text
        | None =>
        match zipFile zip "3dmodel.model" with
        | Some text => Return text
        | None =>
        match filter (fun entry => isModelName (fst entry)) zip with
        | (_, text) :: _ => Return text
        | [] =>
        match filter (fun entry => JS.endsWith (fst entry) ".xml") zip with
        | (_, text) :: _ => Return text
        | [] => Throw (Error "No model file found in 3MF archive")
        end end end end
    end.

Definition parse3MF (buffer : ArrayBuffer) : result ParseResult3MF :=
  match extract3MFXML buffer with
  | Throw e => Throw e
  | Return xmlText => parse3MFDocument (parseXML xmlText)
  end.

(* ================================================================ *)
(** * components/FileDropZone.tsx *)

Record File : Type := mkFile {
  name : string;
  arrayBuffer : result ArrayBuffer      (* [await file.arrayBuffer()] *)
}.

(** The [try] block of [processFile]. *)
Definition processFileBody (unit : STLUnit) (file : File) : result (FileData num) :=
  match arrayBuffer file with
  | Throw e => Throw e
  | Return buffer =>
      let parsed : result (list (Triangle num) * STLUnit) :=
        if JS.endsWith (JS.toLowerCase (name file)) ".stl" then
          if isASCIISTL buffer then
            Return (parseASCIISTL (decodeAscii buffer), unit)
          else
            match parseBinarySTL buffer with
            | Return ts => Return (ts, unit)
            | Throw e => Throw e
            end
        else if JS.endsWith (JS.toLowerCase (name file)) ".3mf" then
          match parse3MF buffer with
          | Return r => Return (result_triangles r, mm)
          | Throw e => Throw e
          end
        else Throw (Error "Unsupported file type") in
      match parsed with
      | Throw e => Throw e
      | Return (triangles, useUnit) =>
          if Nat.eqb (List.length triangles) 0 then
            Throw (Error "No triangles found in file")
          else
            Return (mkFileData (name file) (calculateSurfaceArea triangles useUnit))
      end
  end.

(** [processFile]: the [catch] logs and answers [null]. *)
Definition processFile (unit : STLUnit) (file : File) : option (FileData num) :=
  match processFileBody unit file with
  | Return data => Some data
  | Throw _ => None
  end.

Definition hasMeshExtension (f : File) : bool :=
  JS.endsWith (JS.toLowerCase (name f)) ".stl"
  || JS.endsWith (JS.toLowerCase (name f)) ".3mf".

Fixpoint nonNull {A} (results : list (option A)) : list A :=
  match results with
  | [] => []
  | Some r :: rest => r :: nonNull rest
  | None :: rest => nonNull rest
  end.

(** What [handleFiles] does with a batch: either the alert and nothing
    else, or the call [onFilesLoaded(validResults)]. *)
Inductive Outcome : Type :=
| Alerted
| FilesLoaded (validResults : list (FileData num)).

Definition handleFiles (unit : STLUnit) (files : list File) : Outcome :=
  let validFiles := filter hasMeshExtension files in
  if Nat.eqb (List.length validFiles) 0 then Alerted
  else
    let results := map (processFile unit) validFiles in
    FilesLoaded (nonNull results).
End ThreeMF.

(* ================================================================== *)
(** * Comparisons of JavaScript numbers *)

(** [x < y] and [x <= y], which are false when an operand is NaN. *)
Class Comparing (num : Type) : Type := {
  nlt : num -> num -> bool;
  nle : num -> num -> bool
}.

Notation "x < y" := (nlt x y) : js_scope.
Notation "x > y" := (nlt y x) : js_scope.
Notation "x <= y" := (nle x y) : js_scope.

#[export] Instance b64_Comparing : Comparing float := {
  nlt := PrimFloat.ltb;
  nle := PrimFloat.leb
}.

Definition xlt (x y : xreal) : bool :=
  match x, y with
  | XNaN, _ | _, XNaN => false
  | XInf s, XInf t => s && negb t
  | XInf s, XFin _ => s
  | XFin _, XInf t => negb t
  | XFin a, XFin b => if Rlt_dec a b then true else false
  end.

Definition xle (x y : xreal) : bool :=
  match x, y with
  | XNaN, _ | _, XNaN => false
  | XInf s, XInf t => s || negb t
  | XInf s, XFin _ => s
  | XFin _, XInf t => negb t
  | XFin a, XFin b => if Rle_dec a b then true else false
  end.

#[export] Instance xreal_Comparing : Comparing xreal := {
  nlt := xlt;
  nle := xle
}.

(* ================================================================== *)
(** * App.tsx (its first version, lines 1-241) and components/ResultsTable.tsx *)

Inductive InputMode : Type := upload | manual.

(** ['dm²' | 'cm²' | 'm²' | 'mm²'] *)
Inductive SurfaceAreaUnit : Type := dm2 | cm2 | m2 | mm2.

Section App.
Context {num : Type} `{JSNumber num} `{Comparing num}.
Local Open Scope list_scope.
Local Open Scope js_scope.

Definition handleFilesLoaded (prevFiles newFiles : list (FileData num))
  : list (FileData num) :=
  prevFiles ++ newFiles.

Definition handleClearFiles : list (FileData num) := [].

(** Lines 27-43.  The [default] of the [switch] is for no value of the
    type. *)
Definition manualSurfaceArea_dm2 (manualSurfaceArea : string)
    (manualSurfaceAreaUnit : SurfaceAreaUnit) : num :=
  let value := parseFloat manualSurfaceArea in
  if isNaN value || (value <= ofZ 0) then ofZ 0
  else
    match manualSurfaceAreaUnit with
    | dm2 => value
    | cm2 => value / ofZ 100
    | m2 => value * ofZ 100
    | mm2 => value / ofZ 10000
    end.

(** [files.reduce((sum, file) => sum + file.surfaceArea_dm2, 0)], the
    [totalArea] of the results table. *)
Definition totalArea (files : list (FileData num)) : num :=
  fold_left (fun sum file => sum + surfaceArea_dm2 file) files (ofZ 0).

Definition totalSurfaceArea (inputMode : InputMode) (files : list (FileData num))
    (manualSurfaceArea : string) (manualSurfaceAreaUnit : SurfaceAreaUnit) : num :=
  match inputMode with
  | upload => fold_left (fun sum file => sum + surfaceArea_dm2 file) files (ofZ 0)
  | manual => manualSurfaceArea_dm2 manualSurfaceArea manualSurfaceAreaUnit
  end.
End App.

(* ================================================================== *)
(** * components/PlatingCalculator.tsx *)

Module PlatingCalculator.

Inductive JobType : Type := single | threeStage.

Inductive CalculationMode : Type := thicknessToTime | timeToThickness.

(** ['µm' | 'mm'] *)
Inductive ThicknessUnit : Type := micrometre | millimetre.

(** The state of the component: what its [useState] hooks hold. *)
Record State (num : Type) : Type := mkState {
  jobType : JobType;
  material : Material;
  efficiency : num;                       (* a percentage *)
  currentDensity : string;
  mode : CalculationMode;
  thicknessInput : string;
  thicknessUnit : ThicknessUnit;
  timeInput : string;
  stage1Density : string;
  stage1Time : string;
  stage2Density : string;
  stage2Time : string;
  stage3Density : string;
  stage3Mode : CalculationMode;
  stage3ThicknessInput : string;
  stage3TimeInput : string
}.

(** What the component starts with. *)
Definition initialState {num : Type} `{Arith num} : State num :=
  mkState single Copper (ofZ 100) "2.0" thicknessToTime "10" micrometre "01:00:00"
          "0.5" "00:30:00" "0.5" "00:30:00"
          "2.0" thicknessToTime "10" "01:00:00".

Section Derived.
Context {num : Type} `{JSNumber num} `{Comparing num}.
Local Open Scope js_scope.

(** Copper: 5.0; Nickel: 5.0 (A/dm2). *)
Definition RECOMMENDED_LIMITS (m : Material) : num :=
  match m with
  | Copper => ofZ 5
  | Nickel => ofZ 5
  end.

(** [x || 0] on a number: NaN and zero are falsy. *)
Definition orZero (x : num) : num :=
  if isNaN x || strictEq x (ofZ 0) then ofZ 0 else x.

(** A string as a condition: the empty string is falsy. *)
Definition nonEmpty (s : string) : bool := negb (String.eqb s "").

Definition isSingle (j : JobType) : bool :=
  match j with single => true | threeStage => false end.

Definition isThreeStage (j : JobType) : bool := negb (isSingle j).

Definition isThicknessToTime (m : CalculationMode) : bool :=
  match m with thicknessToTime => true | timeToThickness => false end.

Definition isTimeToThickness (m : CalculationMode) : bool :=
  negb (isThicknessToTime m).

Variable st : State num.

Definition currentDensityNum : num := orZero (parseFloat (currentDensity st)).
Definition efficiencyDecimal : num := efficiency st / ofZ 100.
Definition stage1DensityNum : num := orZero (parseFloat (stage1Density st)).
Definition stage2DensityNum : num := orZero (parseFloat (stage2Density st)).
Definition stage3DensityNum : num := orZero (parseFloat (stage3Density st)).

Definition thicknessAfterStage1 : num :=
  if isThreeStage (jobType st) && nonEmpty (stage1Time st)
     && (stage1DensityNum > ofZ 0) && (efficiencyDecimal > ofZ 0)
  then
    let timeSeconds := parseTime (stage1Time st) in
    if timeSeconds > ofZ 0
    then calculateThicknessFromTime timeSeconds stage1DensityNum efficiencyDecimal
                                    (material st)
    else ofZ 0
  else ofZ 0.

Definition thicknessAfterStage2 : num :=
  if isThreeStage (jobType st) && nonEmpty (stage2Time st)
     && (stage2DensityNum > ofZ 0) && (efficiencyDecimal > ofZ 0)
  then
    let timeSeconds := parseTime (stage2Time st) in
    if timeSeconds > ofZ 0
    then
      let stage2Thickness :=
        calculateThicknessFromTime timeSeconds stage2DensityNum efficiencyDecimal
                                   (material st) in
      thicknessAfterStage1 + stage2Thickness
    else thicknessAfterStage1
  else thicknessAfterStage1.

Definition totalCurrent (totalSurfaceArea_dm2 : num) : num :=
  if totalSurfaceArea_dm2 > ofZ 0 then
    if isSingle (jobType st) && (currentDensityNum > ofZ 0)
    then calculateTotalCurrent totalSurfaceArea_dm2 currentDensityNum
    else if isThreeStage (jobType st) && (stage3DensityNum > ofZ 0)
    then calculateTotalCurrent totalSurfaceArea_dm2 stage3DensityNum
    else ofZ 0
  else ofZ 0.

Definition depositionRate : num :=
  let density := if isSingle (jobType st) then currentDensityNum else stage3DensityNum in
  if (density > ofZ 0) && (efficiencyDecimal > ofZ 0)
  then calculateDepositionRate density efficiencyDecimal (material st)
  else ofZ 0.

Definition toMicrometers (thickness : num) : num :=
  if isNaN thickness then ofZ 0
  else
    match thicknessUnit st with
    | millimetre => thickness * ofZ 1000
    | micrometre => thickness
    end.

Definition thicknessInMicrometers : num :=
  toMicrometers (parseFloat (thicknessInput st)).

Definition stage3ThicknessInMicrometers : num :=
  toMicrometers
    (parseFloat (if isSingle (jobType st) then thicknessInput st
                 else stage3ThicknessInput st)).

(** [null] is [None]. *)
Definition calculatedTime : option num :=
  if isSingle (jobType st) then
    if isThicknessToTime (mode st) && nonEmpty (thicknessInput st) then
      if (thicknessInMicrometers > ofZ 0) && (currentDensityNum > ofZ 0)
         && (efficiencyDecimal > ofZ 0)
      then Some (calculateTimeFromThickness thicknessInMicrometers currentDensityNum
                                            efficiencyDecimal (material st))
      else None
    else None
  else
    if isThicknessToTime (stage3Mode st) && nonEmpty (stage3ThicknessInput st) then
      let targetThickness := stage3ThicknessInMicrometers in
      let remainingThickness := targetThickness - thicknessAfterStage2 in
      if (remainingThickness > ofZ 0) && (stage3DensityNum > ofZ 0)
         && (efficiencyDecimal > ofZ 0)
      then Some (calculateTimeFromThickness remainingThickness stage3DensityNum
                                            efficiencyDecimal (material st))
      else None
    else None.

Definition calculatedThickness : option num :=
  if isSingle (jobType st) then
    if isTimeToThickness (mode st) && nonEmpty (timeInput st) then
      let timeSeconds := parseTime (timeInput st) in
      if (timeSeconds > ofZ 0) && (currentDensityNum > ofZ 0)
         && (efficiencyDecimal > ofZ 0)
      then Some (calculateThicknessFromTime timeSeconds currentDensityNum
                                            efficiencyDecimal (material st))
      else None
    else None
  else
    if isTimeToThickness (stage3Mode st) && nonEmpty (stage3TimeInput st) then
      let timeSeconds := parseTime (stage3TimeInput st) in
      if (timeSeconds > ofZ 0) && (stage3DensityNum > ofZ 0)
         && (efficiencyDecimal > ofZ 0)
      then
        let stage3Thickness :=
          calculateThicknessFromTime timeSeconds stage3DensityNum efficiencyDecimal
                                     (material st) in
        Some (thicknessAfterStage2 + stage3Thickness)
      else None
    else None.

Definition calculatedThicknessDisplay : option num :=
  match calculatedThickness with
  | None => None
  | Some thickness =>
      Some (match thicknessUnit st with
            | millimetre => thickness / ofZ 1000
            | micrometre => thickness
            end)
  end.

Definition exceedsRecommended : bool :=
  currentDensityNum > RECOMMENDED_LIMITS (material st).

Definition hasWarning (totalSurfaceArea_dm2 : num) : bool :=
  strictEq totalSurfaceArea_dm2 (ofZ 0).
End Derived.

End PlatingCalculator.

(** ** The second version of App.tsx (lines 248-319)

    It has no manual entry, and a batch of results takes the place of the
    files held before. *)
Module AppWithoutManualEntry.
Section App.
Context {num : Type} `{JSNumber num}.
Local Open Scope js_scope.

Definition handleFilesLoaded (newFiles : list (FileData num)) : list (FileData num) :=
  newFiles.

Definition totalSurfaceArea (files : list (FileData num)) : num :=
  fold_left (fun sum file => sum + surfaceArea_dm2 file) files (ofZ 0).
End App.
End AppWithoutManualEntry.

(* ================================================================== *)
(** * Vocabulary of the specification *)

(** The cross product [(b - a) x (c - a)] of the edge vectors of a
    triangle. *)
Definition edgeCross (t : Triangle R) : R * R * R :=
  let '(ax, ay, az) := a t in
  let '(bx, by_, bz) := b t in
  let '(cx, cy, cz) := c t in
  ((by_ - ay) * (cz - az) - (bz - az) * (cy - ay),
   (bz - az) * (cx - ax) - (bx - ax) * (cz - az),
   (bx - ax) * (cy - ay) - (by_ - ay) * (cx - ax))%R.

(** A triangle is degenerate when its vertices are coincident or collinear:
    the edge vectors [b - a] and [c - a] are linearly dependent. *)
Definition degenerate (t : Triangle R) : Prop :=
  let '(ax, ay, az) := a t in
  let '(bx, by_, bz) := b t in
  let '(cx, cy, cz) := c t in
  exists l m : R,
    (l <> 0 \/ m <> 0)%R
    /\ (l * (bx - ax) + m * (cx - ax) = 0)%R
    /\ (l * (by_ - ay) + m * (cy - ay) = 0)%R
    /\ (l * (bz - az) + m * (cz - az) = 0)%R.


(** The decimal numeral of [n] behind [zeros] leading zeros. *)
Definition numeral (zeros : nat) (n : N) : string :=
  JS.repeatChar "0" zeros ++ printZ (Z.of_N n).

(** The binary64 pattern of the whole number [z], for [0 < z < 2^53]: it
    has no sign, a mantissa of 53 bits and the exponent that goes with
    it. *)
Definition b64_pattern (z : Z) : spec_float :=
  S754_finite false (Z.to_pos (z * 2 ^ (52 - Z.log2 z))) (Z.log2 z - 52)%Z.

(** A character that is not white space. *)
Definition nonWhite (ch : ascii) : bool := negb (JS.isWhiteSpace ch).

(** How often the character [ch] occurs in [s]. *)
Fixpoint countChar (ch : ascii) (s : string) : nat :=
  match s with
  | EmptyString => 0
  | String d r => (if Ascii.eqb d ch then 1 else 0) + countChar ch r
  end.


(** The three coordinates of a vertex and the attributes they are read
    from. *)
Inductive Axis : Type := AxisX | AxisY | AxisZ.

Definition axisName (axis : Axis) : string :=
  match axis with AxisX => "x" | AxisY => "y" | AxisZ => "z" end.

Definition coordinate {num : Type} (axis : Axis) (p : Point num) : num :=
  match axis with
  | AxisX => fst (fst p)
  | AxisY => snd (fst p)
  | AxisZ => snd p
  end.

(** Whether the first character of [text] after leading white space can
    start a number: a digit, a sign, a decimal point or the [I] of
    [Infinity]. *)
Definition startsNumeric (text : string) : bool :=
  match JS.trimStart text with
  | EmptyString => false
  | String ch _ =>
      JS.isDigit ch || Ascii.eqb ch "+" || Ascii.eqb ch "-"
      || Ascii.eqb ch "." || Ascii.eqb ch "I"
  end.

(** A [vertex] element whose [x] attribute is not a number. *)
Definition unparsableVertex : Element :=
  Elem "vertex" [("x", "abc"); ("y", "0"); ("z", "0")] [].


(** A text without vertex records, such as a header on its own: no line
    of [content] starts, once trimmed, with the keyword [vertex]. *)
Definition withoutVertexLines (content : string) : Prop :=
  Forall (fun line => JS.startsWith (JS.trim line) "vertex" = false)
         (JS.split "010" content).

(** A binary buffer that ends with its header: 80 bytes and a count of
    zero triangles. *)
Definition headerOnlyBinary : ArrayBuffer := JS.repeatChar "000" 84.

(** The results that a batch hands to [onFilesLoaded]; none when it only
    alerts. *)
Definition loadedResults {num : Type} (outcome : Outcome (num := num)) : list (FileData num) :=
  match outcome with
  | Alerted => []
  | FilesLoaded validResults => validResults
  end.

Definition resultOf {A : Type} (r : option A) : list A :=
  match r with
  | Some x => [x]
  | None => []
  end.


(** ** Two 3MF documents *)

Definition vertexElement (x y z : string) : Element :=
  Elem "vertex" [("x", x); ("y", y); ("z", z)] [].

Definition triangleElement (v1 v2 v3 : string) : Element :=
  Elem "triangle" [("v1", v1); ("v2", v2); ("v3", v3)] [].

Definition meshElement (vertices triangles : list Element) : Element :=
  Elem "mesh" [] [Elem "vertices" [] vertices; Elem "triangles" [] triangles].

(** One object in centimeters, no transform; its two triangles share the
    vertices 0 and 1. *)
Definition sharedVertexDocument : Element :=
  Elem "model" [("unit", "centimeter")]
    [Elem "resources" []
       [Elem "object" [("id", "1")]
          [meshElement
             [vertexElement "0" "0" "0"; vertexElement "1" "0" "0";
              vertexElement "0" "1" "0"; vertexElement "0" "0" "1"]
             [triangleElement "0" "1" "2"; triangleElement "0" "1" "3"]]]].

(** An object with a translation by 5 along z, one triangle of which names
    the vertex 7 that does not exist. *)
Definition translatedObject : Element :=
  Elem "object" [("id", "2"); ("transform", "1 0 0 0 0 1 0 0 0 0 1 5")]
    [meshElement
       [vertexElement "0" "0" "0"; vertexElement "1" "0" "0"; vertexElement "0" "1" "0"]
       [triangleElement "0" "1" "2"; triangleElement "0" "1" "7"]].

Definition plainObject : Element :=
  Elem "object" [("id", "1")]
    [meshElement
       [vertexElement "0" "0" "0"; vertexElement "1" "0" "0"; vertexElement "0" "1" "0"]
       [triangleElement "0" "1" "2"]].

(** The object without transform, followed by the translated one. *)
Definition skippedTriangleDocument : Element :=
  Elem "model" [] [Elem "resources" [] [plainObject; translatedObject]].

(** The translated object on its own. *)
Definition skippedTriangleAloneDocument : Element :=
  Elem "model" [] [Elem "resources" [] [translatedObject]].

Definition point (x y z : Z) : Point float := (ofZ x, ofZ y, ofZ z).


(** A triangle with collinear vertices (0,0,0), (3,1,0) and (9,3,0), in any
    number type: the coordinates are small integers. *)
Definition collinearTriangle {num : Type} `{Arith num} : Triangle num :=
  mkTriangle (ofZ 0, ofZ 0, ofZ 0) (ofZ 3, ofZ 1, ofZ 0) (ofZ 9, ofZ 3, ofZ 0).


(** A binary64 value that is not below zero: NaN, a zero of either sign, a
    positive number or +Infinity. *)
Definition notNegative (x : spec_float) : bool :=
  match x with
  | S754_nan => true
  | S754_zero _ => true
  | S754_infinity s => negb s
  | S754_finite s _ _ => negb s
  end.


(** [sharedVertexDocument] with the identity as the object's transform. *)
Definition sharedVertexIdentityDocument : Element :=
  Elem "model" [("unit", "centimeter")]
    [Elem "resources" []
       [Elem "object" [("id", "1"); ("transform", "1 0 0 0 0 1 0 0 0 0 1 0")]
          [meshElement
             [vertexElement "0" "0" "0"; vertexElement "1" "0" "0";
              vertexElement "0" "1" "0"; vertexElement "0" "0" "1"]
             [triangleElement "0" "1" "2"; triangleElement "0" "1" "3"]]]].

(** [skippedTriangleDocument] without the triangle that is skipped. *)
Definition noSkippedTriangleDocument : Element :=
  Elem "model" []
    [Elem "resources" []
       [plainObject;
        Elem "object" [("id", "2"); ("transform", "1 0 0 0 0 1 0 0 0 0 1 5")]
          [meshElement
             [vertexElement "0" "0" "0"; vertexElement "1" "0" "0"; vertexElement "0" "1" "0"]
             [triangleElement "0" "1" "2"]]]].

(** ** Sample STL texts *)

Definition joinLines (ls : list string) : string := String.concat (String "010" "") ls.

Definition twoFacets : string :=
  joinLines ["solid part";
         "  facet normal 0 0 1"; "    outer loop";
         "      vertex 0 0 0"; "      vertex 1 0 0"; "      vertex 0 1 0";
         "    endloop"; "  endfacet";
         "  facet normal 0 0 1"; "    outer loop";
         "      vertex 1 0 0"; "      vertex 1 1 0"; "      vertex 0 1 0";
         "    endloop"; "  endfacet";
         "endsolid part"].

Definition shortFacet : string :=
  joinLines ["solid part";
         "  facet normal 0 0 1"; "    outer loop";
         "      vertex 0 0 0"; "      vertex 1 0 0";
         "    endloop"; "  endfacet";
         "endsolid part"].

(** ** Vocabulary of the further properties *)

(** The triangle moved by the vector [v], and the squared length of the
    segment between two points. *)
Definition translatePoint (v p : Point R) : Point R :=
  let '(vx, vy, vz) := v in
  let '(x, y, z) := p in
  (x + vx, y + vy, z + vz)%R.

Definition translateTriangle (v : Point R) (t : Triangle R) : Triangle R :=
  mkTriangle (translatePoint v (a t)) (translatePoint v (b t)) (translatePoint v (c t)).

Definition squaredDistance (p q : Point R) : R :=
  let '(px, py, pz) := p in
  let '(qx, qy, qz) := q in
  ((qx - px) * (qx - px) + (qy - py) * (qy - py) + (qz - pz) * (qz - pz))%R.

(** The same triangle with its vertices named in each of the other orders. *)
Definition reorderings {num : Type} (t : Triangle num) : list (Triangle num) :=
  [mkTriangle (b t) (c t) (a t); mkTriangle (c t) (a t) (b t);
   mkTriangle (a t) (c t) (b t); mkTriangle (c t) (b t) (a t);
   mkTriangle (b t) (a t) (c t)].

(** The lines that [parseASCIISTL] acts on: those that start, once trimmed,
    with [vertex] or with [endfacet]. *)
Definition isVertexLine (line : string) : bool :=
  JS.startsWith (JS.trim line) "vertex".

Definition isEndfacetLine (line : string) : bool :=
  JS.startsWith (JS.trim line) "endfacet".

Definition relevantLine (line : string) : bool :=
  isVertexLine line || isEndfacetLine line.

(** A point and a triangle none of whose coordinates is NaN. *)
Definition numericPoint {num : Type} `{JSNumber num} (p : Point num) : Prop :=
  let '(x, y, z) := p in isNaN x = false /\ isNaN y = false /\ isNaN z = false.

Definition numericTriangle {num : Type} `{JSNumber num} (t : Triangle num) : Prop :=
  numericPoint (a t) /\ numericPoint (b t) /\ numericPoint (c t).

(** A binary buffer with a count of one and one record that lacks its two
    attribute bytes: 80 + 4 + 48 bytes. *)
Definition oneRecordBinary : ArrayBuffer :=
  JS.repeatChar "000" 80 ++ String "001" (JS.repeatChar "000" 51).

(** What the loop of [parseASCIISTL] keeps true: no coordinate that it has
    stored is NaN. *)
Definition numericState {num : Type} `{JSNumber num} (st : ASCIIState (num := num)) : Prop :=
  Forall numericTriangle (triangles st)
  /\ (forall p, pa (currentTriangle st) = Some p -> numericPoint p)
  /\ (forall p, pb (currentTriangle st) = Some p -> numericPoint p)
  /\ (forall p, pc (currentTriangle st) = Some p -> numericPoint p).

(** The transform attribute that leaves every point where it is, and the
    one that moves every point by [(tx, ty, tz)], as [applyTransform] reads
    its twelve numbers. *)
Definition identityMatrix {num : Type} `{Arith num} : list num :=
  [ofZ 1; ofZ 0; ofZ 0; ofZ 0;
   ofZ 0; ofZ 1; ofZ 0; ofZ 0;
   ofZ 0; ofZ 0; ofZ 1; ofZ 0].

Definition translationMatrix (tx ty tz : R) : list xreal :=
  map XFin [1; 0; 0; tx;
            0; 1; 0; ty;
            0; 0; 1; tz]%R.

(** A point with finite coordinates. *)
Definition finitePoint (p : Point R) : Point xreal :=
  let '(x, y, z) := p in (XFin x, XFin y, XFin z).

(** The keys of the table [unitScales], and the two keys that the table
    inherits. *)
Definition unitScaleKeys : list string :=
  ["millimeter"; "micron"; "centimeter"; "inch"; "foot"; "meter"].

Definition inheritedKeys : list string := ["constructor"; "__proto__"].


(** A number of exact arithmetic that is positive, or that is not
    negative: finite with that sign, or +Infinity, and not NaN. *)
Definition xpositive (x : xreal) : Prop :=
  match x with
  | XFin r => (0 < r)%R
  | XInf negative => negative = false
  | XNaN => False
  end.

Definition xnonnegative (x : xreal) : Prop :=
  match x with
  | XFin r => (0 <= r)%R
  | XInf negative => negative = false
  | XNaN => False
  end.

(** ** The triangles of a 3MF document, read without arrays

    What [parse3MF] is to return for an [object] element: the vertices are
    the points that the [vertex] elements give, in their order; each
    [triangle] element whose three indices are within the vertices gives the
    triangle of the three points they name; the triangles are moved by the
    matrix of the object, when it has one, and scaled by the scale of the
    unit, when that is not 1. *)
Section ThreeMFReading.
Context {num : Type} `{JSNumber num}.
Local Open Scope list_scope.
Local Open Scope js_scope.

(** The [vertex] and the [triangle] elements of an object whose mesh has
    both lists. *)
Definition objectMesh (object : Element) : option (list Element * list Element) :=
  match querySelector object "mesh" with
  | None => None
  | Some mesh =>
      match querySelector mesh "vertices", querySelector mesh "triangles" with
      | Some verticesElement, Some trianglesElement =>
          Some (querySelectorAll verticesElement "vertex",
                querySelectorAll trianglesElement "triangle")
      | _, _ => None
      end
  end.

(** The three indices of a [triangle] element, when they are all within
    [count] vertices; no index otherwise. *)
Definition cornerIndices (count : nat) (triangle : Element) : list nat :=
  let v1 := readIndex triangle "v1" in
  let v2 := readIndex triangle "v2" in
  let v3 := readIndex triangle "v3" in
  if inRange v1 count && inRange v2 count && inRange v3 count
  then [indexOf v1; indexOf v2; indexOf v3]
  else [].

Definition elementTriangle (points : list (Point num)) (triangle : Element)
  : list (Triangle num) :=
  match cornerIndices (List.length points) triangle with
  | [i1; i2; i3] =>
      [mkTriangle (nth i1 points (NaN, NaN, NaN)) (nth i2 points (NaN, NaN, NaN))
                  (nth i3 points (NaN, NaN, NaN))]
  | _ => []
  end.

Definition objectTriangles (object : Element) : list (Triangle num) :=
  match objectMesh object with
  | Some (vertexElements, triangleElements) =>
      flat_map (elementTriangle (map readVertex vertexElements)) triangleElements
  | None => []
  end.

(** The matrix of an [object] element: the numbers of its [transform]
    attribute when there are exactly twelve of them. *)
Definition objectMatrix (object : Element) : option (list num) :=
  match getAttribute object "transform" with
  | Some (String _ _ as transform) =>
      if Nat.eqb (List.length (parseMatrix transform)) 12
      then Some (parseMatrix transform)
      else None
  | _ => None
  end.

(** The unit that [parse3MF] takes from the document. *)
Definition modelUnit (xml : Element) : string :=
  JS.orDefault (match documentQuerySelector xml "model" with
                | Some m => getAttribute m "unit"
                | None => None
                end) "millimeter".

Definition transformTriangleBy (matrix : list num) (t : Triangle num) : Triangle num :=
  mkTriangle (applyTransform (a t) matrix) (applyTransform (b t) matrix)
             (applyTransform (c t) matrix).

Definition scalePoint (unitScale : num) (p : Point num) : Point num :=
  let '(x, y, z) := p in (x * unitScale, y * unitScale, z * unitScale).

Definition scaleTriangleBy (unitScale : num) (t : Triangle num) : Triangle num :=
  mkTriangle (scalePoint unitScale (a t)) (scalePoint unitScale (b t))
             (scalePoint unitScale (c t)).

Definition movedTriangles (object : Element) : list (Triangle num) :=
  match objectMatrix object with
  | Some matrix => map (transformTriangleBy matrix) (objectTriangles object)
  | None => objectTriangles object
  end.

Definition finishedTriangles (unitScale : num) (object : Element) : list (Triangle num) :=
  if strictEq unitScale (ofZ 1) then movedTriangles object
  else map (scaleTriangleBy unitScale) (movedTriangles object).

(** The objects on which the arrays that [parse3MF] shares and the start
    of its transform loop do no harm: an object with a matrix none of whose
    triangle elements is left out, and an object without a matrix none of
    whose vertices is named twice, or any such object when the scale is 1. *)
Definition handledObject (unitScale : num) (object : Element) : Prop :=
  match objectMesh object with
  | None => True
  | Some (vertexElements, triangleElements) =>
      match objectMatrix object with
      | Some _ =>
          Forall (fun triangle =>
                    cornerIndices (List.length vertexElements) triangle <> [])
                 triangleElements
      | None =>
          strictEq unitScale (ofZ 1) = true
          \/ NoDup (flat_map (cornerIndices (List.length vertexElements)) triangleElements)
      end
  end.

Definition cornerRefs (t : TriangleRefs) : list ref := [ta t; tb t; tc t].

(** The triangles that a state of the loop over the objects stands for:
    its references are within the store and lead to these triangles, and no
    array is referenced twice when the arrays are to be scaled. *)
Definition standsFor (unitScale : num) (st : Heap (num := num) * list TriangleRefs)
    (triangles : list (Triangle num)) : Prop :=
  Forall (fun t => Forall (fun r => (r < List.length (fst st))%nat) (cornerRefs t)) (snd st)
  /\ map (resolve (fst st)) (snd st) = triangles
  /\ (strictEq unitScale (ofZ 1) = false -> NoDup (flat_map cornerRefs (snd st))).

(** The references that the [triangle] elements of a mesh add, when the
    arrays of its [count] vertices are at [first] and after in the store. *)
Definition newRefs (first count : nat) (triangleElements : list Element)
  : list TriangleRefs :=
  flat_map
    (fun triangle =>
       match cornerIndices count triangle with
       | [i1; i2; i3] => [mkRefs (first + i1)%nat (first + i2)%nat (first + i3)%nat]
       | _ => []
       end)
    triangleElements.
End ThreeMFReading.

(** A model in millimetres with one object, two triangles that share an
    edge, and one triangle element that names a vertex the mesh lacks. *)
Definition plainDocument : Element :=
  Elem "model" [("unit", "millimeter")]
    [Elem "resources" []
       [Elem "object" [("id", "1")]
          [meshElement
             [vertexElement "0" "0" "0"; vertexElement "1" "0" "0";
              vertexElement "0" "1" "0"; vertexElement "0" "0" "1"]
             [triangleElement "0" "1" "2"; triangleElement "0" "1" "3";
              triangleElement "0" "1" "4"]]]].

(** A model in inches with an object that is moved by 5 along z and an
    object without a transform whose triangle names each vertex once. *)
Definition movedAndScaledDocument : Element :=
  Elem "model" [("unit", "inch")]
    [Elem "resources" []
       [Elem "object" [("id", "1"); ("transform", "1 0 0 0 0 1 0 0 0 0 1 5")]
          [meshElement
             [vertexElement "0" "0" "0"; vertexElement "1" "0" "0";
              vertexElement "0" "1" "0"; vertexElement "0" "0" "1"]
             [triangleElement "0" "1" "2"; triangleElement "0" "1" "3"]];
        Elem "object" [("id", "2")]
          [meshElement
             [vertexElement "0" "0" "0"; vertexElement "1" "0" "0";
              vertexElement "0" "1" "0"]
             [triangleElement "0" "1" "2"]]]].

(** ** The calculator after the user acts *)

(** The setters of the mode and of the time text, as the radio buttons and
    the time field of the single-stage form call them. *)
Definition setMode {num : Type} (st : PlatingCalculator.State num)
    (mode : PlatingCalculator.CalculationMode) : PlatingCalculator.State num :=
  PlatingCalculator.mkState
    (PlatingCalculator.jobType st) (PlatingCalculator.material st)
    (PlatingCalculator.efficiency st) (PlatingCalculator.currentDensity st)
    mode
    (PlatingCalculator.thicknessInput st) (PlatingCalculator.thicknessUnit st)
    (PlatingCalculator.timeInput st)
    (PlatingCalculator.stage1Density st) (PlatingCalculator.stage1Time st)
    (PlatingCalculator.stage2Density st) (PlatingCalculator.stage2Time st)
    (PlatingCalculator.stage3Density st) (PlatingCalculator.stage3Mode st)
    (PlatingCalculator.stage3ThicknessInput st) (PlatingCalculator.stage3TimeInput st).

Definition setTimeInput {num : Type} (st : PlatingCalculator.State num)
    (timeInput : string) : PlatingCalculator.State num :=
  PlatingCalculator.mkState
    (PlatingCalculator.jobType st) (PlatingCalculator.material st)
    (PlatingCalculator.efficiency st) (PlatingCalculator.currentDensity st)
    (PlatingCalculator.mode st)
    (PlatingCalculator.thicknessInput st) (PlatingCalculator.thicknessUnit st)
    timeInput
    (PlatingCalculator.stage1Density st) (PlatingCalculator.stage1Time st)
    (PlatingCalculator.stage2Density st) (PlatingCalculator.stage2Time st)
    (PlatingCalculator.stage3Density st) (PlatingCalculator.stage3Mode st)
    (PlatingCalculator.stage3ThicknessInput st) (PlatingCalculator.stage3TimeInput st).

(** The files that the application holds once a batch has been handled:
    [FileDropZone] calls [onFilesLoaded], which is [handleFilesLoaded], with
    the results, and calls nothing when it alerts. *)
Definition filesAfterBatch {num : Type} (prevFiles : list (FileData num))
    (outcome : Outcome (num := num)) : list (FileData num) :=
  match outcome with
  | Alerted => prevFiles
  | FilesLoaded validResults => handleFilesLoaded prevFiles validResults
  end.

(** The same with the second version of the application. *)
Definition filesAfterBatchReplaced {num : Type} (prevFiles : list (FileData num))
    (outcome : Outcome (num := num)) : list (FileData num) :=
  match outcome with
  | Alerted => prevFiles
  | FilesLoaded validResults => AppWithoutManualEntry.handleFilesLoaded validResults
  end.

(* ================================================================== *)
(** * Properties *)

Unset Implicit Arguments.

(** ** Literals in exact arithmetic *)

Lemma IZR_abs_N (z : Z) : IZR (Z.of_N (Z.abs_N z)) = Rabs (IZR z).
Proof. now rewrite N2Z.inj_abs_N, abs_IZR. Qed.

Lemma R_ofZ (z : Z) : ofZ (num := R) z = IZR z.
Proof.
  unfold ofZ; cbn. rewrite IZR_abs_N, Rdiv_1_r.
  destruct (Z.ltb_spec z 0) as [Hneg | Hpos].
  - apply IZR_lt in Hneg. rewrite Rabs_left by exact Hneg. lra.
  - apply IZR_le in Hpos. now rewrite Rabs_right by lra.
Qed.

Lemma R_tenths (m : N) : ofDecimal (num := R) false m (-1) = (IZR (Z.of_N m) / 10)%R.
Proof. reflexivity. Qed.

Lemma FARADAY_CONSTANTS_pos (material : Material) :
  (0 < FARADAY_CONSTANTS (num := R) material)%R.
Proof.
  destruct material; unfold FARADAY_CONSTANTS; rewrite R_tenths; cbn [Z.of_N]; lra.
Qed.

(** ** The two Faraday formulas *)

(** C3, amended.  In exact arithmetic, for every material, every current
    density [d] and efficiency [e] with [d * e <> 0], every thickness [x] and
    every time [t], computing the time for [x] and then the thickness for
    that time gives [x] back, and computing the thickness for [t] and then
    the time for that thickness gives [t] back. *)
Theorem time_thickness_inverse_exact :
  forall (material : Material) (d e x t : R),
    (d * e <> 0)%R ->
    calculateThicknessFromTime (calculateTimeFromThickness x d e material) d e material = x
    /\ calculateTimeFromThickness (calculateThicknessFromTime t d e material) d e material = t.
Proof.
  intros material d e x t Hde.
  pose proof (FARADAY_CONSTANTS_pos material) as HK.
  unfold calculateThicknessFromTime, calculateTimeFromThickness.
  set (K := FARADAY_CONSTANTS material) in *.
  assert (HK0 : K <> 0%R) by lra.
  assert (Hd : d <> 0%R) by (intro Hd; apply Hde; rewrite Hd; ring).
  assert (He : e <> 0%R) by (intro He; apply Hde; rewrite He; ring).
  cbn [nmul ndiv R_Arith].
  split; field; repeat split; assumption.
Qed.

Lemma time_thickness_inverse_exact_witness :
  (2 * 1 <> 0)%R
  /\ calculateThicknessFromTime (calculateTimeFromThickness 10%R 2%R 1%R Copper) 2%R 1%R Copper
     = 10%R
  /\ calculateTimeFromThickness (calculateThicknessFromTime 1352.5%R 2%R 1%R Copper) 2%R 1%R Copper
     = 1352.5%R.
Proof.
  split; [lra |].
  apply (time_thickness_inverse_exact Copper 2%R 1%R 10%R 1352.5%R); lra.
Defined.

(** C3, as stated, fails in binary64: nickel, 3 microns, 5 A/dm2 at full
    efficiency.  The density times the efficiency is not zero, and the
    thickness that comes back from the computed time is not 3. *)
Lemma time_thickness_inverse_binary64_counterexample :
  let x : float := ofZ 3 in
  let d : float := ofZ 5 in
  let e : float := ofZ 1 in
  nmul d e <> ofZ 0
  /\ calculateThicknessFromTime (calculateTimeFromThickness x d e Nickel) d e Nickel <> x.
Proof.
  cbv zeta. split.
  - intro Heq.
    assert (E : PrimFloat.eqb (nmul (ofZ 5) (ofZ 1)) (ofZ 0 : float) = false)
      by (vm_compute; reflexivity).
    rewrite Heq in E. vm_compute in E. discriminate E.
  - intro Heq.
    assert (E : PrimFloat.eqb
                  (calculateThicknessFromTime
                     (calculateTimeFromThickness (ofZ 3) (ofZ 5) (ofZ 1) Nickel)
                     (ofZ 5) (ofZ 1) Nickel) (ofZ 3 : float) = false)
      by (vm_compute; reflexivity).
    rewrite Heq in E. vm_compute in E. discriminate E.
Qed.

(** ** Surface area *)

Lemma conversions_pos (unit : STLUnit) : (0 < conversions (num := R) unit)%R.
Proof.
  destruct unit; unfold conversions; rewrite ?R_ofZ, ?R_tenths; cbn [Z.of_N]; lra.
Qed.

Lemma sum_squares_zero (x y z : R) :
  (x * x + y * y + z * z = 0)%R <-> (x = 0 /\ y = 0 /\ z = 0)%R.
Proof.
  split.
  - intro Hs. repeat split; nra.
  - intros (-> & -> & ->). ring.
Qed.

Lemma calculateTriangleArea_exact (t : Triangle R) :
  calculateTriangleArea t
  = let '(X, Y, Z) := edgeCross t in
    (/ 2 * R_sqrt.sqrt (X * X + Y * Y + Z * Z))%R.
Proof.
  destruct t as [[[ax ay] az] [[bx by_] bz] [[cx cy] cz]].
  unfold calculateTriangleArea, edgeCross; cbn [a b c nmul nsub nadd nsqrt R_Arith].
  rewrite R_tenths; cbn [Z.of_N]. f_equal. lra.
Qed.

Lemma calculateTriangleArea_nonneg (t : Triangle R) : (0 <= calculateTriangleArea t)%R.
Proof.
  rewrite calculateTriangleArea_exact. destruct (edgeCross t) as [[X Y] Z].
  pose proof (sqrt_pos (X * X + Y * Y + Z * Z)). lra.
Qed.

Lemma calculateTriangleArea_zero (t : Triangle R) :
  calculateTriangleArea t = 0%R <-> edgeCross t = (0, 0, 0)%R.
Proof.
  rewrite calculateTriangleArea_exact. destruct (edgeCross t) as [[X Y] Z].
  assert (Hsq : (0 <= X * X + Y * Y + Z * Z)%R) by nra.
  split.
  - intro Ha.
    assert (Hs : R_sqrt.sqrt (X * X + Y * Y + Z * Z) = 0%R) by lra.
    apply sqrt_eq_0 in Hs; [| exact Hsq].
    apply sum_squares_zero in Hs. destruct Hs as (-> & -> & ->). reflexivity.
  - intro Hc. injection Hc as -> -> ->.
    replace (0 * 0 + 0 * 0 + 0 * 0)%R with 0%R by ring. rewrite sqrt_0. ring.
Qed.

(** Linear dependence of the edge vectors is the vanishing of their cross
    product. *)
Lemma degenerate_iff_cross (t : Triangle R) :
  degenerate t <-> edgeCross t = (0, 0, 0)%R.
Proof.
  destruct t as [[[ax ay] az] [[bx by_] bz] [[cx cy] cz]].
  unfold degenerate, edgeCross; cbn [a b c].
  set (ux := (bx - ax)%R). set (uy := (by_ - ay)%R). set (uz := (bz - az)%R).
  set (vx := (cx - ax)%R). set (vy := (cy - ay)%R). set (vz := (cz - az)%R).
  split.
  - intros (l & m & Hlm & Hx & Hy & Hz).
    assert (HX : (uy * vz - uz * vy = 0)%R).
    { destruct Hlm as [Hl | Hm].
      - apply (Rmult_eq_reg_l l); [| exact Hl].
        replace (l * (uy * vz - uz * vy))%R
          with ((l * uy + m * vy) * vz - (l * uz + m * vz) * vy)%R by ring.
        rewrite Hy, Hz. ring.
      - apply (Rmult_eq_reg_l m); [| exact Hm].
        replace (m * (uy * vz - uz * vy))%R
          with (uy * (l * uz + m * vz) - uz * (l * uy + m * vy))%R by ring.
        rewrite Hy, Hz. ring. }
    assert (HY : (uz * vx - ux * vz = 0)%R).
    { destruct Hlm as [Hl | Hm].
      - apply (Rmult_eq_reg_l l); [| exact Hl].
        replace (l * (uz * vx - ux * vz))%R
          with ((l * uz + m * vz) * vx - (l * ux + m * vx) * vz)%R by ring.
        rewrite Hx, Hz. ring.
      - apply (Rmult_eq_reg_l m); [| exact Hm].
        replace (m * (uz * vx - ux * vz))%R
          with (uz * (l * ux + m * vx) - ux * (l * uz + m * vz))%R by ring.
        rewrite Hx, Hz. ring. }
    assert (HZ : (ux * vy - uy * vx = 0)%R).
    { destruct Hlm as [Hl | Hm].
      - apply (Rmult_eq_reg_l l); [| exact Hl].
        replace (l * (ux * vy - uy * vx))%R
          with ((l * ux + m * vx) * vy - (l * uy + m * vy) * vx)%R by ring.
        rewrite Hx, Hy. ring.
      - apply (Rmult_eq_reg_l m); [| exact Hm].
        replace (m * (ux * vy - uy * vx))%R
          with (ux * (l * uy + m * vy) - uy * (l * ux + m * vx))%R by ring.
        rewrite Hx, Hy. ring. }
    now rewrite HX, HY, HZ.
  - intro Hc. injection Hc as HX HY HZ.
    destruct (Req_dec_T ux 0) as [Hux | Hux];
      [destruct (Req_dec_T vx 0) as [Hvx | Hvx] |].
    + destruct (Req_dec_T uy 0) as [Huy | Huy];
        [destruct (Req_dec_T vy 0) as [Hvy | Hvy] |].
      * destruct (Req_dec_T uz 0) as [Huz | Huz].
        -- exists 1%R, 0%R. repeat split; [left; lra | lra ..].
        -- exists vz, (- uz)%R. repeat split; [right; lra | nra ..].
      * exists vy, (- uy)%R. repeat split; [left; exact Hvy | nra ..].
      * exists vy, (- uy)%R. repeat split; [right; lra | nra ..].
    + exists vx, (- ux)%R. repeat split; [left; exact Hvx | nra ..].
    + exists vx, (- ux)%R. repeat split; [right; lra | nra ..].
Qed.

Lemma edgeCross_converted (t : Triangle R) (unit : STLUnit) :
  edgeCross (mkTriangle (convertPoint (a t) unit) (convertPoint (b t) unit)
                        (convertPoint (c t) unit))
  = let '(X, Y, Z) := edgeCross t in
    let s := conversions (num := R) unit in
    (s * s * X, s * s * Y, s * s * Z)%R.
Proof.
  destruct t as [[[ax ay] az] [[bx by_] bz] [[cx cy] cz]].
  unfold edgeCross, convertPoint, toMillimeters; cbn [a b c nmul R_Arith].
  f_equal; [f_equal |]; ring.
Qed.

Lemma converted_area_zero (t : Triangle R) (unit : STLUnit) :
  calculateTriangleArea
    (mkTriangle (convertPoint (a t) unit) (convertPoint (b t) unit)
                (convertPoint (c t) unit)) = 0%R
  <-> degenerate t.
Proof.
  rewrite calculateTriangleArea_zero, edgeCross_converted, degenerate_iff_cross.
  pose proof (conversions_pos unit) as Hs.
  destruct (edgeCross t) as [[X Y] Z]. cbv zeta.
  split.
  - intro Hc. injection Hc as HX HY HZ.
    assert (Hss : (conversions (num := R) unit * conversions unit <> 0)%R) by nra.
    apply Rmult_integral in HX, HY, HZ.
    destruct HX as [HX | ->]; [contradiction |].
    destruct HY as [HY | ->]; [contradiction |].
    destruct HZ as [HZ | ->]; [contradiction |].
    reflexivity.
  - intro Hc. injection Hc as -> -> ->. f_equal; [f_equal |]; ring.
Qed.

(** A sum of non-negative terms accumulated from a non-negative start. *)
Lemma fold_left_sum_nonneg {A} (f : A -> R) (l : list A) :
  (forall x, 0 <= f x)%R ->
  forall acc : R, (0 <= acc)%R ->
    (0 <= fold_left (fun total x => total + f x) l acc)%R
    /\ (fold_left (fun total x => total + f x) l acc = 0
        <-> acc = 0 /\ Forall (fun x => f x = 0) l)%R.
Proof.
  intros Hf. induction l as [| x l IH]; intros acc Hacc; cbn [fold_left].
  - split; [exact Hacc |]. split; [intro; split; [assumption | constructor] | tauto].
  - specialize (Hf x) as Hx.
    destruct (IH (acc + f x)%R ltac:(lra)) as [Hge Hiff].
    split; [exact Hge |]. rewrite Hiff. split.
    + intros [Hsum Hall]. split; [lra |]. constructor; [lra | exact Hall].
    + intros [Hzero Hall]. inversion Hall; subst. split; [lra | assumption].
Qed.

(** In exact arithmetic the area is non-negative, and zero exactly for
    lists of degenerate triangles. *)
Lemma calculateSurfaceArea_exact :
  forall (triangles : list (Triangle R)) (unit : STLUnit),
    (0 <= calculateSurfaceArea triangles unit)%R
    /\ (calculateSurfaceArea triangles unit = 0%R <-> Forall degenerate triangles).
Proof.
  intros triangles unit. unfold calculateSurfaceArea, mm2ToDm2.
  cbn [nadd ndiv R_Arith]. rewrite !R_ofZ.
  set (area := fun t : Triangle R =>
                 calculateTriangleArea
                   (mkTriangle (convertPoint (a t) unit) (convertPoint (b t) unit)
                               (convertPoint (c t) unit))).
  destruct (fold_left_sum_nonneg area triangles
              (fun t => calculateTriangleArea_nonneg _) 0%R (Rle_refl 0))
    as [Hge Hiff].
  set (total := fold_left (fun total t => (total + area t)%R) triangles 0%R) in *.
  change ((0 <= total / 10000)%R
          /\ ((total / 10000)%R = 0%R <-> Forall degenerate triangles)).
  split; [lra |].
  assert (Hz : (total / 10000 = 0 <-> total = 0)%R) by (split; intro; lra).
  rewrite Hz, Hiff. split.
  - intros [_ Hall]. revert Hall. apply Forall_impl. intros t Ht.
    now apply (converted_area_zero t unit).
  - intro Hall. split; [reflexivity |]. revert Hall. apply Forall_impl. intros t Ht.
    now apply (converted_area_zero t unit).
Qed.

(** *** The sign of the area in binary64 *)

Lemma binary_round_aux_notNegative (mx ex : Z) (lx : location) :
  notNegative (binary_round_aux prec emax false mx ex lx) = true.
Proof.
  unfold binary_round_aux.
  destruct (shr_fexp prec emax mx ex lx) as [mrs1 e1].
  destruct (shr_fexp prec emax _ e1 loc_Exact) as [mrs2 e2].
  destruct (shr_m mrs2); [reflexivity | | reflexivity].
  now destruct (Z.leb e2 (Z.sub emax prec)).
Qed.

Lemma SFsqrt_notNegative (x : spec_float) : notNegative (SF64sqrt x) = true.
Proof.
  destruct x as [s | [|] | | [|] m e]; try reflexivity.
  unfold SF64sqrt, SFsqrt. destruct (SFsqrt_core_binary prec emax (Zpos m) e) as [[mz ez] lz].
  apply binary_round_aux_notNegative.
Qed.

Lemma SFmul_notNegative (x y : spec_float) :
  notNegative x = true -> notNegative y = true -> notNegative (SF64mul x y) = true.
Proof.
  destruct x as [sx | [|] | | [|] mx ex]; destruct y as [sy | [|] | | [|] my ey];
    cbn [notNegative negb]; try discriminate; intros _ _; try reflexivity.
  unfold SF64mul, SFmul. cbn [xorb]. apply binary_round_aux_notNegative.
Qed.

Lemma SFadd_notNegative (x y : spec_float) :
  notNegative x = true -> notNegative y = true -> notNegative (SF64add x y) = true.
Proof.
  destruct x as [[|] | [|] | | [|] mx ex]; destruct y as [[|] | [|] | | [|] my ey];
    cbn [notNegative negb]; try discriminate; intros _ _; try reflexivity.
  unfold SF64add, SFadd, cond_Zopp. cbn [Z.add binary_normalize]. unfold binary_round.
  destruct (shl_align _ _ _) as [mz ez]. apply binary_round_aux_notNegative.
Qed.

Lemma SFdiv_notNegative (x : spec_float) (my : positive) (ey : Z) :
  notNegative x = true -> notNegative (SF64div x (S754_finite false my ey)) = true.
Proof.
  destruct x as [sx | [|] | | [|] mx ex];
    cbn [notNegative negb]; try discriminate; intros _; try reflexivity.
  unfold SF64div, SFdiv. cbn [xorb].
  destruct (SFdiv_core_binary prec emax (Zpos mx) ex (Zpos my) ey) as [[mz ez] lz].
  apply binary_round_aux_notNegative.
Qed.

Lemma notNegative_not_below_zero (x : float) :
  notNegative (Prim2SF x) = true -> PrimFloat.ltb x (ofZ 0) = false.
Proof.
  intro Hx. rewrite ltb_spec.
  change (Prim2SF (ofZ 0)) with (S754_zero false).
  destruct (Prim2SF x) as [s | [|] | | [|] m e]; try reflexivity; discriminate Hx.
Qed.

Lemma calculateTriangleArea_notNegative (t : Triangle float) :
  notNegative (Prim2SF (calculateTriangleArea t)) = true.
Proof.
  destruct t as [[[ax ay] az] [[bx by_] bz] [[cx cy] cz]].
  unfold calculateTriangleArea; cbn [a b c nmul nsqrt b64_Arith].
  rewrite mul_spec, sqrt_spec.
  apply SFmul_notNegative; [vm_compute; reflexivity | apply SFsqrt_notNegative].
Qed.

Lemma calculateSurfaceArea_notNegative (triangles : list (Triangle float)) (unit : STLUnit) :
  notNegative (Prim2SF (calculateSurfaceArea triangles unit)) = true.
Proof.
  unfold calculateSurfaceArea, mm2ToDm2; cbn [ndiv nadd b64_Arith].
  rewrite div_spec.
  change (Prim2SF (ofZ 10000)) with (S754_finite false 5497558138880000 (-39)).
  apply SFdiv_notNegative.
  assert (Hstart : notNegative (Prim2SF (ofZ 0)) = true) by (vm_compute; reflexivity).
  revert Hstart. generalize (ofZ (num := float) 0).
  induction triangles as [| t rest IH]; intros acc Hacc; cbn [fold_left]; [exact Hacc |].
  apply IH. rewrite add_spec.
  apply SFadd_notNegative; [exact Hacc | apply calculateTriangleArea_notNegative].
Qed.

(** C5, amended.  [calculateSurfaceArea] is a function of the list and the
    unit.  In exact arithmetic, for every list of triangles and every length
    unit, its value is non-negative, and it is zero exactly when every
    triangle of the list is degenerate, which includes the empty list.  In
    binary64 its value is never below zero (it is NaN, a zero or positive),
    and it is zero for the empty list. *)
Theorem calculateSurfaceArea_nonneg_zero_iff_degenerate :
  (forall (triangles : list (Triangle R)) (unit : STLUnit),
      (0 <= calculateSurfaceArea triangles unit)%R
      /\ (calculateSurfaceArea triangles unit = 0%R <-> Forall degenerate triangles))
  /\ (forall (triangles : list (Triangle float)) (unit : STLUnit),
         PrimFloat.ltb (calculateSurfaceArea triangles unit) (ofZ 0) = false)
  /\ (forall unit : STLUnit,
         calculateSurfaceArea (num := float) [] unit = ofZ 0).
Proof.
  split; [exact calculateSurfaceArea_exact |]. split.
  - intros triangles unit.
    apply notNegative_not_below_zero, calculateSurfaceArea_notNegative.
  - intro unit. vm_compute. reflexivity.
Qed.

(** C5, as stated, fails in binary64.  The vertices (0,0,0), (3,1,0) and
    (9,3,0) are collinear, so the triangle is degenerate; given in inches,
    the three conversions by 25.4 round differently and the area computed
    is a small positive number, not zero. *)
Lemma calculateSurfaceArea_collinear_inch_counterexample :
  degenerate (collinearTriangle (num := R))
  /\ calculateSurfaceArea [collinearTriangle (num := float)] inch <> ofZ 0
  /\ PrimFloat.ltb (ofZ 0) (calculateSurfaceArea [collinearTriangle (num := float)] inch) = true.
Proof.
  split; [| split].
  - unfold degenerate, collinearTriangle; cbn [a b c]. rewrite !R_ofZ.
    exists 3%R, (-1)%R. split; [left; lra |]. repeat split; lra.
  - intro Heq.
    assert (E : PrimFloat.eqb (calculateSurfaceArea [collinearTriangle (num := float)] inch)
                              (ofZ 0) = false) by (vm_compute; reflexivity).
    rewrite Heq in E. vm_compute in E. discriminate E.
  - vm_compute. reflexivity.
Qed.

(** ** Literals in exact arithmetic with NaN *)

Lemma xreal_ofZ (z : Z) : ofZ (num := xreal) z = XFin (IZR z).
Proof.
  unfold ofZ; cbn. f_equal. rewrite IZR_abs_N, Rdiv_1_r.
  destruct (Z.ltb_spec z 0) as [Hneg | Hpos].
  - apply IZR_lt in Hneg. rewrite Rabs_left by exact Hneg. lra.
  - apply IZR_le in Hpos. now rewrite Rabs_right by lra.
Qed.

Lemma xreal_tenths (m : N) :
  ofDecimal (num := xreal) false m (-1) = XFin (IZR (Z.of_N m) / 10).
Proof. reflexivity. Qed.

Lemma xreal_ofN (n : N) :
  ofDecimal (num := xreal) false n 0 = XFin (IZR (Z.of_N n)).
Proof. unfold ofDecimal; cbn. f_equal. apply Rdiv_1_r. Qed.

(** ** Unit conversion *)

Lemma unitOfKey_keyOfUnit (unit : STLUnit) : unitOfKey (keyOfUnit unit) = Some unit.
Proof. now destruct unit. Qed.

Lemma unitOfKey_other (key : string) :
  key <> "mm" -> key <> "cm" -> key <> "inch" -> unitOfKey key = None.
Proof.
  intros Hmm Hcm Hinch. unfold unitOfKey.
  destruct (String.eqb_spec key "mm"); [contradiction |].
  destruct (String.eqb_spec key "cm"); [contradiction |].
  destruct (String.eqb_spec key "inch"); [contradiction |].
  reflexivity.
Qed.

(** C6, amended.  In exact arithmetic [toMillimeters] multiplies the value
    by the factor of its unit: 1 for mm, 10 for cm, 25.4 for inch.  These
    are all the units of [STLUnit], and on them the function as it runs
    after type erasure agrees with the typed one.  There is no fallback:
    run on a key that the table does not have, it returns NaN. *)
Theorem toMillimeters_table_without_fallback :
  forall v : R,
    toMillimeters v mm = (v * 1)%R
    /\ toMillimeters v cm = (v * 10)%R
    /\ toMillimeters v inch = (v * (254 / 10))%R
    /\ (forall unit : STLUnit,
           toMillimetersUntyped (XFin v) (keyOfUnit unit) = XFin (toMillimeters v unit))
    /\ (forall key : string,
           key <> "mm" -> key <> "cm" -> key <> "inch" ->
           toMillimetersUntyped (XFin v) key = XNaN).
Proof.
  intro v. unfold toMillimeters.
  split; [| split; [| split; [| split]]].
  - unfold conversions. rewrite R_ofZ. reflexivity.
  - unfold conversions. rewrite R_ofZ. reflexivity.
  - unfold conversions. rewrite R_tenths. reflexivity.
  - intro unit. unfold toMillimetersUntyped. rewrite unitOfKey_keyOfUnit.
    destruct unit; unfold conversions; rewrite ?xreal_ofZ, ?xreal_tenths, ?R_ofZ, ?R_tenths;
      reflexivity.
  - intros key Hmm Hcm Hinch. unfold toMillimetersUntyped.
    now rewrite (unitOfKey_other key Hmm Hcm Hinch).
Qed.

Lemma toMillimeters_table_without_fallback_witness :
  toMillimeters 2%R inch = (2 * (254 / 10))%R
  /\ toMillimetersUntyped (XFin 2) "foot" = XNaN.
Proof.
  destruct (toMillimeters_table_without_fallback 2%R) as (_ & _ & Hinch & _ & Hother).
  split; [exact Hinch |].
  apply Hother; discriminate.
Defined.

(** C6, as stated, fails: on the unit [foot], which the table does not
    have, [toMillimeters] run in binary64 does not return the value times 1;
    it returns NaN. *)
Lemma toMillimeters_unknown_unit_counterexample :
  toMillimetersUntyped (ofZ 1 : float) "foot" <> nmul (ofZ 1) (ofZ 1)
  /\ isNaN (toMillimetersUntyped (ofZ 1 : float) "foot") = true.
Proof.
  split; [| reflexivity].
  intro Heq.
  assert (E : is_nan (toMillimetersUntyped (ofZ 1 : float) "foot") = true) by reflexivity.
  rewrite Heq in E. vm_compute in E. discriminate E.
Qed.

(** ** Characters and numerals *)

Ltac by_bits ch :=
  destruct ch as [[] [] [] [] [] [] [] []]; cbn; try reflexivity; try discriminate.

Lemma digit_not_white ch : JS.isDigit ch = true -> JS.isWhiteSpace ch = false.
Proof. by_bits ch. Qed.

Lemma digit_not_colon ch : JS.isDigit ch = true -> Ascii.eqb ch ":" = false.
Proof. by_bits ch. Qed.

Lemma digit_no_sign ch r :
  JS.isDigit ch = true -> JS.scanSign (String ch r) = (false, String ch r).
Proof. by_bits ch. Qed.

Lemma digit_not_Infinity ch r :
  JS.isDigit ch = true -> JS.startsWith (String ch r) "Infinity" = false.
Proof. by_bits ch. Qed.

Lemma digit_not_radix_mark ch :
  JS.isDigit ch = true ->
  (Ascii.eqb ch "x" || Ascii.eqb ch "X" = false)
  /\ (Ascii.eqb ch "o" || Ascii.eqb ch "O" = false)
  /\ (Ascii.eqb ch "b" || Ascii.eqb ch "B" = false).
Proof. by_bits ch; intros _; repeat split. Qed.

Lemma digits_no_radix s :
  JS.all JS.isDigit s = true -> JS.radixOfPrefix s = None.
Proof.
  destruct s as [| c0 [| c1 r]]; [reflexivity | by_bits c0 |].
  cbn [JS.all]. intros Hall.
  apply andb_prop in Hall as [_ Hall]. apply andb_prop in Hall as [H1 _].
  destruct (digit_not_radix_mark c1 H1) as (Hx & Ho & Hb).
  by_bits c0. now rewrite Hx, Ho, Hb.
Qed.

Lemma trimEnd_digits s : JS.all JS.isDigit s = true -> JS.trimEnd s = s.
Proof.
  induction s as [| ch r IH]; [reflexivity |].
  cbn [JS.all JS.trimEnd]. intros Hall. apply andb_prop in Hall as [Hc Hr].
  rewrite (IH Hr). destruct r; [| reflexivity].
  now rewrite (digit_not_white ch Hc).
Qed.

Lemma trim_digits s : JS.all JS.isDigit s = true -> JS.trim s = s.
Proof.
  intros Hall. unfold JS.trim.
  replace (JS.trimStart s) with s; [now apply trimEnd_digits |].
  destruct s as [| ch r]; [reflexivity |]. cbn [JS.all JS.trimStart] in *.
  apply andb_prop in Hall as [Hc _]. now rewrite (digit_not_white ch Hc).
Qed.

Lemma all_app p s1 s2 :
  JS.all p (s1 ++ s2) = JS.all p s1 && JS.all p s2.
Proof.
  induction s1 as [| ch r IH]; [reflexivity |].
  cbn [append JS.all]. now rewrite IH, andb_assoc.
Qed.

Lemma digits_string_of_uint d : JS.all JS.isDigit (NilEmpty.string_of_uint d) = true.
Proof. induction d; cbn [NilEmpty.string_of_uint JS.all]; try rewrite IHd; reflexivity. Qed.

Lemma scanDigits_string_of_uint d :
  JS.scanDigits (NilEmpty.string_of_uint d) = (d, "").
Proof.
  induction d; cbn [NilEmpty.string_of_uint JS.scanDigits]; try reflexivity;
    change (JS.isDigit _) with true; cbv iota; rewrite IHd; reflexivity.
Qed.

Lemma scanDigits_zeros zeros s :
  JS.scanDigits (JS.repeatChar "0" zeros ++ s)
  = (Nat.iter zeros D0 (fst (JS.scanDigits s)), snd (JS.scanDigits s)).
Proof.
  induction zeros as [| k IH]; cbn [JS.repeatChar append Nat.iter].
  - now destruct (JS.scanDigits s).
  - cbn [JS.scanDigits]. change (JS.isDigit "0") with true. cbv iota.
    now rewrite IH.
Qed.

Lemma to_uint_not_nil n : N.to_uint n <> Nil.
Proof.
  intro Hnil. pose proof (DecimalN.Unsigned.to_of (N.to_uint n)) as Hto.
  rewrite DecimalN.Unsigned.of_to in Hto.
  apply (DecimalFacts.unorm_nonnil (N.to_uint n)). now rewrite <- Hto.
Qed.

Lemma printZ_of_N n : printZ (Z.of_N n) = NilEmpty.string_of_uint (N.to_uint n).
Proof.
  unfold printZ. pose proof (to_uint_not_nil n) as Hnil.
  destruct n as [| p]; [reflexivity |].
  cbn [Z.of_N]. rewrite Z2N.inj_pos. unfold NilZero.string_of_uint.
  now destruct (N.to_uint (N.pos p)).
Qed.

Lemma numeral_digits zeros n : JS.all JS.isDigit (numeral zeros n) = true.
Proof.
  unfold numeral. rewrite all_app, printZ_of_N, digits_string_of_uint, andb_true_r.
  induction zeros as [| k IH]; [reflexivity | exact IH].
Qed.

Lemma numeral_not_empty zeros n : numeral zeros n <> "".
Proof.
  unfold numeral. rewrite printZ_of_N. pose proof (to_uint_not_nil n) as Hnil.
  destruct zeros; cbn; [| discriminate].
  destruct (N.to_uint n); cbn; congruence.
Qed.

Lemma scanDigits_numeral zeros n :
  JS.scanDigits (numeral zeros n) = (Nat.iter zeros D0 (N.to_uint n), "").
Proof.
  unfold numeral. now rewrite scanDigits_zeros, printZ_of_N, scanDigits_string_of_uint.
Qed.

Lemma of_uint_zeros zeros n : N.of_uint (Nat.iter zeros D0 (N.to_uint n)) = n.
Proof.
  rewrite <- (DecimalN.Unsigned.of_to n) at 2.
  apply DecimalN.Unsigned.of_iff, DecimalFacts.unorm_iter_D0.
Qed.

Lemma digitOf_not_nil ch d : JS.digitOf ch d <> Nil.
Proof.
  unfold JS.digitOf.
  repeat match goal with
         | |- context [match ?x with _ => _ end] => destruct x
         end; discriminate.
Qed.

(** What [Number] reads in a string of decimal digits. *)
Lemma numberLiteral_digits s :
  s <> "" -> JS.all JS.isDigit s = true ->
  JS.numberLiteral s = JS.LDecimal false (N.of_uint (fst (JS.scanDigits s))) 0.
Proof.
  intros Hne Hall. unfold JS.numberLiteral.
  rewrite (trim_digits s Hall), (digits_no_radix s Hall).
  destruct s as [| ch r]; [contradiction |].
  assert (Hc : JS.isDigit ch = true) by (cbn in Hall; now apply andb_prop in Hall).
  unfold JS.scanDecimalLiteral.
  rewrite (digit_no_sign ch r Hc), (digit_not_Infinity ch r Hc).
  assert (Hscan : exists d, JS.scanDigits (String ch r) = (d, "") /\ d <> Nil).
  { clear Hne. revert ch Hall Hc. induction r as [| c2 r2 IH]; intros ch Hall Hc.
    - cbn [JS.scanDigits]. rewrite Hc. eexists; split; [reflexivity |].
      apply digitOf_not_nil.
    - cbn [JS.all] in Hall. apply andb_prop in Hall as [_ Hall].
      assert (Hc2 : JS.isDigit c2 = true) by (cbn in Hall; now apply andb_prop in Hall).
      destruct (IH c2 Hall Hc2) as (d & Hd & _).
      cbn [JS.scanDigits] in *. rewrite Hc. rewrite Hc2 in Hd. rewrite Hc2.
      destruct (JS.scanDigits r2) as [d2 rest2]. injection Hd as Hd1 Hd2. subst rest2.
      eexists; split; [reflexivity |]. apply digitOf_not_nil. }
  destruct Hscan as (d & Hd & Hnil). rewrite Hd. cbn [fst].
  destruct d; [contradiction | ..]; cbn [JS.scanExponent Decimal.nb_digits Z.of_nat Z.sub];
    rewrite DecimalFacts.app_nil_r; reflexivity.
Qed.

Lemma numberLiteral_numeral zeros n :
  JS.numberLiteral (numeral zeros n) = JS.LDecimal false n 0.
Proof.
  rewrite (numberLiteral_digits _ (numeral_not_empty zeros n) (numeral_digits zeros n)).
  rewrite scanDigits_numeral. cbn [fst]. now rewrite of_uint_zeros.
Qed.

(** ** Splitting at a separator *)

Lemma split_without_separator sep p :
  JS.includesChar p sep = false -> JS.split sep p = [p].
Proof.
  induction p as [| ch r IH]; [reflexivity |].
  cbn [JS.includesChar JS.split]. intros Hinc. apply orb_false_elim in Hinc as [Hc Hr].
  now rewrite Hc, (IH Hr).
Qed.

Lemma split_at_separator sep p rest :
  JS.includesChar p sep = false ->
  JS.split sep (p ++ String sep rest) = p :: JS.split sep rest.
Proof.
  induction p as [| ch r IH]; cbn [append JS.includesChar JS.split].
  - intros _. now rewrite Ascii.eqb_refl.
  - intros Hinc. apply orb_false_elim in Hinc as [Hc Hr]. now rewrite Hc, (IH Hr).
Qed.

Lemma split_length sep s : List.length (JS.split sep s) = S (countChar sep s).
Proof.
  induction s as [| ch r IH]; [reflexivity |].
  cbn [JS.split countChar]. destruct (Ascii.eqb ch sep).
  - cbn [List.length]. now rewrite IH.
  - destruct (JS.split sep r) as [| p ps]; [discriminate IH |]. exact IH.
Qed.

Lemma digits_without_colon s :
  JS.all JS.isDigit s = true -> JS.includesChar s ":" = false.
Proof.
  induction s as [| ch r IH]; [reflexivity |].
  cbn [JS.all JS.includesChar]. intros Hall. apply andb_prop in Hall as [Hc Hr].
  now rewrite (digit_not_colon ch Hc), (IH Hr).
Qed.

Lemma numeral_without_colon zeros n : JS.includesChar (numeral zeros n) ":" = false.
Proof. apply digits_without_colon, numeral_digits. Qed.

(** ** Exact arithmetic on integers *)

Lemma Rsign_pos r : (0 < r)%R -> Rsign r = Gt.
Proof.
  intro Hr. unfold Rsign. destruct (total_order_T r 0) as [[Hlt | Heq] | Hgt];
    [lra | lra | reflexivity].
Qed.

Lemma Rsign_zero : Rsign 0 = Eq.
Proof.
  unfold Rsign. destruct (total_order_T 0 0) as [[Hlt | Heq] | Hgt];
    [lra | reflexivity | lra].
Qed.

Lemma Rsign_nonneg r : (0 <= r)%R -> Rsign r <> Lt.
Proof.
  intro Hr. unfold Rsign. destruct (total_order_T r 0) as [[Hlt | Heq] | Hgt];
    [lra | discriminate | discriminate].
Qed.

Lemma Int_part_IZR z : Int_part (IZR z) = z.
Proof. symmetry. apply Int_part_spec. lra. Qed.

Lemma Int_part_quotient a b : (0 < b)%Z -> Int_part (IZR a / IZR b) = (a / b)%Z.
Proof.
  intro Hb. symmetry. apply Int_part_spec.
  pose proof (Z.div_mod a b ltac:(lia)) as Hdm.
  pose proof (Z.mod_pos_bound a b Hb) as [Hlo Hhi].
  assert (HbR : (0 < IZR b)%R) by now apply IZR_lt.
  assert (Ha : IZR a = (IZR b * IZR (a / b) + IZR (a mod b))%R).
  { rewrite <- mult_IZR, <- plus_IZR. now f_equal. }
  apply IZR_le in Hlo. apply IZR_lt in Hhi.
  assert (Hq : (IZR a / IZR b = IZR (a / b) + IZR (a mod b) / IZR b)%R).
  { rewrite Ha. field. lra. }
  rewrite Hq.
  assert (H0 : (0 <= IZR (a mod b) / IZR b)%R).
  { apply Rmult_le_pos; [exact Hlo |]. left. now apply Rinv_0_lt_compat. }
  assert (H1 : (IZR (a mod b) / IZR b < 1)%R).
  { apply (Rmult_lt_reg_r (IZR b)); [exact HbR |]. unfold Rdiv.
    rewrite Rmult_assoc, Rinv_l by lra. lra. }
  lra.
Qed.

Lemma xfloor_quotient a b :
  (0 < b)%Z ->
  xfloor (xdiv (XFin (IZR a)) (XFin (IZR b))) = XFin (IZR (a / b)).
Proof.
  intro Hb. unfold xdiv. rewrite (Rsign_pos (IZR b)) by now apply IZR_lt.
  cbn [xfloor]. now rewrite Int_part_quotient.
Qed.

Lemma xrem_integers a b :
  (0 <= a)%Z -> (0 < b)%Z ->
  xrem (XFin (IZR a)) (XFin (IZR b)) = XFin (IZR (a mod b)).
Proof.
  intros Ha Hb. unfold xrem. rewrite (Rsign_pos (IZR b)) by now apply IZR_lt.
  f_equal. unfold Rtrunc.
  assert (Hq : (0 <= IZR a / IZR b)%R).
  { apply Rmult_le_pos; [now apply IZR_le |]. left. apply Rinv_0_lt_compat. now apply IZR_lt. }
  pose proof (Rsign_nonneg _ Hq) as Hs.
  replace (match Rsign (IZR a / IZR b) with
           | Lt => (- Int_part (- (IZR a / IZR b)))%Z
           | _ => Int_part (IZR a / IZR b)
           end) with (Int_part (IZR a / IZR b))
    by (destruct (Rsign (IZR a / IZR b)); [reflexivity | contradiction | reflexivity]).
  rewrite (Int_part_quotient a b Hb), <- mult_IZR, <- minus_IZR. f_equal.
  pose proof (Z.div_mod a b ltac:(lia)). lia.
Qed.

Lemma xtoString_natural (printFraction : R -> string) (v : N) :
  xtoString printFraction (XFin (IZR (Z.of_N v))) = printWhole v.
Proof.
  unfold xtoString. rewrite Int_part_IZR.
  destruct (Req_dec_T (IZR (Z.of_N v)) (IZR (Z.of_N v))) as [_ | Hne]; [| contradiction].
  destruct (Z.ltb_spec (Z.of_N v) 0) as [Hneg | _]; [lia |].
  now rewrite Zabs2N.id.
Qed.

Lemma xadd_NaN_r x : xadd x XNaN = XNaN.
Proof. now destruct x. Qed.

Lemma xmul_NaN_r x : xmul x XNaN = XNaN.
Proof. now destruct x. Qed.

Lemma Number_numeral zeros n :
  Number (num := xreal) (numeral zeros n) = XFin (IZR (Z.of_N n)).
Proof. unfold Number. rewrite numberLiteral_numeral. apply xreal_ofN. Qed.

(** ** Decimal numerals *)

Section DecimalNumerals.
Local Open Scope N_scope.

Lemma length_append (s1 s2 : string) :
  String.length (s1 ++ s2) = (String.length s1 + String.length s2)%nat.
Proof. induction s1 as [| ch s1 IH]; cbn; [reflexivity | now rewrite IH]. Qed.

Lemma string_of_list_app (l1 l2 : list DecimalFacts.digits) :
  NilEmpty.string_of_uint (DecimalFacts.of_list (l1 ++ l2))
  = (NilEmpty.string_of_uint (DecimalFacts.of_list l1)
     ++ NilEmpty.string_of_uint (DecimalFacts.of_list l2))%string.
Proof.
  induction l1 as [| d l1 IH]; [reflexivity |].
  destruct d; cbn [List.app DecimalFacts.of_list NilEmpty.string_of_uint append];
    now rewrite IH.
Qed.

Lemma string_of_uint_app (x y : uint) :
  NilEmpty.string_of_uint (Decimal.app x y)
  = (NilEmpty.string_of_uint x ++ NilEmpty.string_of_uint y)%string.
Proof.
  rewrite <- (DecimalFacts.of_list_to_list (Decimal.app x y)), DecimalFacts.app_spec.
  now rewrite string_of_list_app, !DecimalFacts.of_list_to_list.
Qed.

Lemma of_uint_snoc (x y : uint) :
  Decimal.nb_digits y = 1%nat ->
  N.of_uint (Decimal.app x y) = 10 * N.of_uint x + N.of_uint y.
Proof.
  intro Hy. unfold N.of_uint.
  rewrite !DecimalPos.Unsigned.of_uint_alt.
  assert (Hrev : Decimal.rev (Decimal.app x y) = Decimal.app y (Decimal.rev x)).
  { apply DecimalFacts.to_list_inj.
    rewrite DecimalFacts.rev_spec, !DecimalFacts.app_spec, DecimalFacts.rev_spec.
    rewrite List.rev_app_distr. f_equal.
    rewrite DecimalFacts.nb_digits_spec in Hy.
    destruct (DecimalFacts.to_list y) as [| d [| d' l]]; try discriminate. reflexivity. }
  rewrite Hrev.
  destruct y as [| y | y | y | y | y | y | y | y | y | y]; try discriminate;
    destruct y; try discriminate;
    cbn [Decimal.app Decimal.rev Decimal.revapp DecimalPos.Unsigned.of_lu]; lia.
Qed.

Lemma to_uint_head (a : N) :
  0 < a ->
  exists d l, DecimalFacts.to_list (N.to_uint a) = d :: l /\ d <> DecimalFacts.d0.
Proof.
  intro Ha.
  pose proof (DecimalN.Unsigned.to_of (N.to_uint a)) as Hnorm.
  rewrite DecimalN.Unsigned.of_to in Hnorm.
  assert (Hlist : DecimalFacts.to_list (N.to_uint a)
                  = DecimalFacts.lunorm (DecimalFacts.to_list (N.to_uint a)))
    by (rewrite <- DecimalFacts.unorm_spec; now rewrite <- Hnorm).
  unfold DecimalFacts.lunorm in Hlist.
  destruct (DecimalFacts.lnzhead (DecimalFacts.to_list (N.to_uint a))) as [| d l] eqn:Hhead.
  - exfalso. assert (Hzero : N.to_uint a = Decimal.zero).
    { apply DecimalFacts.to_list_inj. exact Hlist. }
    pose proof (DecimalN.Unsigned.of_to a) as Hof. rewrite Hzero in Hof. cbn in Hof. lia.
  - exists d, l. split; [exact Hlist |]. intros ->.
    now apply (DecimalFacts.lnzhead_neq_d0_head _ _ Hhead).
Qed.

Lemma to_uint_snoc (a : N) (y : uint) :
  0 < a -> Decimal.nb_digits y = 1%nat ->
  N.to_uint (10 * a + N.of_uint y) = Decimal.app (N.to_uint a) y.
Proof.
  intros Ha Hy.
  rewrite <- (DecimalN.Unsigned.of_to a) at 1. rewrite <- of_uint_snoc by exact Hy.
  rewrite DecimalN.Unsigned.to_of.
  apply DecimalFacts.to_list_inj. rewrite DecimalFacts.unorm_spec, DecimalFacts.app_spec.
  destruct (to_uint_head a Ha) as (d & l & Hl & Hd). rewrite Hl.
  unfold DecimalFacts.lunorm. cbn [List.app].
  now rewrite (DecimalFacts.lnzhead_head_nd0 _ _ Hd).
Qed.

Lemma to_uint_digit (b : N) : b < 10 -> Decimal.nb_digits (N.to_uint b) = 1%nat.
Proof.
  intro Hb.
  assert (Hcases : b = 0 \/ b = 1 \/ b = 2 \/ b = 3 \/ b = 4 \/ b = 5 \/ b = 6 \/ b = 7
                   \/ b = 8 \/ b = 9) by lia.
  repeat destruct Hcases as [-> | Hcases]; try reflexivity. now subst b.
Qed.

Lemma string_of_uint_not_nil (d : uint) :
  d <> Nil -> NilZero.string_of_uint d = NilEmpty.string_of_uint d.
Proof. destruct d; [contradiction | reflexivity ..]. Qed.

(** The decimal numeral of [10 * a + b] is the numeral of [a] followed by
    the digit [b]. *)
Lemma decimalDigits_snoc (a b : N) :
  0 < a -> b < 10 ->
  decimalDigits (10 * a + b) = (decimalDigits a ++ decimalDigits b)%string.
Proof.
  intros Ha Hb. unfold decimalDigits.
  pose proof (to_uint_digit b Hb) as Hy.
  rewrite <- (DecimalN.Unsigned.of_to b) at 1.
  rewrite (to_uint_snoc a (N.to_uint b) Ha Hy).
  rewrite !string_of_uint_not_nil; try apply to_uint_not_nil.
  - apply string_of_uint_app.
  - intro Hnil. apply (f_equal DecimalFacts.to_list) in Hnil.
    rewrite DecimalFacts.app_spec in Hnil. cbn in Hnil.
    apply List.app_eq_nil in Hnil as [Hnil _].
    apply (to_uint_not_nil a). apply DecimalFacts.to_list_inj. exact Hnil.
Qed.

Lemma repeatChar_snoc (ch : ascii) (j : nat) :
  (JS.repeatChar ch j ++ String ch "")%string = JS.repeatChar ch (S j).
Proof. induction j as [| j IH]; [reflexivity |]. cbn [JS.repeatChar append] in *. now rewrite IH. Qed.

Lemma append_assoc (s1 s2 s3 : string) : ((s1 ++ s2) ++ s3 = s1 ++ (s2 ++ s3))%string.
Proof. induction s1 as [| ch s1 IH]; [reflexivity |]. cbn [append]. now rewrite IH. Qed.

Lemma pow10_positive (k : N) : 0 < 10 ^ k.
Proof. apply N.neq_0_lt_0. apply N.pow_nonzero. lia. Qed.

(** Trailing zeros. *)
Lemma decimalDigits_zeros (s : N) (j : nat) :
  0 < s ->
  decimalDigits (s * 10 ^ N.of_nat j) = (decimalDigits s ++ JS.repeatChar "0" j)%string.
Proof.
  intro Hs. induction j as [| j IH].
  - cbn [JS.repeatChar N.of_nat]. rewrite N.pow_0_r, N.mul_1_r.
    induction (decimalDigits s) as [| ch r IHr]; [reflexivity |]. cbn [append]. now rewrite <- IHr.
  - rewrite Nat2N.inj_succ, N.pow_succ_r'.
    replace (s * (10 * 10 ^ N.of_nat j)) with (10 * (s * 10 ^ N.of_nat j) + 0) by lia.
    rewrite decimalDigits_snoc; [| | lia].
    + rewrite IH. change (decimalDigits 0) with (String "0" "").
      now rewrite append_assoc, repeatChar_snoc.
    + apply N.mul_pos_pos; [exact Hs | apply pow10_positive].
Qed.

Lemma decimalDigits_digit (h : N) : h < 10 -> String.length (decimalDigits h) = 1%nat.
Proof.
  intro Hh.
  assert (Hcases : h = 0 \/ h = 1 \/ h = 2 \/ h = 3 \/ h = 4 \/ h = 5 \/ h = 6 \/ h = 7
                   \/ h = 8 \/ h = 9) by lia.
  repeat destruct Hcases as [-> | Hcases]; try reflexivity. now subst h.
Qed.

(** The number of digits. *)
Lemma decimalDigits_length (j : nat) (h : N) :
  h < 10 ^ N.of_nat (S j) -> (1 <= String.length (decimalDigits h) <= S j)%nat.
Proof.
  revert h. induction j as [| j IH]; intros h Hh.
  - change (10 ^ N.of_nat 1) with 10 in Hh. rewrite decimalDigits_digit by exact Hh. lia.
  - destruct (N.lt_ge_cases h 10) as [Hsmall | Hlarge].
    + rewrite decimalDigits_digit by exact Hsmall. lia.
    + rewrite (N.div_mod h 10) by lia.
      assert (Hq0 : 0 < h / 10) by (apply N.div_str_pos; lia).
      rewrite decimalDigits_snoc; [| exact Hq0 | apply N.mod_lt; lia].
      rewrite length_append, (decimalDigits_digit (h mod 10)) by (apply N.mod_lt; lia).
      assert (Hq : (1 <= String.length (decimalDigits (h / 10)) <= S j)%nat).
      { apply IH. apply N.Div0.div_lt_upper_bound.
        rewrite Nat2N.inj_succ, N.pow_succ_r' in Hh. exact Hh. }
      lia.
Qed.

Lemma decimalDigits_printZ (v : N) : decimalDigits v = printZ (Z.of_N v).
Proof.
  rewrite printZ_of_N. unfold decimalDigits.
  apply string_of_uint_not_nil, to_uint_not_nil.
Qed.
End DecimalNumerals.

(** ** Binary64 arithmetic on whole numbers

    The operations of binary64 are those of [SpecFloat]; on whole numbers
    below [2^53] they are followed through its rounding. *)

Section Binary64Whole.
Local Open Scope Z_scope.

Lemma digits2_pos_size (p : positive) : digits2_pos p = Pos.size p.
Proof. induction p as [p IH | p IH |]; cbn; congruence. Qed.

Lemma Zdigits2_log2 (z : Z) : 0 < z -> Zdigits2 z = Z.log2 z + 1.
Proof.
  destruct z as [| p | p]; try lia. intros _. cbn [Zdigits2].
  rewrite digits2_pos_size. destruct p; cbn; lia.
Qed.

Lemma iter_pos_iter {A} (f : A -> A) (p : positive) (x : A) :
  iter_pos f p x = Pos.iter f x p.
Proof.
  revert x. induction p as [p IH | p IH |]; intro x; cbn [iter_pos Pos.iter].
  - now rewrite !IH, !Pos.iter_swap.
  - now rewrite !IH.
  - reflexivity.
Qed.

Lemma shr_1_even (m : Z) :
  0 < m -> shr_1 (Build_shr_record (2 * m) false false) = Build_shr_record m false false.
Proof. destruct m; try lia. reflexivity. Qed.

Lemma iter_pos_shr_exact (p : positive) (m : Z) :
  0 < m ->
  iter_pos shr_1 p (Build_shr_record (m * 2 ^ Zpos p) false false)
  = Build_shr_record m false false.
Proof.
  intro Hm. rewrite iter_pos_iter. revert m Hm.
  induction p as [| p IH] using Pos.peano_ind; intros m Hm.
  - cbn [Pos.iter]. replace (m * 2 ^ 1) with (2 * m) by lia. now apply shr_1_even.
  - rewrite Pos.iter_succ, <- Pos.iter_swap.
    replace (m * 2 ^ Zpos (Pos.succ p)) with (2 * (m * 2 ^ Zpos p))
      by (rewrite Pos2Z.inj_succ, Z.pow_succ_r by lia; lia).
    rewrite shr_1_even by (apply Z.mul_pos_pos; [lia | apply Z.pow_pos_nonneg; lia]).
    now apply IH.
Qed.

Lemma shr_fexp_unfold (m e : Z) (l : location) :
  shr_fexp prec emax m e l
  = shr (shr_record_of_loc m l) e (Z.max (Zdigits2 m + e - 53) (-1074) - e).
Proof. reflexivity. Qed.

Lemma shr_fexp_exact (m j e : Z) :
  2 ^ 52 <= m < 2 ^ 53 -> 0 <= j -> -1074 <= e + j ->
  shr_fexp prec emax (m * 2 ^ j) e loc_Exact = (Build_shr_record m false false, e + j).
Proof.
  intros Hm Hj He. rewrite shr_fexp_unfold.
  assert (Hm0 : 0 < m) by lia.
  assert (Hlog : Z.log2 m = 52) by (apply Z.log2_unique; [lia | exact Hm]).
  rewrite Zdigits2_log2 by (apply Z.mul_pos_pos; [lia | apply Z.pow_pos_nonneg; lia]).
  rewrite Z.log2_mul_pow2, Hlog by lia.
  replace (Z.max (j + 52 + 1 + e - 53) (-1074) - e) with j by lia.
  destruct j as [| p | p]; [| | lia].
  - cbn [shr shr_record_of_loc]. now rewrite Z.mul_1_r, Z.add_0_r.
  - cbn [shr shr_record_of_loc]. now rewrite iter_pos_shr_exact.
Qed.

Lemma binary_round_aux_unfold (s : bool) (m e : Z) (l : location) :
  binary_round_aux prec emax s m e l
  = let '(mrs', e') := shr_fexp prec emax m e l in
    let '(mrs'', e'') :=
      shr_fexp prec emax (round_nearest_even (shr_m mrs') (loc_of_shr_record mrs'))
        e' loc_Exact in
    match shr_m mrs'' with
    | Z0 => S754_zero s
    | Zpos m => if (e'' <=? 971) then S754_finite s m e'' else S754_infinity s
    | _ => S754_nan
    end.
Proof. reflexivity. Qed.

Lemma binary_round_aux_exact (s : bool) (m j e : Z) :
  2 ^ 52 <= m < 2 ^ 53 -> 0 <= j -> -1074 <= e + j <= 971 ->
  binary_round_aux prec emax s (m * 2 ^ j) e loc_Exact
  = S754_finite s (Z.to_pos m) (e + j).
Proof.
  intros Hm Hj He. rewrite binary_round_aux_unfold.
  rewrite shr_fexp_exact by lia. cbn [shr_m loc_of_shr_record round_nearest_even].
  pose proof (shr_fexp_exact m 0 (e + j) Hm ltac:(lia) ltac:(lia)) as Hagain.
  rewrite Z.mul_1_r, Z.add_0_r in Hagain. rewrite Hagain. cbn [shr_m].
  destruct m as [| p | p]; try lia.
  destruct (Z.leb_spec (e + j) 971) as [_ | Hgt]; [reflexivity | lia].
Qed.

Lemma mantissa_bounds (z : Z) :
  0 < z -> Z.log2 z <= 52 -> 2 ^ 52 <= z * 2 ^ (52 - Z.log2 z) < 2 ^ 53.
Proof.
  intros Hz Hlog. destruct (Z.log2_spec z Hz) as [Hlo Hhi].
  pose proof (Z.log2_nonneg z) as Hnn.
  assert (Hp : 0 < 2 ^ (52 - Z.log2 z)) by (apply Z.pow_pos_nonneg; lia).
  replace (2 ^ 52) with (2 ^ Z.log2 z * 2 ^ (52 - Z.log2 z))
    by (rewrite <- Z.pow_add_r by lia; f_equal; lia).
  replace (2 ^ 53) with (2 ^ Z.succ (Z.log2 z) * 2 ^ (52 - Z.log2 z))
    by (rewrite <- Z.pow_add_r by lia; f_equal; lia).
  split; [apply Z.mul_le_mono_nonneg_r | apply Z.mul_lt_mono_pos_r]; lia.
Qed.

Lemma log2_below (z : Z) : 0 < z < 2 ^ 53 -> 0 <= Z.log2 z <= 52.
Proof.
  intros [Hz Hlt]. split; [apply Z.log2_nonneg |].
  apply Z.log2_lt_pow2 in Hlt; lia.
Qed.

Lemma valid_binary_unfold (s : bool) (m : positive) (e : Z) :
  valid_binary (S754_finite s m e)
  = (Z.max (Zdigits2 (Zpos m) + e - 53) (-1074) =? e) && (e <=? 971).
Proof. reflexivity. Qed.

Lemma valid_pattern (z : Z) : 0 < z < 2 ^ 53 -> valid_binary (b64_pattern z) = true.
Proof.
  intro Hz. pose proof (log2_below z Hz) as Hlog.
  pose proof (mantissa_bounds z ltac:(lia) ltac:(lia)) as Hm.
  unfold b64_pattern. rewrite valid_binary_unfold.
  rewrite Z2Pos.id by lia. rewrite Zdigits2_log2 by lia.
  replace (Z.log2 (z * 2 ^ (52 - Z.log2 z))) with 52
    by (symmetry; apply Z.log2_unique; [lia | exact Hm]).
  apply andb_true_intro. split; [apply Z.eqb_eq | apply Z.leb_le]; lia.
Qed.

Lemma shl_align_fst (m : positive) (e e' : Z) :
  e' <= e -> Zpos (fst (shl_align m e e')) = Zpos m * 2 ^ (e - e').
Proof.
  intro Hle. unfold shl_align.
  change (IntDef.Z.sub e' e) with (e' - e).
  destruct (e' - e) as [| d | d] eqn:Hd; cbn [fst]; try lia.
  - replace (e - e') with 0 by lia. lia.
  - replace (e - e') with (Zpos d) by lia.
    change (PosDef.Pos.iter xO m d) with (Pos.iter xO m d).
    clear Hd Hle. induction d as [| d IH] using Pos.peano_ind.
    + cbn [Pos.iter]. lia.
    + rewrite Pos.iter_succ, Pos2Z.inj_succ, Z.pow_succ_r by lia.
      rewrite Pos2Z.inj_xO, IH. lia.
Qed.

Lemma shl_align_snd (m : positive) (e e' : Z) :
  snd (shl_align m e e') = Z.min e e'.
Proof.
  unfold shl_align. change (IntDef.Z.sub e' e) with (e' - e).
  destruct (e' - e) as [| d | d] eqn:Hd; cbn [snd]; lia.
Qed.

Lemma binary_round_unfold (s : bool) (m : positive) (e : Z) :
  binary_round prec emax s m e
  = let '(mz, ez) := shl_align m e (Z.max (Zdigits2 (Zpos m) + e - 53) (-1074)) in
    binary_round_aux prec emax s (Zpos mz) ez loc_Exact.
Proof. reflexivity. Qed.

(** Rounding the whole number [z = m * 2^e] leaves it as it is. *)
Lemma binary_round_exact (s : bool) (m : positive) (e z : Z) :
  0 < z < 2 ^ 53 -> -1000 <= e <= 0 -> Zpos m = z * 2 ^ (- e) ->
  binary_round prec emax s m e
  = S754_finite s (Z.to_pos (z * 2 ^ (52 - Z.log2 z))) (Z.log2 z - 52).
Proof.
  intros Hz He Hm. pose proof (log2_below z Hz) as Hlog.
  pose proof (mantissa_bounds z ltac:(lia) ltac:(lia)) as Hmant.
  rewrite binary_round_unfold.
  rewrite Zdigits2_log2 by lia. rewrite Hm, Z.log2_mul_pow2 by lia.
  replace (Z.max (- e + Z.log2 z + 1 + e - 53) (-1074)) with (Z.log2 z - 52) by lia.
  destruct (shl_align m e (Z.log2 z - 52)) as [mz ez] eqn:Hal.
  assert (Hez : ez = Z.min e (Z.log2 z - 52))
    by (rewrite <- shl_align_snd with (m := m); now rewrite Hal).
  destruct (Z_le_gt_dec (Z.log2 z - 52) e) as [Hle | Hgt].
  - assert (Hmz : Zpos mz = z * 2 ^ (52 - Z.log2 z)).
    { pose proof (shl_align_fst m e (Z.log2 z - 52) Hle) as Hf. rewrite Hal in Hf.
      cbn [fst] in Hf. rewrite Hf, Hm, <- Z.mul_assoc, <- Z.pow_add_r by lia.
      do 2 f_equal. lia. }
    rewrite Hmz.
    replace (z * 2 ^ (52 - Z.log2 z)) with (z * 2 ^ (52 - Z.log2 z) * 2 ^ 0) at 1 by lia.
    rewrite binary_round_aux_exact by lia. f_equal. lia.
  - assert (Hmz : mz = m).
    { unfold shl_align in Hal. change (IntDef.Z.sub (Z.log2 z - 52) e) with (Z.log2 z - 52 - e) in Hal.
      destruct (Z.log2 z - 52 - e) eqn:Hd; try lia; now inversion Hal. }
    subst mz. rewrite Hm.
    replace (z * 2 ^ (- e)) with (z * 2 ^ (52 - Z.log2 z) * 2 ^ (Z.log2 z - 52 - e))
      by (rewrite <- Z.mul_assoc, <- Z.pow_add_r by lia; do 2 f_equal; lia).
    rewrite binary_round_aux_exact by lia. f_equal. lia.
Qed.

Lemma div_eucl_div_mod (a b : Z) : Z.div_eucl a b = (a / b, a mod b).
Proof. unfold Z.div, Z.modulo. now destruct (Z.div_eucl a b). Qed.

Lemma SFdiv_unfold (mx my : positive) (ex ey : Z) :
  let e' := Z.min (Z.max (Zdigits2 (Zpos mx) + ex - (Zdigits2 (Zpos my) + ey) - 53) (-1074))
                  (ex - ey) in
  0 < ex - ey - e' ->
  SFdiv prec emax (S754_finite false mx ex) (S754_finite false my ey)
  = binary_round_aux prec emax false
      (Zpos mx * 2 ^ (ex - ey - e') / Zpos my) e'
      (new_location (Zpos my) ((Zpos mx * 2 ^ (ex - ey - e')) mod Zpos my)).
Proof.
  intros e' Hs. unfold SFdiv, SFdiv_core_binary.
  change (IntDef.Z.min (fexp prec emax (IntDef.Z.sub (IntDef.Z.add (Zdigits2 (Zpos mx)) ex)
             (IntDef.Z.add (Zdigits2 (Zpos my)) ey))) (IntDef.Z.sub ex ey)) with e'.
  change (IntDef.Z.sub (IntDef.Z.sub ex ey) e') with (ex - ey - e').
  destruct (ex - ey - e') as [| p | p] eqn:Hp; try lia.
  change (IntDef.Z.shiftl (Zpos mx) (Zpos p)) with (Z.shiftl (Zpos mx) (Zpos p)).
  change (IntDef.Z.div_eucl) with Z.div_eucl.
  rewrite Z.shiftl_mul_pow2, div_eucl_div_mod by lia. reflexivity.
Qed.

Lemma Prim2SF_ofZ (z : Z) : 0 < z < 2 ^ 53 -> Prim2SF (ofZ z) = b64_pattern z.
Proof.
  intro Hz. pose proof (log2_below z Hz) as Hlog.
  pose proof (mantissa_bounds z ltac:(lia) ltac:(lia)) as Hmant.
  destruct z as [| p | p]; try lia.
  change (ofZ (Zpos p)) with
    (SF2Prim (SFdiv prec emax (S754_finite false p 0) (S754_finite false 1 0))).
  assert (Hdiv : SFdiv prec emax (S754_finite false p 0) (S754_finite false 1 0)
                 = b64_pattern (Zpos p)).
  { pose proof (SFdiv_unfold p 1 0 0) as Hun. cbv zeta in Hun.
    rewrite Zdigits2_log2 in Hun by lia.
    change (Zdigits2 1) with 1 in Hun.
    replace (Z.min (Z.max (Z.log2 (Zpos p) + 1 + 0 - (1 + 0) - 53) (-1074)) (0 - 0))
      with (Z.log2 (Zpos p) - 53) in Hun by lia.
    rewrite Hun by lia. rewrite Z.div_1_r, Z.mod_1_r.
    change (new_location 1 0) with loc_Exact.
    replace (Zpos p * 2 ^ (0 - 0 - (Z.log2 (Zpos p) - 53)))
      with (Zpos p * 2 ^ (52 - Z.log2 (Zpos p)) * 2 ^ 1)
      by (rewrite <- Z.mul_assoc, <- Z.pow_add_r by lia; do 2 f_equal; lia).
    rewrite binary_round_aux_exact by lia. unfold b64_pattern. f_equal. lia. }
  rewrite Hdiv. apply Prim2SF_SF2Prim. now apply valid_pattern.
Qed.

Lemma ofZ_pattern (x : float) (z : Z) :
  0 < z < 2 ^ 53 -> Prim2SF x = b64_pattern z -> x = ofZ z.
Proof. intros Hz Hx. apply Prim2SF_inj. now rewrite Prim2SF_ofZ. Qed.

Lemma SFmul_unfold (mx my : positive) (ex ey : Z) :
  SFmul prec emax (S754_finite false mx ex) (S754_finite false my ey)
  = binary_round_aux prec emax false (Zpos mx * Zpos my) (ex + ey) loc_Exact.
Proof. reflexivity. Qed.

(** Products and sums of whole numbers that stay below [2^53] are exact. *)
Lemma b64_mul_whole (a b : Z) :
  0 <= a -> 0 < b < 2 ^ 53 -> a * b < 2 ^ 53 ->
  PrimFloat.mul (ofZ a) (ofZ b) = ofZ (a * b).
Proof.
  intros Ha Hb53 Hab.
  apply Prim2SF_inj. rewrite mul_spec. unfold SF64mul.
  rewrite (Prim2SF_ofZ b Hb53).
  destruct (Z.eq_dec a 0) as [-> | Hne]; [reflexivity |].
  assert (Ha53 : 0 < a < 2 ^ 53) by nia.
  assert (Hab53 : 0 < a * b < 2 ^ 53) by nia.
  rewrite (Prim2SF_ofZ a Ha53), (Prim2SF_ofZ (a * b) Hab53).
  pose proof (log2_below a Ha53) as Hla. pose proof (log2_below b Hb53) as Hlb.
  pose proof (log2_below (a * b) Hab53) as Hlab.
  pose proof (mantissa_bounds a ltac:(lia) ltac:(lia)) as Hma.
  pose proof (mantissa_bounds b ltac:(lia) ltac:(lia)) as Hmb.
  pose proof (mantissa_bounds (a * b) ltac:(lia) ltac:(lia)) as Hmab.
  pose proof (Z.log2_mul_below a b ltac:(lia) ltac:(lia)) as Hbelow.
  unfold b64_pattern. rewrite SFmul_unfold, !Z2Pos.id by lia.
  replace (a * 2 ^ (52 - Z.log2 a) * (b * 2 ^ (52 - Z.log2 b)))
    with (a * b * 2 ^ (52 - Z.log2 (a * b))
          * 2 ^ (52 - Z.log2 a - Z.log2 b + Z.log2 (a * b))).
  2:{ rewrite <- (Z.mul_assoc (a * b)), <- Z.pow_add_r by lia.
      replace (52 - Z.log2 (a * b) + (52 - Z.log2 a - Z.log2 b + Z.log2 (a * b)))
        with ((52 - Z.log2 a) + (52 - Z.log2 b)) by lia.
      rewrite Z.pow_add_r by lia. ring. }
  rewrite binary_round_aux_exact by lia. f_equal. lia.
Qed.

Lemma SFadd_unfold (mx my : positive) (ex ey : Z) :
  SFadd prec emax (S754_finite false mx ex) (S754_finite false my ey)
  = binary_normalize prec emax
      (Zpos (fst (shl_align mx ex (Z.min ex ey))) + Zpos (fst (shl_align my ey (Z.min ex ey))))
      (Z.min ex ey) false.
Proof. reflexivity. Qed.

Lemma binary_normalize_exact (m e z : Z) :
  0 < z < 2 ^ 53 -> -1000 <= e <= 0 -> m = z * 2 ^ (- e) ->
  binary_normalize prec emax m e false = b64_pattern z.
Proof.
  intros Hz He Hm.
  assert (Hpos : 0 < m) by (subst m; apply Z.mul_pos_pos; [lia | apply Z.pow_pos_nonneg; lia]).
  destruct m as [| p | p]; try lia.
  cbn [binary_normalize]. now apply binary_round_exact.
Qed.

Lemma b64_add_whole (a b : Z) :
  0 <= a -> 0 <= b -> a + b < 2 ^ 53 ->
  PrimFloat.add (ofZ a) (ofZ b) = ofZ (a + b).
Proof.
  intros Ha Hb Hab.
  apply Prim2SF_inj. rewrite add_spec. unfold SF64add.
  destruct (Z.eq_dec a 0) as [-> | Hane].
  { destruct (Z.eq_dec b 0) as [-> | Hbne]; [reflexivity |].
    rewrite Z.add_0_l. rewrite (Prim2SF_ofZ b) by lia. reflexivity. }
  destruct (Z.eq_dec b 0) as [-> | Hbne].
  { rewrite Z.add_0_r. rewrite (Prim2SF_ofZ a) by lia. reflexivity. }
  assert (Ha53 : 0 < a < 2 ^ 53) by lia.
  assert (Hb53 : 0 < b < 2 ^ 53) by lia.
  rewrite (Prim2SF_ofZ a Ha53), (Prim2SF_ofZ b Hb53), (Prim2SF_ofZ (a + b)) by lia.
  pose proof (log2_below a Ha53) as Hla. pose proof (log2_below b Hb53) as Hlb.
  pose proof (mantissa_bounds a ltac:(lia) ltac:(lia)) as Hma.
  pose proof (mantissa_bounds b ltac:(lia) ltac:(lia)) as Hmb.
  unfold b64_pattern at 1 2. rewrite SFadd_unfold.
  rewrite !shl_align_fst, !Z2Pos.id by lia.
  apply binary_normalize_exact; [lia | lia |].
  set (ez := Z.min (Z.log2 a - 52) (Z.log2 b - 52)).
  rewrite <- !Z.mul_assoc, <- !Z.pow_add_r by lia.
  replace (52 - Z.log2 a + (Z.log2 a - 52 - ez)) with (- ez) by lia.
  replace (52 - Z.log2 b + (Z.log2 b - 52 - ez)) with (- ez) by lia.
  ring.
Qed.

Lemma Prim2SF_ofZ_0 : Prim2SF (ofZ 0 : float) = S754_zero false.
Proof. reflexivity. Qed.

(** The remainder of whole numbers. *)
Lemma b64_rem_whole (n d : Z) :
  0 <= n < 2 ^ 53 -> 0 < d < 2 ^ 53 ->
  b64_rem (ofZ n) (ofZ d) = ofZ (n mod d).
Proof.
  intros Hn Hd. unfold b64_rem.
  rewrite (Prim2SF_ofZ d Hd).
  destruct (Z.eq_dec n 0) as [-> | Hne].
  { rewrite Prim2SF_ofZ_0. unfold b64_pattern. now rewrite Z.mod_0_l by lia. }
  assert (Hn53 : 0 < n < 2 ^ 53) by lia.
  rewrite (Prim2SF_ofZ n Hn53). unfold b64_pattern.
  pose proof (log2_below n Hn53) as Hln. pose proof (log2_below d Hd) as Hld.
  pose proof (mantissa_bounds n ltac:(lia) ltac:(lia)) as Hmn.
  pose proof (mantissa_bounds d ltac:(lia) ltac:(lia)) as Hmd.
  rewrite !Z2Pos.id by lia.
  set (e0 := Z.min (Z.log2 n - 52) (Z.log2 d - 52)).
  assert (HX : n * 2 ^ (52 - Z.log2 n) * 2 ^ (Z.log2 n - 52 - e0) = n * 2 ^ (- e0)).
  { rewrite <- Z.mul_assoc, <- Z.pow_add_r by lia. do 2 f_equal. lia. }
  assert (HY : d * 2 ^ (52 - Z.log2 d) * 2 ^ (Z.log2 d - 52 - e0) = d * 2 ^ (- e0)).
  { rewrite <- Z.mul_assoc, <- Z.pow_add_r by lia. do 2 f_equal. lia. }
  rewrite HX, HY.
  assert (Hp : 0 < 2 ^ (- e0)) by (apply Z.pow_pos_nonneg; lia).
  rewrite Zmult_mod_distr_r.
  pose proof (Z.mod_pos_bound n d ltac:(lia)) as Hr.
  destruct (Z.eq_dec (n mod d) 0) as [Hz | Hnz].
  { rewrite Hz. reflexivity. }
  assert (Hrpos : 0 < n mod d * 2 ^ (- e0)) by (apply Z.mul_pos_pos; lia).
  destruct (n mod d * 2 ^ (- e0)) as [| r | r] eqn:Hprod; try lia.
  rewrite <- Hprod.
  rewrite (binary_normalize_exact (n mod d * 2 ^ (- e0)) e0 (n mod d)) by lia.
  rewrite <- (Prim2SF_ofZ (n mod d)) by lia. apply SF2Prim_Prim2SF.
Qed.

(** [Math.floor] of a whole number. *)
Lemma b64_floor_whole (z : Z) : 0 <= z < 2 ^ 53 -> b64_floor (ofZ z) = ofZ z.
Proof.
  intro Hz. unfold b64_floor.
  destruct (Z.eq_dec z 0) as [-> | Hne]; [reflexivity |].
  assert (Hz53 : 0 < z < 2 ^ 53) by lia.
  rewrite (Prim2SF_ofZ z Hz53). unfold b64_pattern.
  pose proof (log2_below z Hz53) as Hl.
  pose proof (mantissa_bounds z ltac:(lia) ltac:(lia)) as Hm.
  destruct (Z.log2 z - 52) as [| k | k] eqn:Hk; [reflexivity | lia |].
  rewrite Z2Pos.id by lia.
  assert (Hpow : Zpos (2 ^ k) = 2 ^ (52 - Z.log2 z)).
  { rewrite Pos2Z.inj_pow. f_equal. lia. }
  rewrite Hpow. rewrite Z.div_mul by lia. reflexivity.
Qed.

(** *** Quotients of whole numbers, rounded and then floored *)

Lemma loc_of_shr_record_of_loc (m : Z) (l : location) :
  loc_of_shr_record (shr_record_of_loc m l) = l.
Proof. destruct l as [| []]; reflexivity. Qed.

Lemma shr_m_of_loc (m : Z) (l : location) : shr_m (shr_record_of_loc m l) = m.
Proof. destruct l as [| []]; reflexivity. Qed.

Lemma round_nearest_even_near (m : Z) (l : location) :
  round_nearest_even m l = m \/ round_nearest_even m l = m + 1.
Proof. destruct l as [| []]; cbn; try destruct (Z.even m); auto. Qed.

Lemma shr_1_halves (q : Z) (l : location) :
  0 < q ->
  let mrs := shr_1 (shr_record_of_loc q l) in
  shr_m mrs = q / 2 /\ (Z.even q = true -> shr_r mrs = false).
Proof.
  intro Hq. destruct q as [| p | p]; try lia.
  destruct p as [p | p |]; destruct l as [| []]; cbn [shr_record_of_loc shr_1 shr_m shr_r];
    split; try (intro Hev; cbn in Hev; congruence); try reflexivity;
    try (apply Z.div_unique with (r := 1); lia);
    try (apply Z.div_unique with (r := 0); lia).
Qed.

Lemma round_after_shr_1 (q : Z) (l : location) :
  0 < q ->
  let mrs := shr_1 (shr_record_of_loc q l) in
  let m1 := round_nearest_even (shr_m mrs) (loc_of_shr_record mrs) in
  (m1 = q / 2 \/ m1 = q / 2 + 1) /\ (Z.even q = true -> m1 = q / 2).
Proof.
  intros Hq mrs m1. destruct (shr_1_halves q l Hq) as [Hm Hr]. fold mrs in Hm, Hr.
  subst m1. rewrite Hm. split; [apply round_nearest_even_near |].
  intro Hev. specialize (Hr Hev).
  destruct mrs as [m r s]. cbn [shr_r] in Hr. subst r.
  now destruct s.
Qed.

(** What rounding does to a quotient [q] of 53 or 54 bits: with [t] the
    number of bits dropped, the mantissa is [q / 2^t] or the next integer,
    and it is [q / 2] when [q] is even and [t] is 1. *)
Lemma binary_round_aux_near (q e : Z) (l : location) :
  2 ^ 52 <= q < 2 ^ 54 -> -1000 <= e <= 900 ->
  exists m1 t : Z,
    (t = 0 \/ t = 1)
    /\ 2 ^ (52 + t) <= q < 2 ^ (53 + t)
    /\ (m1 = q / 2 ^ t \/ m1 = q / 2 ^ t + 1)
    /\ (t = 1 -> Z.even q = true -> m1 = q / 2)
    /\ binary_round_aux prec emax false q e l
       = if m1 =? 2 ^ 53 then S754_finite false (Z.to_pos (2 ^ 52)) (e + t + 1)
         else S754_finite false (Z.to_pos m1) (e + t).
Proof.
  intros Hq He. rewrite binary_round_aux_unfold, shr_fexp_unfold.
  rewrite Zdigits2_log2 by lia.
  assert (Hfinish : forall m1 e1 : Z,
             2 ^ 52 <= m1 <= 2 ^ 53 -> -1000 <= e1 <= 901 ->
             (let '(mrs'', e'') := shr_fexp prec emax m1 e1 loc_Exact in
              match shr_m mrs'' with
              | 0 => S754_zero false
              | Zpos m => if e'' <=? 971 then S754_finite false m e'' else S754_infinity false
              | Zneg _ => S754_nan
              end)
             = if m1 =? 2 ^ 53 then S754_finite false (Z.to_pos (2 ^ 52)) (e1 + 1)
               else S754_finite false (Z.to_pos m1) e1).
  { intros m1 e1 Hm1 He1. destruct (Z.eqb_spec m1 (2 ^ 53)) as [-> | Hne].
    - change (2 ^ 53) with (2 ^ 52 * 2 ^ 1). rewrite shr_fexp_exact by lia.
      cbn [shr_m]. destruct (Z.leb_spec (e1 + 1) 971); [reflexivity | lia].
    - replace m1 with (m1 * 2 ^ 0) at 1 by lia. rewrite shr_fexp_exact by lia.
      cbn [shr_m]. rewrite Z.add_0_r.
      destruct m1 as [| p | p]; try lia.
      destruct (Z.leb_spec e1 971); [reflexivity | lia]. }
  destruct (Z_lt_le_dec q (2 ^ 53)) as [Hsmall | Hlarge].
  - assert (Hlog : Z.log2 q = 52) by (apply Z.log2_unique; lia).
    rewrite Hlog.
    replace (Z.max (52 + 1 + e - 53) (-1074) - e) with 0 by lia.
    cbn [shr]. rewrite loc_of_shr_record_of_loc, shr_m_of_loc.
    exists (round_nearest_even q l), 0.
    pose proof (round_nearest_even_near q l) as Hnear.
    split; [now left |]. split; [change (52 + 0) with 52; change (53 + 0) with 53; lia |].
    split; [rewrite Z.div_1_r; exact Hnear |].
    split; [lia |].
    rewrite Hfinish by lia. now rewrite Z.add_0_r.
  - assert (Hlog : Z.log2 q = 53) by (apply Z.log2_unique; [lia | change (Z.succ 53) with 54; lia]).
    rewrite Hlog.
    replace (Z.max (53 + 1 + e - 53) (-1074) - e) with 1 by lia.
    cbn [shr iter_pos].
    pose proof (round_after_shr_1 q l ltac:(lia)) as [Hnear Heven]. cbv zeta in Hnear, Heven.
    set (m1 := round_nearest_even (shr_m (shr_1 (shr_record_of_loc q l)))
                 (loc_of_shr_record (shr_1 (shr_record_of_loc q l)))) in *.
    exists m1, 1.
    split; [now right |]. split; [change (52 + 1) with 53; change (53 + 1) with 54; lia |].
    split; [exact Hnear |]. split; [intros _; exact Heven |].
    assert (Hhalf : 2 ^ 52 <= q / 2 < 2 ^ 53).
    { split; [apply Z.div_le_lower_bound; lia | apply Z.div_lt_upper_bound; lia]. }
    rewrite Hfinish by lia. reflexivity.
Qed.

(** The arithmetic behind [Math.floor(n / d)]: the quotient [n * 2^E / d]
    cut to [E - t] bits after the point and rounded to a neighbour has the
    integer part of [n / d], because a step of the mantissa is smaller than
    [1 / d], or else the quotient is even and is not rounded up. *)
Lemma floor_of_rounded (n d E t m1 : Z) :
  0 <= n -> 0 < d -> (t = 0 \/ t = 1) -> 1 <= E - t ->
  (m1 = n * 2 ^ E / d / 2 ^ t \/ m1 = n * 2 ^ E / d / 2 ^ t + 1) ->
  (t = 1 -> Z.even (n * 2 ^ E / d) = true -> m1 = n * 2 ^ E / d / 2) ->
  (d < 2 ^ (E - t) \/ (t = 1 /\ 2 ^ (E - 1) <= d < 2 ^ E)) ->
  m1 / 2 ^ (E - t) = n / d.
Proof.
  intros Hn Hd Ht HE Hnear Heven Hstep.
  set (P := 2 ^ (E - t)) in *.
  assert (HP : 2 <= P).
  { unfold P. change 2 with (2 ^ 1) at 1. apply Z.pow_le_mono_r; lia. }
  assert (H2t : 0 < 2 ^ t) by (apply Z.pow_pos_nonneg; lia).
  assert (HEP : 2 ^ E = P * 2 ^ t).
  { unfold P. rewrite <- Z.pow_add_r by lia. f_equal. lia. }
  set (H := n / d). set (rho := n mod d).
  assert (Hnd : n = d * H + rho) by (apply Z.div_mod; lia).
  assert (Hrho : 0 <= rho < d) by (apply Z.mod_pos_bound; lia).
  assert (HH : 0 <= H) by (apply Z.div_pos; lia).
  set (u := rho * P / d).
  assert (Hu : d * u <= rho * P < d * (u + 1)).
  { pose proof (Z.div_mod (rho * P) d ltac:(lia)) as Hdm.
    pose proof (Z.mod_pos_bound (rho * P) d Hd) as Hb. fold u in Hdm. lia. }
  assert (Hm0 : n * 2 ^ E / d / 2 ^ t = H * P + u).
  { rewrite HEP, Z.div_div by lia.
    replace (n * (P * 2 ^ t)) with (n * P * 2 ^ t) by ring.
    rewrite Z.div_mul_cancel_r by lia.
    replace (n * P) with (H * P * d + rho * P) by (rewrite Hnd at 1; ring).
    rewrite Z.div_add_l by lia. reflexivity. }
  rewrite Hm0 in Hnear.
  assert (Hu0 : 0 <= u) by nia.
  assert (HuP : u < P) by nia.
  destruct (Z_lt_le_dec (u + 1) P) as [Hroom | Hfull].
  { symmetry. apply Z.div_unique with (r := m1 - H * P); [lia |].
    destruct Hnear as [-> | ->]; ring. }
  assert (HuP1 : u = P - 1) by lia.
  assert (Hclose : P * (d - rho) <= d) by nia.
  destruct Hstep as [Hsmall | [Ht1 Hd2]].
  { assert (P <= P * (d - rho)) by nia. lia. }
  subst t. replace (2 ^ (E - 1)) with P in Hd2 by reflexivity.
  change (2 ^ 1) with 2 in *.
  assert (HE2 : 2 ^ E = 2 * P) by lia.
  assert (Hrho1 : rho = d - 1) by nia.
  assert (Hq : n * 2 ^ E / d = 2 * ((H + 1) * P - 1)).
  { symmetry. apply Z.div_unique with (r := 2 * d - 2 * P); [lia |].
    rewrite HE2, Hnd, Hrho1. ring. }
  assert (Hm1 : m1 = (H + 1) * P - 1).
  { rewrite (Heven eq_refl).
    - rewrite Hq. now rewrite Z.mul_comm, Z.div_mul by lia.
    - rewrite Hq. now rewrite Z.even_mul. }
  symmetry. apply Z.div_unique with (r := P - 1); [lia |]. rewrite Hm1. ring.
Qed.

Lemma SF2Prim_zero (x : float) : Prim2SF x = S754_zero false -> x = ofZ 0.
Proof. intro Hx. apply Prim2SF_inj. now rewrite Hx. Qed.

(** [Math.floor(n / d)] is the integer quotient of the whole numbers [n]
    and [d]. *)
Lemma b64_floor_div_whole (n d : Z) :
  0 <= n < 2 ^ 53 -> 4 <= d < 2 ^ 53 ->
  b64_floor (PrimFloat.div (ofZ n) (ofZ d)) = ofZ (n / d).
Proof.
  intros Hn Hd.
  assert (Hd53 : 0 < d < 2 ^ 53) by lia.
  pose proof (div_spec (ofZ n) (ofZ d)) as Hspec. unfold SF64div in Hspec.
  rewrite (Prim2SF_ofZ d Hd53) in Hspec.
  destruct (Z.eq_dec n 0) as [-> | Hne].
  { rewrite Prim2SF_ofZ_0 in Hspec. unfold b64_pattern in Hspec. cbn [SFdiv xorb] in Hspec.
    unfold b64_floor. rewrite Hspec. rewrite Z.div_0_l by lia. now apply SF2Prim_zero. }
  assert (Hn53 : 0 < n < 2 ^ 53) by lia.
  rewrite (Prim2SF_ofZ n Hn53) in Hspec. unfold b64_pattern in Hspec.
  pose proof (log2_below n Hn53) as Hln. pose proof (log2_below d Hd53) as Hld.
  assert (Hld2 : 2 <= Z.log2 d) by (apply Z.log2_le_pow2; [lia | change (2 ^ 2) with 4; lia]).
  pose proof (mantissa_bounds n ltac:(lia) ltac:(lia)) as Hmn.
  pose proof (mantissa_bounds d ltac:(lia) ltac:(lia)) as Hmd.
  destruct (Z.log2_spec d ltac:(lia)) as [Hdlo Hdhi].
  set (Mn := n * 2 ^ (52 - Z.log2 n)) in *. set (Md := d * 2 ^ (52 - Z.log2 d)) in *.
  set (E := 53 + Z.log2 d - Z.log2 n).
  pose proof (SFdiv_unfold (Z.to_pos Mn) (Z.to_pos Md) (Z.log2 n - 52) (Z.log2 d - 52)) as Hun.
  cbv zeta in Hun. rewrite !Z2Pos.id in Hun by lia.
  rewrite !Zdigits2_log2 in Hun by lia.
  replace (Z.log2 Mn) with 52 in Hun by (symmetry; apply Z.log2_unique; lia).
  replace (Z.log2 Md) with 52 in Hun by (symmetry; apply Z.log2_unique; lia).
  replace (Z.min (Z.max (52 + 1 + (Z.log2 n - 52) - (52 + 1 + (Z.log2 d - 52)) - 53) (-1074))
             (Z.log2 n - 52 - (Z.log2 d - 52))) with (- E) in Hun by (unfold E; lia).
  replace (Z.log2 n - 52 - (Z.log2 d - 52) - - E) with 53 in Hun by (unfold E; lia).
  rewrite Hun in Hspec by lia. clear Hun.
  set (q := Mn * 2 ^ 53 / Md) in *.
  assert (Hq : q = n * 2 ^ E / d).
  { unfold q, Mn, Md.
    replace (n * 2 ^ (52 - Z.log2 n) * 2 ^ 53) with (n * 2 ^ E * 2 ^ (52 - Z.log2 d)).
    - apply Z.div_mul_cancel_r; [lia |].
      apply Z.pow_nonzero; lia.
    - rewrite <- !Z.mul_assoc, <- !Z.pow_add_r by (unfold E; lia).
      do 2 f_equal. unfold E. lia. }
  assert (Hqb : 2 ^ 52 <= q < 2 ^ 54).
  { unfold q. split.
    - apply Z.div_le_lower_bound; [lia |]. nia.
    - apply Z.div_lt_upper_bound; [lia |]. nia. }
  destruct (binary_round_aux_near q (- E)
              (new_location Md ((Mn * 2 ^ 53) mod Md)) Hqb ltac:(unfold E; lia))
    as (m1 & t & Ht & Hqt & Hnear & Heven & Hround).
  rewrite Hround in Hspec. clear Hround.
  assert (Hfloor : m1 / 2 ^ (E - t) = n / d).
  { rewrite Hq in Hnear, Heven.
    apply floor_of_rounded;
      [lia | lia | exact Ht | unfold E; lia | exact Hnear | exact Heven |].
    destruct (Z.eq_dec t 0) as [-> | Ht1].
    - left. rewrite Z.sub_0_r.
      apply Z.lt_le_trans with (2 ^ Z.succ (Z.log2 d)); [exact Hdhi |].
      apply Z.pow_le_mono_r; unfold E; lia.
    - assert (t = 1) by lia. subst t.
      destruct (Z.eq_dec (Z.log2 n) 52) as [Hl52 | Hl51].
      + right. split; [reflexivity |].
        replace (E - 1) with (Z.log2 d) by (unfold E; lia).
        replace E with (Z.succ (Z.log2 d)) by (unfold E; lia). lia.
      + left. apply Z.lt_le_trans with (2 ^ Z.succ (Z.log2 d)); [exact Hdhi |].
        apply Z.pow_le_mono_r; unfold E; lia. }
  assert (Hm1 : 2 ^ 52 <= m1 <= 2 ^ 53).
  { destruct Ht as [-> | ->].
    - rewrite Z.div_1_r in Hnear. change (52 + 0) with 52 in Hqt. change (53 + 0) with 53 in Hqt.
      lia.
    - change (52 + 1) with 53 in Hqt. change (53 + 1) with 54 in Hqt. change (2 ^ 1) with 2 in Hnear.
      assert (2 ^ 52 <= q / 2 < 2 ^ 53)
        by (split; [apply Z.div_le_lower_bound; lia | apply Z.div_lt_upper_bound; lia]).
      lia. }
  assert (HEt : 2 <= E - t) by (unfold E; lia).
  unfold b64_floor. rewrite Hspec.
  destruct (Z.eqb_spec m1 (2 ^ 53)) as [Hcarry | Hnocarry].
  - destruct (- E + t + 1) as [| k | k] eqn:Hk; try lia.
    change (Zpos (Z.to_pos (2 ^ 52))) with (2 ^ 52).
    rewrite Pos2Z.inj_pow.
    replace (Zpos k) with (E - t - 1) by lia.
    f_equal. rewrite <- Hfloor, Hcarry.
    replace (E - t) with (1 + (E - t - 1)) at 2 by lia.
    rewrite Z.pow_add_r by lia. change (2 ^ 53) with (2 ^ 52 * 2) at 1.
    change (2 ^ 1) with 2.
    rewrite (Z.mul_comm (2 ^ 52)).
    rewrite Z.div_mul_cancel_l; [reflexivity | | lia].
    apply Z.pow_nonzero; lia.
  - destruct (- E + t) as [| k | k] eqn:Hk; try lia.
    rewrite Z2Pos.id by lia. rewrite Pos2Z.inj_pow.
    replace (Zpos k) with (E - t) by lia.
    now rewrite Hfloor.
Qed.

(** *** Comparing and printing whole numbers *)

Lemma SFeqb_finite (m1 m2 : positive) (e1 e2 : Z) :
  SFeqb (S754_finite false m1 e1) (S754_finite false m2 e2)
  = match (e1 ?= e2) with
    | Eq => match (m1 ?= m2)%positive with Eq => true | _ => false end
    | _ => false
    end.
Proof.
  unfold SFeqb, SFcompare. change (IntDef.Z.compare e1 e2) with (e1 ?= e2).
  change (PosDef.Pos.compare_cont Eq m1 m2) with (m1 ?= m2)%positive.
  now destruct (e1 ?= e2).
Qed.

Lemma b64_pattern_inj (a b : Z) :
  0 < a < 2 ^ 53 -> 0 < b < 2 ^ 53 -> b64_pattern a = b64_pattern b -> a = b.
Proof.
  intros Ha Hb Heq. unfold b64_pattern in Heq. injection Heq as Hm He.
  pose proof (log2_below a Ha). pose proof (log2_below b Hb).
  pose proof (mantissa_bounds a ltac:(lia) ltac:(lia)).
  pose proof (mantissa_bounds b ltac:(lia) ltac:(lia)).
  assert (Hm' : a * 2 ^ (52 - Z.log2 a) = b * 2 ^ (52 - Z.log2 b))
    by (apply Z2Pos.inj; [lia | lia | exact Hm]).
  replace (Z.log2 b) with (Z.log2 a) in Hm' by lia.
  apply Z.mul_cancel_r in Hm'; [exact Hm' |]. apply Z.pow_nonzero; lia.
Qed.

Lemma b64_eqb_whole (a b : Z) :
  0 <= a < 2 ^ 53 -> 0 < b < 2 ^ 53 ->
  PrimFloat.eqb (ofZ a) (ofZ b) = (a =? b).
Proof.
  intros Ha Hb. rewrite eqb_spec, (Prim2SF_ofZ b Hb).
  destruct (Z.eq_dec a 0) as [-> | Hne].
  { rewrite Prim2SF_ofZ_0. destruct (Z.eqb_spec 0 b); [lia | reflexivity]. }
  assert (Ha53 : 0 < a < 2 ^ 53) by lia.
  rewrite (Prim2SF_ofZ a Ha53).
  destruct (Z.eqb_spec a b) as [-> | Hab].
  - unfold b64_pattern. rewrite SFeqb_finite, Z.compare_refl, Pos.compare_refl. reflexivity.
  - assert (Hpat : b64_pattern a <> b64_pattern b)
      by (intro Heq; apply Hab; now apply b64_pattern_inj).
    unfold b64_pattern in *. rewrite SFeqb_finite.
    destruct (Z.compare_spec (Z.log2 a - 52) (Z.log2 b - 52)) as [He | He | He];
      try reflexivity.
    destruct (Pos.compare_spec (Z.to_pos (a * 2 ^ (52 - Z.log2 a)))
                (Z.to_pos (b * 2 ^ (52 - Z.log2 b)))) as [Hm | Hm | Hm]; try reflexivity.
    exfalso. apply Hpat. now rewrite Hm, He.
Qed.

Lemma ofZ_of_N {num : Type} `{Arith num} (v : N) : ofZ (Z.of_N v) = ofRatio false v 1.
Proof. destruct v; reflexivity. Qed.

Lemma ofDecimal_whole {num : Type} `{Arith num} (v : N) (j : Z) :
  0 <= j -> ofDecimal false v j = ofZ (Z.of_N (v * 10 ^ Z.to_N j)).
Proof.
  intro Hj. rewrite ofZ_of_N. destruct j as [| p | p]; try lia.
  - cbn [ofDecimal Z.to_N]. now rewrite N.pow_0_r, N.mul_1_r.
  - reflexivity.
Qed.

Lemma pow10_nonpositive (e : Z) : e <= 0 -> pow10 e = 1%N.
Proof. destruct e; try reflexivity. lia. Qed.

Lemma pow10_power (e : Z) : pow10 e = (10 ^ Z.to_N e)%N.
Proof. destruct e; reflexivity. Qed.

(** The search for the digits of a whole number [h] ends on digits [s] and
    a number [n - k'] of zeros to append with [s * 10^(n-k') = h]. *)
Lemma shortestDigits_whole (h den : N) (n : Z) :
  (0 < h < 2 ^ 52)%N -> (0 < den)%N -> 1 <= n <= 16 ->
  forall (fuel : nat) (k : Z),
    1 <= k <= n -> n - k < Z.of_nat fuel ->
    exists (s : N) (k' : Z),
      1 <= k' <= n /\ (0 < s)%N /\ (s * 10 ^ Z.to_N (n - k'))%N = h
      /\ shortestDigits fuel (ofZ (Z.of_N h)) (h * den) den n k = (s, k', n).
Proof.
  intros Hh Hden Hn. induction fuel as [| f IH]; intros k Hk Hfuel; [lia |].
  cbn [shortestDigits].
  rewrite (pow10_nonpositive (k - n)), (pow10_power (n - k)) by lia.
  set (T := (10 ^ Z.to_N (n - k))%N).
  assert (HT : (0 < T)%N) by apply pow10_positive.
  assert (HT15 : (T <= 10 ^ 15)%N) by (apply N.pow_le_mono_r; lia).
  assert (HT1 : k = n -> T = 1%N).
  { intros ->. unfold T. now rewrite Z.sub_diag. }
  assert (HTdef : T = (10 ^ Z.to_N (n - k))%N) by reflexivity.
  rewrite N.mul_1_r.
  replace (h * den / (den * T))%N with (h / T)%N
    by (rewrite (N.mul_comm h den); symmetry; apply N.Div0.div_mul_cancel_l; lia).
  pose proof (N.div_mod h T ltac:(lia)) as Hdm. pose proof (N.mod_lt h T ltac:(lia)) as Hmod.
  set (lo := (h / T)%N) in *. set (r := (h mod T)%N) in *.
  rewrite !ofDecimal_whole by lia. fold T.
  clearbody lo r T.
  assert (Hlo : (lo * T <= h < (lo + 1) * T)%N) by nia.
  assert (H52 : (2 ^ 52 = 4503599627370496)%N) by reflexivity.
  assert (H15 : (10 ^ 15 = 1000000000000000)%N) by reflexivity.
  assert (H53 : 2 ^ 53 = 9007199254740992) by reflexivity.
  rewrite !b64_eqb_whole by lia.
  replace (Z.of_N ((lo + 1) * T) =? Z.of_N h) with false
    by (symmetry; apply Z.eqb_neq; lia).
  rewrite orb_false_r.
  destruct (Z.eqb_spec (Z.of_N (lo * T)) (Z.of_N h)) as [Hfound | Hnot].
  - cbn [andb]. exists lo, k.
    split; [lia |]. split; [nia |]. split; [rewrite <- HTdef; lia | reflexivity].
  - assert (Hkn : k < n).
    { destruct (Z.eq_dec k n) as [Heq | Hne]; [| lia].
      exfalso. apply Hnot. rewrite (HT1 Heq) in *. lia. }
    apply IH; lia.
Qed.

Lemma b64_abs_whole (z : Z) : 0 < z < 2 ^ 53 -> PrimFloat.abs (ofZ z) = ofZ z.
Proof.
  intro Hz. apply Prim2SF_inj. rewrite abs_spec, (Prim2SF_ofZ z Hz). reflexivity.
Qed.

(** A whole number prints as its decimal numeral. *)
Lemma b64_toString_whole (h : N) :
  (h < 2 ^ 52)%N -> b64_toString (ofZ (Z.of_N h)) = decimalDigits h.
Proof.
  intro Hh. destruct (N.eq_dec h 0) as [-> | Hne]; [reflexivity |].
  assert (Hz : 0 < Z.of_N h < 2 ^ 53).
  { assert (H52 : (2 ^ 52 = 4503599627370496)%N) by reflexivity.
    assert (H53 : 2 ^ 53 = 9007199254740992) by reflexivity. lia. }
  unfold b64_toString. rewrite b64_abs_whole, (Prim2SF_ofZ _ Hz) by exact Hz.
  unfold b64_pattern.
  pose proof (log2_below _ Hz) as Hlog.
  pose proof (mantissa_bounds (Z.of_N h) ltac:(lia) ltac:(lia)) as Hm.
  set (den := match Z.log2 (Z.of_N h) - 52 with
              | Zneg p => Npos (2 ^ p)
              | _ => 1%N
              end).
  assert (Hden : Z.of_N den = 2 ^ (52 - Z.log2 (Z.of_N h))).
  { unfold den. destruct (Z.log2 (Z.of_N h) - 52) as [| p | p] eqn:He; try lia.
    - replace (52 - Z.log2 (Z.of_N h)) with 0 by lia. reflexivity.
    - cbn [Z.of_N]. rewrite Pos2Z.inj_pow. f_equal. lia. }
  assert (Hnum : match Z.log2 (Z.of_N h) - 52 with
                 | Zpos p => (Npos (Z.to_pos (Z.of_N h * 2 ^ (52 - Z.log2 (Z.of_N h))))
                              * Npos (2 ^ p))%N
                 | _ => Npos (Z.to_pos (Z.of_N h * 2 ^ (52 - Z.log2 (Z.of_N h))))
                 end = (h * den)%N).
  { destruct (Z.log2 (Z.of_N h) - 52) as [| p | p] eqn:He; try lia;
      apply N2Z.inj; rewrite N2Z.inj_mul, Hden; cbn [Z.of_N]; rewrite Z2Pos.id by lia;
      reflexivity. }
  rewrite Hnum.
  assert (Hdenpos : (0 < den)%N).
  { apply N2Z.inj_lt. rewrite Hden. apply Z.pow_pos_nonneg; lia. }
  assert (Hmag : magnitude (h * den) den = Z.of_nat (String.length (decimalDigits h))).
  { unfold magnitude. rewrite N.div_mul by lia.
    destruct (N.leb_spec den (h * den)) as [_ | Hlt]; [reflexivity | nia]. }
  rewrite Hmag.
  assert (Hlen : (1 <= String.length (decimalDigits h) <= 16)%nat).
  { apply (decimalDigits_length 15 h).
    apply N.lt_trans with (2 ^ 52)%N; [exact Hh | reflexivity]. }
  set (n := Z.of_nat (String.length (decimalDigits h))) in *.
  assert (Hn : 1 <= n <= 16) by lia. clearbody n.
  destruct (shortestDigits_whole h den n ltac:(lia) Hdenpos Hn 17 1 ltac:(lia) ltac:(lia))
    as (s & k' & Hk' & Hs & Hval & Hfound).
  rewrite Hfound. cbn [append]. unfold formatDigits.
  destruct (Z.leb_spec k' n) as [_ | Hgt]; [| lia].
  destruct (Z.leb_spec n 21) as [_ | Hgt]; [| lia].
  cbn [andb]. rewrite <- decimalDigits_zeros by exact Hs.
  f_equal. rewrite <- Hval. do 2 f_equal. lia.
Qed.
End Binary64Whole.

(** ** Whole numbers printed in exact arithmetic *)

Section PrintWhole.
Local Open Scope N_scope.

Lemma Number_numeral_whole {num : Type} `{JSNumber num} (zeros : nat) (v : N) :
  Number (numeral zeros v) = ofZ (Z.of_N v).
Proof.
  unfold Number. rewrite numberLiteral_numeral. cbn [ofLiteral ofDecimal].
  now rewrite ofZ_of_N.
Qed.

Lemma stripZeros_value (fuel : nat) :
  forall (v s : N) (t : nat),
    stripZeros fuel v = (s, t) -> s * 10 ^ N.of_nat t = v /\ (0 < v -> 0 < s).
Proof.
  induction fuel as [| f IH]; intros v s t Hrun; cbn [stripZeros] in Hrun.
  - injection Hrun as <- <-. cbn. split; lia.
  - destruct (N.ltb_spec 0 v) as [Hpos | Hzero]; cbn [andb] in Hrun.
    + destruct (N.eqb_spec (v mod 10) 0) as [Hdiv | Hrest].
      * destruct (stripZeros f (v / 10)) as [s' t'] eqn:Hrec.
        injection Hrun as <- <-.
        destruct (IH _ _ _ Hrec) as [Hval Hs].
        pose proof (N.div_mod v 10 ltac:(lia)) as Hdm. rewrite Hdiv in Hdm.
        split.
        -- rewrite Nat2N.inj_succ, N.pow_succ_r'. lia.
        -- intros _. apply Hs. lia.
      * injection Hrun as <- <-. cbn. split; lia.
    + injection Hrun as <- <-. cbn. split; lia.
Qed.

(** With fuel enough, the digits left do not end in zero. *)
Lemma stripZeros_minimal (fuel : nat) :
  forall (v s : N) (t : nat),
    0 < v < 10 ^ N.of_nat fuel -> stripZeros fuel v = (s, t) -> s mod 10 <> 0.
Proof.
  induction fuel as [| f IH]; intros v s t Hv Hrun; cbn [stripZeros] in Hrun.
  - cbn in Hv. lia.
  - destruct (N.ltb_spec 0 v) as [Hpos | Hzero]; [| lia]. cbn [andb] in Hrun.
    destruct (N.eqb_spec (v mod 10) 0) as [Hdiv | Hrest].
    + destruct (stripZeros f (v / 10)) as [s' t'] eqn:Hrec.
      injection Hrun as <- <-.
      apply (IH (v / 10) s' t'); [| exact Hrec].
      pose proof (N.div_mod v 10 ltac:(lia)) as Hdm. rewrite Hdiv in Hdm.
      rewrite Nat2N.inj_succ, N.pow_succ_r' in Hv. lia.
    + now injection Hrun as <- <-.
Qed.

Lemma size_bound (v : N) : v < 10 ^ N.of_nat (N.to_nat (N.size v)).
Proof.
  rewrite N2Nat.id. apply N.lt_le_trans with (2 ^ N.size v); [apply N.size_gt |].
  apply N.pow_le_mono_l. lia.
Qed.

Lemma decimalDigits_not_nil (v : N) :
  decimalDigits v = NilEmpty.string_of_uint (N.to_uint v).
Proof. apply string_of_uint_not_nil, to_uint_not_nil. Qed.

(** The layout of a whole number of at most 21 digits is its numeral. *)
Lemma formatDigits_numeral (s : N) (t : nat) :
  0 < s ->
  (String.length (decimalDigits s) + t <= 21)%nat ->
  formatDigits s (Z.of_nat (String.length (decimalDigits s)))
    (Z.of_nat (String.length (decimalDigits s)) + Z.of_nat t)
  = decimalDigits (s * 10 ^ N.of_nat t).
Proof.
  intros Hs Hlen. unfold formatDigits.
  set (k := Z.of_nat (String.length (decimalDigits s))).
  destruct (Z.leb_spec k (k + Z.of_nat t)) as [_ | Hgt]; [| lia].
  destruct (Z.leb_spec (k + Z.of_nat t) 21) as [_ | Hgt]; [| lia].
  cbn [andb]. rewrite decimalDigits_zeros by exact Hs. do 2 f_equal. lia.
Qed.

Lemma printWhole_parts (v : N) :
  0 < v ->
  exists (s : N) (t : nat),
    0 < s /\ s mod 10 <> 0 /\ s * 10 ^ N.of_nat t = v
    /\ printWhole v
       = formatDigits s (Z.of_nat (String.length (decimalDigits s)))
           (Z.of_nat (String.length (decimalDigits s)) + Z.of_nat t).
Proof.
  intro Hv. unfold printWhole. destruct v as [| p]; [lia |].
  destruct (stripZeros (N.to_nat (N.size (Npos p))) (Npos p)) as [s t] eqn:Hrun.
  destruct (stripZeros_value _ _ _ _ Hrun) as [Hval Hs].
  exists s, t. split; [now apply Hs |]. split; [| split; [exact Hval | reflexivity]].
  apply (stripZeros_minimal _ _ _ _ (conj Hv (size_bound (Npos p))) Hrun).
Qed.

(** Below [10^21] a whole number prints as its numeral. *)
Lemma printWhole_small (v : N) : v < 10 ^ 21 -> printWhole v = printZ (Z.of_N v).
Proof.
  intro Hv. destruct (N.eq_dec v 0) as [-> | Hne]; [reflexivity |].
  destruct (printWhole_parts v ltac:(lia)) as (s & t & Hs & _ & Hval & ->).
  rewrite <- decimalDigits_printZ, <- Hval.
  apply formatDigits_numeral; [exact Hs |].
  pose proof (decimalDigits_length 20 v Hv) as Hlen.
  rewrite <- Hval, decimalDigits_zeros, length_append in Hlen by exact Hs.
  assert (Hrep : forall j, String.length (JS.repeatChar "0" j) = j)
    by (induction j; cbn; congruence).
  rewrite Hrep in Hlen. lia.
Qed.

(** *** The exponent form *)

Lemma trimEnd_nonWhite (s : string) : JS.all nonWhite s = true -> JS.trimEnd s = s.
Proof.
  induction s as [| ch r IH]; [reflexivity |].
  cbn [JS.all JS.trimEnd]. intros Hall. apply andb_prop in Hall as [Hc Hr].
  rewrite (IH Hr). destruct r; [| reflexivity].
  unfold nonWhite in Hc. now destruct (JS.isWhiteSpace ch).
Qed.

Lemma trim_nonWhite (s : string) : JS.all nonWhite s = true -> JS.trim s = s.
Proof.
  intros Hall. unfold JS.trim.
  replace (JS.trimStart s) with s; [now apply trimEnd_nonWhite |].
  destruct s as [| ch r]; [reflexivity |]. cbn [JS.all JS.trimStart] in *.
  apply andb_prop in Hall as [Hc _]. unfold nonWhite in Hc.
  now destruct (JS.isWhiteSpace ch).
Qed.

Lemma digits_nonWhite (s : string) : JS.all JS.isDigit s = true -> JS.all nonWhite s = true.
Proof.
  induction s as [| ch r IH]; [reflexivity |].
  cbn [JS.all]. intros Hall. apply andb_prop in Hall as [Hc Hr].
  rewrite (IH Hr), andb_true_r. unfold nonWhite. now rewrite (digit_not_white ch Hc).
Qed.

Lemma scanDigits_prefix (d : uint) (ch : ascii) (r : string) :
  JS.isDigit ch = false ->
  JS.scanDigits (NilEmpty.string_of_uint d ++ String ch r) = (d, String ch r).
Proof.
  intro Hch.
  induction d; cbn [NilEmpty.string_of_uint append JS.scanDigits];
    try (now rewrite Hch);
    change (JS.isDigit _) with true; cbv iota; rewrite IHd; reflexivity.
Qed.

Lemma scanExponent_form (E : N) :
  JS.scanExponent ("e+" ++ decimalDigits E) = (Z.of_N E, "").
Proof.
  cbn [append JS.scanExponent]. change (JS.isExponentMark "e") with true. cbv iota.
  cbn [JS.scanSign]. rewrite decimalDigits_not_nil, scanDigits_string_of_uint.
  pose proof (to_uint_not_nil E) as Hnil.
  destruct (N.to_uint E) eqn:HE; [contradiction | ..];
    rewrite <- HE, DecimalN.Unsigned.of_to; reflexivity.
Qed.

Lemma all_string_of_uint_nonWhite (d : uint) :
  JS.all nonWhite (NilEmpty.string_of_uint d) = true.
Proof. apply digits_nonWhite, digits_string_of_uint. Qed.

(** What [Number] reads in the exponent form [c.fff e+E], or [c e+E] when
    there are no further digits. *)
Lemma numberLiteral_exponent (c : ascii) (fp : uint) (E : N) :
  JS.isDigit c = true -> c <> "0"%char ->
  JS.numberLiteral
    (String c ((match fp with
                | Nil => ""
                | _ => "." ++ NilEmpty.string_of_uint fp
                end) ++ "e+" ++ decimalDigits E))
  = JS.LDecimal false (N.of_uint (JS.digitOf c fp))
      (Z.of_N E - Z.of_nat (Decimal.nb_digits fp)).
Proof.
  intros Hc Hc0.
  set (tail := "e+" ++ decimalDigits E).
  set (rest := (match fp with
                | Nil => ""
                | _ => "." ++ NilEmpty.string_of_uint fp
                end) ++ tail).
  assert (Htail : JS.all nonWhite tail = true).
  { unfold tail. cbn [append JS.all]. rewrite decimalDigits_not_nil.
    now rewrite all_string_of_uint_nonWhite. }
  assert (Hrest : JS.all nonWhite rest = true).
  { unfold rest. rewrite all_app, Htail, andb_true_r.
    destruct fp; try reflexivity; cbn [append JS.all];
      rewrite all_string_of_uint_nonWhite; reflexivity. }
  assert (Hscan : JS.scanDigits rest = (Nil, rest)).
  { unfold rest, tail. destruct fp; reflexivity. }
  assert (Hfraction :
            match rest with
            | String "." r => JS.scanDigits r
            | _ => (Nil, rest)
            end = (fp, tail)).
  { destruct (uint_eq_dec fp Nil) as [-> | Hfp]; [reflexivity |].
    assert (Hmant : rest = String "." (NilEmpty.string_of_uint fp ++ tail))
      by (unfold rest; destruct fp; [contradiction | reflexivity ..]).
    rewrite Hmant. unfold tail. cbn [append]. now apply scanDigits_prefix. }
  unfold JS.numberLiteral.
  rewrite trim_nonWhite
    by (cbn [JS.all]; rewrite Hrest, andb_true_r; unfold nonWhite;
        now rewrite (digit_not_white c Hc)).
  assert (Hradix : JS.radixOfPrefix (String c rest) = None).
  { unfold JS.radixOfPrefix. revert Hc Hc0. by_bits c; intros; try reflexivity.
    exfalso. now apply Hc0. }
  rewrite Hradix. unfold JS.scanDecimalLiteral.
  rewrite (digit_no_sign c rest Hc), (digit_not_Infinity c rest Hc).
  cbn [JS.scanDigits]. rewrite Hc, Hscan, Hfraction.
  pose proof (digitOf_not_nil c Nil) as Hip.
  assert (Happ : Decimal.app (JS.digitOf c Nil) fp = JS.digitOf c fp).
  { unfold JS.digitOf.
    repeat match goal with
           | |- context [match ?x with _ => _ end] => destruct x
           end; reflexivity. }
  unfold tail. rewrite scanExponent_form, Happ.
  destruct (JS.digitOf c Nil); [contradiction | ..]; reflexivity.
Qed.

Lemma length_string_of_uint (d : uint) :
  String.length (NilEmpty.string_of_uint d) = Decimal.nb_digits d.
Proof. induction d; cbn [NilEmpty.string_of_uint String.length Decimal.nb_digits]; congruence. Qed.

Lemma uint_head (u : uint) :
  u <> Nil ->
  exists (c : ascii) (fp : uint),
    JS.isDigit c = true
    /\ u = JS.digitOf c fp
    /\ NilEmpty.string_of_uint u = String c (NilEmpty.string_of_uint fp)
    /\ (c = "0"%char -> u = D0 fp).
Proof.
  intro Hu.
  destruct u as [| fp | fp | fp | fp | fp | fp | fp | fp | fp | fp]; [contradiction | ..].
  - exists "0"%char, fp. repeat split; reflexivity.
  - exists "1"%char, fp. repeat split; try reflexivity; discriminate.
  - exists "2"%char, fp. repeat split; try reflexivity; discriminate.
  - exists "3"%char, fp. repeat split; try reflexivity; discriminate.
  - exists "4"%char, fp. repeat split; try reflexivity; discriminate.
  - exists "5"%char, fp. repeat split; try reflexivity; discriminate.
  - exists "6"%char, fp. repeat split; try reflexivity; discriminate.
  - exists "7"%char, fp. repeat split; try reflexivity; discriminate.
  - exists "8"%char, fp. repeat split; try reflexivity; discriminate.
  - exists "9"%char, fp. repeat split; try reflexivity; discriminate.
Qed.

(** A whole number prints as its numeral, or in the exponent form when it
    has more than 21 digits. *)
Lemma printWhole_forms (v : N) :
  printWhole v = printZ (Z.of_N v)
  \/ exists (c : ascii) (fp : uint) (E : N) (t : nat),
       JS.isDigit c = true /\ c <> "0"%char
       /\ printWhole v
          = String c ((match fp with
                       | Nil => ""
                       | _ => "." ++ NilEmpty.string_of_uint fp
                       end) ++ "e+" ++ decimalDigits E)
       /\ (Z.of_N E - Z.of_nat (Decimal.nb_digits fp) = Z.of_nat t)%Z
       /\ N.of_uint (JS.digitOf c fp) * 10 ^ N.of_nat t = v.
Proof.
  destruct (N.eq_dec v 0) as [-> | Hne]; [now left |].
  destruct (printWhole_parts v ltac:(lia)) as (s & t & Hs & _ & Hval & Hprint).
  destruct (Nat.le_gt_cases (String.length (decimalDigits s) + t) 21) as [Hshort | Hlong].
  { left. rewrite Hprint, <- decimalDigits_printZ, <- Hval.
    now apply formatDigits_numeral. }
  right. rewrite Hprint. clear Hprint.
  destruct (to_uint_head s Hs) as (d & l & Hlist & Hd).
  destruct (uint_head (N.to_uint s) (to_uint_not_nil s)) as (c & fp & Hc & Huint & Hstring & Hzero).
  assert (Hc0 : c <> "0"%char).
  { intro Heq. rewrite (Hzero Heq) in Hlist. cbn in Hlist. injection Hlist as Hhead _.
    now apply Hd. }
  assert (Hdigits : decimalDigits s = String c (NilEmpty.string_of_uint fp))
    by now rewrite decimalDigits_not_nil.
  rewrite Hdigits in Hlong |- *. cbn [String.length] in Hlong |- *.
  rewrite length_string_of_uint in Hlong |- *.
  set (k := Z.of_nat (S (Decimal.nb_digits fp))) in *.
  exists c, fp, (Z.abs_N (k + Z.of_nat t - 1)), t.
  split; [exact Hc |]. split; [exact Hc0 |].
  split; [| split; [unfold k; lia |]].
  - unfold formatDigits. rewrite Hdigits.
    destruct (Z.leb_spec (k + Z.of_nat t) 21) as [Hle | _]; [lia |].
    rewrite !andb_false_r.
    destruct (Z.leb_spec (k + Z.of_nat t) 0) as [Hle | _]; [lia |].
    rewrite !andb_false_r.
    destruct (Z.ltb_spec (k + Z.of_nat t - 1) 0) as [Hlt | _]; [lia |].
    destruct (Z.eqb_spec k 1) as [Hk1 | Hk1].
    + assert (Hnil : fp = Nil) by (destruct fp; [reflexivity | cbn in Hk1; lia ..]).
      subst fp. reflexivity.
    + assert (Hfp : fp <> Nil) by (intros ->; apply Hk1; reflexivity).
      destruct fp; [contradiction | reflexivity ..].
  - rewrite <- Huint, DecimalN.Unsigned.of_to. exact Hval.
Qed.

Lemma includesChar_app (s1 s2 : string) (ch : ascii) :
  JS.includesChar (s1 ++ s2) ch = JS.includesChar s1 ch || JS.includesChar s2 ch.
Proof.
  induction s1 as [| d r IH]; [reflexivity |].
  cbn [append JS.includesChar]. now rewrite IH, orb_assoc.
Qed.

Lemma padStart_long (n : nat) (ch : ascii) (s : string) :
  (n <= String.length s)%nat -> JS.padStart n ch s = s.
Proof.
  intro Hlen. unfold JS.padStart. replace (n - String.length s)%nat with 0%nat by lia.
  reflexivity.
Qed.

(** [Number] reads what [toString] writes for a whole number, also behind
    the zero that [padStart] adds. *)
Lemma padded_printWhole (v : N) :
  JS.includesChar (JS.padStart 2 "0" (printWhole v)) ":" = false
  /\ forall (num : Type) (JN : JSNumber num),
       Number (num := num) (JS.padStart 2 "0" (printWhole v)) = ofZ (Z.of_N v).
Proof.
  destruct (printWhole_forms v) as [Hnumeral | (c & fp & E & t & Hc & Hc0 & Hform & Hexp & Hval)].
  - rewrite Hnumeral.
    change (JS.padStart 2 "0" (printZ (Z.of_N v)))
      with (numeral (2 - String.length (printZ (Z.of_N v))) v).
    split; [apply numeral_without_colon |]. intros num JN. apply Number_numeral_whole.
  - rewrite Hform. rewrite padStart_long.
    2:{ cbn [String.length]. rewrite length_append. cbn [append String.length]. lia. }
    split.
    + cbn [JS.includesChar]. rewrite (digit_not_colon c Hc). cbn [orb].
      rewrite includesChar_app. cbn [append JS.includesChar Ascii.eqb Bool.eqb orb].
      rewrite decimalDigits_not_nil.
      rewrite (digits_without_colon _ (digits_string_of_uint _)), orb_false_r.
      destruct fp; try reflexivity; cbn [append JS.includesChar];
        change (Ascii.eqb "." ":") with false; cbn [orb];
        apply digits_without_colon, digits_string_of_uint.
    + intros num JN. unfold Number. rewrite (numberLiteral_exponent c fp E Hc Hc0).
      cbn [ofLiteral]. rewrite Hexp, ofDecimal_whole by lia. do 2 f_equal.
      rewrite <- Hval. do 2 f_equal. lia.
Qed.
End PrintWhole.

(** ** The duration codec *)

Lemma parseTime_three (f0 f1 f2 : string) :
  JS.includesChar f0 ":" = false -> JS.includesChar f1 ":" = false ->
  JS.includesChar f2 ":" = false ->
  forall (num : Type) (JN : JSNumber num),
    parseTime (num := num) (f0 ++ ":" ++ f1 ++ ":" ++ f2)
    = nadd (nadd (nmul (Number f0) (ofZ 3600)) (nmul (Number f1) (ofZ 60))) (Number f2).
Proof.
  intros H0 H1 H2 num JN. unfold parseTime.
  change (f0 ++ ":" ++ f1 ++ ":" ++ f2) with (f0 ++ String ":" (f1 ++ String ":" f2)).
  now rewrite (split_at_separator ":" f0 _ H0), (split_at_separator ":" f1 _ H1),
    (split_without_separator ":" f2 H2).
Qed.

Lemma parseTime_two (f0 f1 : string) :
  JS.includesChar f0 ":" = false -> JS.includesChar f1 ":" = false ->
  forall (num : Type) (JN : JSNumber num),
    parseTime (num := num) (f0 ++ ":" ++ f1)
    = nadd (nmul (Number f0) (ofZ 60)) (Number f1).
Proof.
  intros H0 H1 num JN. unfold parseTime.
  change (f0 ++ ":" ++ f1) with (f0 ++ String ":" f1).
  now rewrite (split_at_separator ":" f0 _ H0), (split_without_separator ":" f1 H1).
Qed.

Lemma includesChar_count ch s : countChar ch s = 0 -> JS.includesChar s ch = false.
Proof.
  induction s as [| d r IH]; [reflexivity |].
  cbn [countChar JS.includesChar]. destruct (Ascii.eqb d ch); [discriminate |].
  exact IH.
Qed.

Lemma parseTime_numerals (zh zm zs : nat) (h m s : N) :
  parseTime (numeral zh h ++ ":" ++ numeral zm m ++ ":" ++ numeral zs s)
  = XFin (IZR (Z.of_N (h * 3600 + m * 60 + s))).
Proof.
  rewrite parseTime_three by apply numeral_without_colon.
  rewrite !Number_numeral, !xreal_ofZ.
  cbn [nadd nmul js_arith xreal_JSNumber xreal_Arith xadd xmul].
  f_equal. rewrite !N2Z.inj_add, !N2Z.inj_mul, !plus_IZR, !mult_IZR. reflexivity.
Qed.

(** C7, amended.  In exact arithmetic with NaN: [parseTime] maps the
    numerals [H:M:S] to [H*3600 + M*60 + S], the numerals [M:S] to
    [M*60 + S], and a string without colon to the number it denotes.  A
    string of four or more fields gives 0.  A string of one to three fields
    of which one does not denote a number gives NaN.  ([parseTime] is a
    function to numbers: there is no error.) *)
Theorem parseTime_by_fields :
  (forall (zh zm zs : nat) (h m s : N),
      parseTime (numeral zh h ++ ":" ++ numeral zm m ++ ":" ++ numeral zs s)
      = XFin (IZR (Z.of_N (h * 3600 + m * 60 + s))))
  /\ (forall (zm zs : nat) (m s : N),
         parseTime (numeral zm m ++ ":" ++ numeral zs s)
         = XFin (IZR (Z.of_N (m * 60 + s))))
  /\ (forall str : string,
         countChar ":" str = 0 -> parseTime (num := xreal) str = Number str)
  /\ (forall str : string,
         3 <= countChar ":" str -> parseTime (num := xreal) str = XFin 0)
  /\ (forall str : string,
         countChar ":" str <= 2 ->
         Exists (fun field => Number (num := xreal) field = XNaN) (JS.split ":" str) ->
         parseTime (num := xreal) str = XNaN).
Proof.
  split; [| split; [| split; [| split]]].
  - exact parseTime_numerals.
  - intros zm zs m s.
    rewrite parseTime_two by apply numeral_without_colon.
    rewrite !Number_numeral, !xreal_ofZ. cbn [nadd nmul js_arith xreal_JSNumber xreal_Arith xadd xmul].
    f_equal. rewrite !N2Z.inj_add, !N2Z.inj_mul, !plus_IZR, !mult_IZR. reflexivity.
  - intros str Hcount. unfold parseTime.
    now rewrite (split_without_separator ":" str (includesChar_count ":" str Hcount)).
  - intros str Hcount. unfold parseTime.
    pose proof (split_length ":" str) as Hlen.
    rewrite <- (length_map (Number (num := xreal))) in Hlen.
    destruct (map Number (JS.split ":" str)) as [| p0 [| p1 [| p2 [| p3 rest]]]];
      cbn [List.length] in Hlen; try lia.
    apply xreal_ofZ.
  - intros str Hcount Hnan. unfold parseTime.
    pose proof (split_length ":" str) as Hlen.
    apply (proj2 (Exists_map (Number (num := xreal)) (fun x : xreal => x = XNaN)
                             (JS.split ":" str))) in Hnan.
    rewrite <- (length_map (Number (num := xreal))) in Hlen.
    destruct (map Number (JS.split ":" str)) as [| p0 [| p1 [| p2 [| p3 rest]]]];
      cbn [List.length] in Hlen; try lia;
      cbn [nadd nmul js_arith xreal_JSNumber xreal_Arith];
      repeat match goal with
             | H : Exists _ (_ :: _) |- _ => apply Exists_cons in H as [H | H]
             | H : Exists _ [] |- _ => apply Exists_nil in H; contradiction
             end; subst;
      rewrite ?xmul_NaN_r, ?xadd_NaN_r; try reflexivity.
Qed.

Lemma parseTime_by_fields_witness :
  parseTime (num := xreal) "1:2:3:4" = XFin 0
  /\ parseTime (num := xreal) "12:xx" = XNaN.
Proof.
  destruct parseTime_by_fields as (_ & _ & _ & Hmany & Hnan).
  split.
  - apply Hmany. cbn. lia.
  - apply Hnan; [cbn; lia |].
    apply Exists_cons_tl, Exists_cons_hd. reflexivity.
Defined.

(** C7, as stated, fails: ["abc"] is in none of the recognized formats, and
    [parseTime] run in binary64 returns NaN for it, not 0. *)
Lemma parseTime_unrecognized_counterexample :
  parseTime "abc" <> (ofZ 0 : float)
  /\ isNaN (parseTime "abc" : float) = true.
Proof.
  split; [| reflexivity].
  intro Heq.
  assert (E : is_nan (parseTime "abc" : float) = true) by reflexivity.
  rewrite Heq in E. vm_compute in E. discriminate E.
Qed.

Lemma formatTime_whole (printFraction : R -> string) (n : N) :
  @formatTime xreal _ (xreal_Printing printFraction) (ofZ (Z.of_N n))
  = JS.padStart 2 "0" (printWhole (n / 3600)) ++ ":"
    ++ JS.padStart 2 "0" (printZ (Z.of_N (n mod 3600 / 60))) ++ ":"
    ++ JS.padStart 2 "0" (printZ (Z.of_N (n mod 60))).
Proof.
  unfold formatTime. rewrite !xreal_ofZ.
  cbn [floor nrem toString xreal_Printing ndiv js_arith xreal_JSNumber xreal_Arith].
  rewrite (xrem_integers (Z.of_N n) 3600), (xrem_integers (Z.of_N n) 60) by lia.
  rewrite !xfloor_quotient by lia.
  cbn [xfloor]. rewrite (Int_part_IZR (Z.of_N n mod 60)).
  replace (Z.of_N n / 3600)%Z with (Z.of_N (n / 3600))
    by now rewrite N2Z.inj_div.
  replace (Z.of_N n mod 3600 / 60)%Z with (Z.of_N (n mod 3600 / 60))
    by now rewrite N2Z.inj_div, N2Z.inj_mod.
  replace (Z.of_N n mod 60)%Z with (Z.of_N (n mod 60))
    by now rewrite N2Z.inj_mod.
  rewrite !xtoString_natural.
  assert (H21 : (10 ^ 21 = 1000000000000000000000)%N) by reflexivity.
  rewrite (printWhole_small (n mod 3600 / 60)), (printWhole_small (n mod 60));
    [reflexivity | ..]; rewrite H21; zify; Z.to_euclidean_division_equations; lia.
Qed.

(** Below [10^21] hours the three fields are decimal numerals. *)
Lemma formatTime_natural (printFraction : R -> string) (n : N) :
  (n / 3600 < 10 ^ 21)%N ->
  @formatTime xreal _ (xreal_Printing printFraction) (ofZ (Z.of_N n))
  = JS.padStart 2 "0" (printZ (Z.of_N (n / 3600))) ++ ":"
    ++ JS.padStart 2 "0" (printZ (Z.of_N (n mod 3600 / 60))) ++ ":"
    ++ JS.padStart 2 "0" (printZ (Z.of_N (n mod 60))).
Proof. intro Hn. now rewrite formatTime_whole, printWhole_small. Qed.

Lemma padStart_length (n : nat) (ch : ascii) (s : string) :
  String.length (JS.padStart n ch s) = Nat.max n (String.length s).
Proof.
  unfold JS.padStart.
  assert (Hrep : forall k, String.length (JS.repeatChar ch k) = k)
    by (induction k; cbn; congruence).
  rewrite length_append, Hrep. lia.
Qed.

(** In exact arithmetic the text of a whole number of seconds reads back
    to that number, in whichever form the hours are written. *)
Lemma parseTime_formatTime_natural (printFraction : R -> string) (n : N) :
  parseTime (@formatTime xreal _ (xreal_Printing printFraction) (ofZ (Z.of_N n)))
  = XFin (IZR (Z.of_N n)).
Proof.
  rewrite formatTime_whole.
  destruct (padded_printWhole (n / 3600)) as [Hcolon Hnumber].
  change (JS.padStart 2 "0" (printZ (Z.of_N (n mod 3600 / 60))))
    with (numeral (2 - String.length (printZ (Z.of_N (n mod 3600 / 60)))) (n mod 3600 / 60)).
  change (JS.padStart 2 "0" (printZ (Z.of_N (n mod 60))))
    with (numeral (2 - String.length (printZ (Z.of_N (n mod 60)))) (n mod 60)).
  rewrite parseTime_three by (exact Hcolon || apply numeral_without_colon).
  rewrite Hnumber, !Number_numeral, !xreal_ofZ.
  cbn [nadd nmul js_arith xreal_JSNumber xreal_Arith xadd xmul].
  f_equal. rewrite <- !mult_IZR, <- !plus_IZR. f_equal.
  zify. Z.to_euclidean_division_equations. lia.
Qed.

(** *** The duration codec in binary64 *)

Section DurationBinary64.
Local Open Scope Z_scope.

Lemma formatTime_b64_whole (n : N) :
  (n < 2 ^ 53)%N ->
  formatTime (ofZ (Z.of_N n) : float)
  = (JS.padStart 2 "0" (printZ (Z.of_N (n / 3600))) ++ ":"
     ++ JS.padStart 2 "0" (printZ (Z.of_N (n mod 3600 / 60))) ++ ":"
     ++ JS.padStart 2 "0" (printZ (Z.of_N (n mod 60))))%string.
Proof.
  intro Hn.
  assert (H53 : (2 ^ 53 = 9007199254740992)%N) by reflexivity.
  assert (H53z : 2 ^ 53 = 9007199254740992) by reflexivity.
  assert (H52 : (2 ^ 52 = 4503599627370496)%N) by reflexivity.
  assert (Hz : 0 <= Z.of_N n < 2 ^ 53) by lia.
  unfold formatTime.
  cbn [floor nrem toString b64_Printing ndiv js_arith b64_JSNumber b64_Arith].
  rewrite (b64_rem_whole (Z.of_N n) 3600), (b64_rem_whole (Z.of_N n) 60) by lia.
  rewrite (b64_floor_div_whole (Z.of_N n) 3600) by lia.
  rewrite (b64_floor_div_whole (Z.of_N n mod 3600) 60)
    by (pose proof (Z.mod_pos_bound (Z.of_N n) 3600); lia).
  rewrite (b64_floor_whole (Z.of_N n mod 60))
    by (pose proof (Z.mod_pos_bound (Z.of_N n) 60); lia).
  replace (Z.of_N n / 3600) with (Z.of_N (n / 3600)) by now rewrite N2Z.inj_div.
  replace (Z.of_N n mod 3600 / 60) with (Z.of_N (n mod 3600 / 60))
    by now rewrite N2Z.inj_div, N2Z.inj_mod.
  replace (Z.of_N n mod 60) with (Z.of_N (n mod 60)) by now rewrite N2Z.inj_mod.
  rewrite !b64_toString_whole, !decimalDigits_printZ; [reflexivity | ..].
  all: rewrite H52; zify; Z.to_euclidean_division_equations; lia.
Qed.

Lemma parseTime_numerals_b64 (zh zm zs : nat) (h m s : N) :
  (h * 3600 + m * 60 + s < 2 ^ 53)%N ->
  parseTime (numeral zh h ++ ":" ++ numeral zm m ++ ":" ++ numeral zs s)%string
  = (ofZ (Z.of_N (h * 3600 + m * 60 + s)) : float).
Proof.
  intro Hn.
  assert (H53 : (2 ^ 53 = 9007199254740992)%N) by reflexivity.
  assert (H53z : 2 ^ 53 = 9007199254740992) by reflexivity.
  rewrite parseTime_three by apply numeral_without_colon.
  rewrite !Number_numeral_whole.
  cbn [nadd nmul js_arith b64_JSNumber b64_Arith].
  rewrite (b64_mul_whole (Z.of_N h) 3600), (b64_mul_whole (Z.of_N m) 60) by lia.
  rewrite !b64_add_whole by lia.
  f_equal. lia.
Qed.

Lemma b64_strictEq_whole (n : N) :
  (n < 2 ^ 53)%N -> strictEq (ofZ (Z.of_N n) : float) (ofZ (Z.of_N n)) = true.
Proof.
  intro Hn. assert (H53 : (2 ^ 53 = 9007199254740992)%N) by reflexivity.
  assert (H53z : 2 ^ 53 = 9007199254740992) by reflexivity.
  destruct (N.eq_dec n 0) as [-> | Hne]; [reflexivity |].
  cbn [strictEq b64_JSNumber]. rewrite b64_eqb_whole by lia. apply Z.eqb_refl.
Qed.

Lemma parseTime_padded_b64 (n : N) :
  (n < 2 ^ 53)%N ->
  parseTime (JS.padStart 2 "0" (printZ (Z.of_N (n / 3600))) ++ ":"
             ++ JS.padStart 2 "0" (printZ (Z.of_N (n mod 3600 / 60))) ++ ":"
             ++ JS.padStart 2 "0" (printZ (Z.of_N (n mod 60))))%string
  = (ofZ (Z.of_N n) : float).
Proof.
  intro Hn.
  change (parseTime
            (numeral (2 - String.length (printZ (Z.of_N (n / 3600)))) (n / 3600)
             ++ ":" ++ numeral (2 - String.length (printZ (Z.of_N (n mod 3600 / 60))))
                               (n mod 3600 / 60)
             ++ ":" ++ numeral (2 - String.length (printZ (Z.of_N (n mod 60)))) (n mod 60))%string
          = (ofZ (Z.of_N n) : float)).
  assert (Hsum : (n / 3600 * 3600 + n mod 3600 / 60 * 60 + n mod 60 = n)%N)
    by (zify; Z.to_euclidean_division_equations; lia).
  rewrite parseTime_numerals_b64 by (rewrite Hsum; exact Hn).
  now rewrite Hsum.
Qed.
End DurationBinary64.

(** C10, amended.  In exact arithmetic, for every natural number of
    seconds, [parseTime] reads the text of [formatTime] back to the number
    of seconds; and when the hours are below [10^21] the text is the hours,
    the minutes within the hour and the seconds within the minute, each as
    a decimal numeral padded with zeros to two characters at least and never
    cut (a field is as long as its numeral when that has more than two
    digits), with colons in between.  (From [10^21] hours on [toString]
    writes the hours in the exponent form.)  In binary64 the same holds for
    every whole number of seconds up to [2^53]: [formatTime] writes that
    text, and [parseTime] reads it back to the number of seconds. *)
Theorem parseTime_formatTime :
  (forall (printFraction : R -> string) (n : N),
      let seconds : xreal := ofZ (Z.of_N n) in
      let text := @formatTime xreal _ (xreal_Printing printFraction) seconds in
      parseTime text = seconds
      /\ ((n / 3600 < 10 ^ 21)%N ->
          let hours := printZ (Z.of_N (n / 3600)) in
          text = JS.padStart 2 "0" hours ++ ":"
                 ++ JS.padStart 2 "0" (printZ (Z.of_N (n mod 3600 / 60))) ++ ":"
                 ++ JS.padStart 2 "0" (printZ (Z.of_N (n mod 60)))
          /\ String.length (JS.padStart 2 "0" hours) = Nat.max 2 (String.length hours)))
  /\ (forall n : N,
        (n <= 2 ^ 53)%N ->
        let seconds : float := ofZ (Z.of_N n) in
        let text := formatTime seconds in
        text = JS.padStart 2 "0" (printZ (Z.of_N (n / 3600))) ++ ":"
               ++ JS.padStart 2 "0" (printZ (Z.of_N (n mod 3600 / 60))) ++ ":"
               ++ JS.padStart 2 "0" (printZ (Z.of_N (n mod 60)))
        /\ parseTime text = seconds
        /\ strictEq (parseTime text) seconds = true).
Proof.
  split.
  - intros printFraction n seconds text. split.
    + unfold text, seconds. now rewrite parseTime_formatTime_natural, xreal_ofZ.
    + intros Hn hours. split; [now apply formatTime_natural | apply padStart_length].
  - intros n Hn seconds text.
    destruct (N.eq_dec n (2 ^ 53)) as [-> | Hne].
    + repeat split; vm_compute; reflexivity.
    + assert (Hlt : (n < 2 ^ 53)%N) by lia.
      assert (Htext : text
                      = JS.padStart 2 "0" (printZ (Z.of_N (n / 3600))) ++ ":"
                        ++ JS.padStart 2 "0" (printZ (Z.of_N (n mod 3600 / 60))) ++ ":"
                        ++ JS.padStart 2 "0" (printZ (Z.of_N (n mod 60))))
        by now apply formatTime_b64_whole.
      split; [exact Htext |].
      assert (Hback : parseTime text = seconds)
        by (rewrite Htext; now apply parseTime_padded_b64).
      split; [exact Hback |]. rewrite Hback. now apply b64_strictEq_whole.
Qed.

Lemma parseTime_formatTime_witness :
  formatTime (ofZ 3661 : float) = "01:01:01"
  /\ strictEq (parseTime (formatTime (ofZ 3661 : float))) (ofZ 3661 : float) = true.
Proof.
  destruct parseTime_formatTime as [_ Hbinary64].
  assert (Hle : (3661 <= 2 ^ 53)%N) by (apply N.leb_le; reflexivity).
  destruct (Hbinary64 3661%N Hle) as (Htext & _ & Hsame).
  split; [exact Htext | exact Hsame].
Defined.

(** C10, as stated, fails in binary64: 288230376151709984 is a whole number
    of seconds that binary64 holds exactly (it is [9007199254740937 * 2^5]);
    its quotient by 3600 is rounded up to the next integer, so [formatTime]
    writes one hour too many, and [parseTime] reads the text back to another
    number. *)
Lemma parseTime_formatTime_binary64_counterexample :
  let seconds : float := ofZ 288230376151709984 in
  Prim2SF seconds = S754_finite false 9007199254740937 5
  /\ (9007199254740937 * 2 ^ 5 = 288230376151709984)%Z
  /\ formatTime seconds = "80063993375475:59:44"
  /\ toString (parseTime (num := float) "80063993375475:59:44") = "288230376151713600"
  /\ strictEq (parseTime (formatTime seconds)) seconds = false.
Proof. repeat split; vm_compute; reflexivity. Qed.

(** ** Vertex attributes of a 3MF mesh *)

Lemma parseFloat_zero (num : Type) (JN : JSNumber num) :
  parseFloat (num := num) "0" = ofZ 0.
Proof. reflexivity. Qed.

Lemma parseFloatLiteral_not_numeric (text : string) :
  startsNumeric text = false -> JS.parseFloatLiteral text = JS.LNaN.
Proof.
  unfold startsNumeric, JS.parseFloatLiteral.
  destruct (JS.trimStart text) as [| ch rest]; [reflexivity |].
  by_bits ch.
Qed.

Lemma readVertex_coordinate (num : Type) (JN : JSNumber num) (vertex : Element) (axis : Axis) :
  coordinate axis (readVertex (num := num) vertex)
  = parseFloat (JS.orDefault (getAttribute vertex (axisName axis)) "0").
Proof. now destruct axis. Qed.

(** C8, amended.  For every [vertex] element and each of its coordinates:
    the coordinate is 0 when the attribute is absent or is the empty
    string; otherwise it is what [parseFloat] reads in the attribute, and
    that is NaN when the attribute does not start, after white space, with a
    digit, a sign, a point or [I]. *)
Theorem readVertex_attribute_defaults :
  forall (num : Type) (JN : JSNumber num) (vertex : Element) (axis : Axis),
    (getAttribute vertex (axisName axis) = None ->
     coordinate axis (readVertex (num := num) vertex) = ofZ 0)
    /\ (getAttribute vertex (axisName axis) = Some "" ->
        coordinate axis (readVertex (num := num) vertex) = ofZ 0)
    /\ (forall text : string,
           text <> "" -> getAttribute vertex (axisName axis) = Some text ->
           coordinate axis (readVertex (num := num) vertex) = parseFloat text)
    /\ (forall text : string,
           text <> "" -> startsNumeric text = false ->
           getAttribute vertex (axisName axis) = Some text ->
           coordinate axis (readVertex (num := num) vertex) = NaN).
Proof.
  intros num JN vertex axis. rewrite readVertex_coordinate.
  split; [| split; [| split]].
  - intros ->. apply parseFloat_zero.
  - intros ->. apply parseFloat_zero.
  - intros text Hne ->. destruct text; [contradiction | reflexivity].
  - intros text Hne Hstart ->. destruct text; [contradiction |].
    cbn [JS.orDefault]. unfold parseFloat.
    now rewrite (parseFloatLiteral_not_numeric _ Hstart).
Qed.

Lemma readVertex_attribute_defaults_witness :
  coordinate AxisX (readVertex (num := float) unparsableVertex) = NaN
  /\ coordinate AxisY (readVertex (num := float) (Elem "vertex" [("x", "1")] [])) = ofZ 0.
Proof.
  split.
  - destruct (readVertex_attribute_defaults float _ unparsableVertex AxisX)
      as (_ & _ & _ & Hnan).
    apply (Hnan "abc"); [discriminate | reflexivity | reflexivity].
  - destruct (readVertex_attribute_defaults float _ (Elem "vertex" [("x", "1")] []) AxisY)
      as (Habsent & _).
    apply Habsent. reflexivity.
Defined.

(** C8, as stated, fails: the attribute [x="abc"] does not parse as a
    number, and the coordinate read from it in binary64 is NaN, not 0. *)
Lemma readVertex_unparsable_counterexample :
  coordinate AxisX (readVertex (num := float) unparsableVertex) <> ofZ 0
  /\ isNaN (coordinate AxisX (readVertex (num := float) unparsableVertex)) = true.
Proof.
  split; [| reflexivity].
  intro Heq.
  assert (E : is_nan (coordinate AxisX (readVertex (num := float) unparsableVertex)) = true)
    by reflexivity.
  rewrite Heq in E. vm_compute in E. discriminate E.
Qed.

(** ** Empty and header-only STL input *)

Section EmptyInput.
Context {num : Type} {JN : JSNumber num}.
Variable loadZip : ArrayBuffer -> result (list (string * string)).
Variable decodeUtf8 : ArrayBuffer -> string.
Variable parseXML : string -> Element.

Lemma parseASCIILine_keeps_triangles (st : ASCIIState (num := num)) (line : string) :
  JS.startsWith (JS.trim line) "vertex" = false ->
  triangles (parseASCIILine st line) = triangles st.
Proof.
  intro Hline. unfold parseASCIILine. rewrite Hline.
  now destruct (JS.startsWith (JS.trim line) "endfacet").
Qed.

Lemma parseASCIISTL_without_vertex_lines (content : string) :
  withoutVertexLines content -> parseASCIISTL (num := num) content = [].
Proof.
  unfold withoutVertexLines, parseASCIISTL.
  assert (Hgen : forall lines (st : ASCIIState (num := num)),
             Forall (fun line => JS.startsWith (JS.trim line) "vertex" = false) lines ->
             triangles (fold_left parseASCIILine lines st) = triangles st).
  { induction lines as [| line lines IH]; intros st Hall; [reflexivity |].
    inversion Hall; subst. cbn [fold_left]. rewrite IH by assumption.
    now apply parseASCIILine_keeps_triangles. }
  intro Hall. now rewrite (Hgen _ _ Hall).
Qed.

Lemma parseBinarySTL_short (buffer : ArrayBuffer) :
  byteLength buffer < 84 -> parseBinarySTL (num := num) buffer = Throw RangeError.
Proof.
  intro Hlen. unfold parseBinarySTL, getUint32.
  destruct (Nat.leb_spec (80 + 4) (byteLength buffer)) as [Hle | Hgt]; [lia | reflexivity].
Qed.

Lemma parseBinarySTL_zero_count (buffer : ArrayBuffer) :
  84 <= byteLength buffer ->
  byteAt buffer 80 = 0%N -> byteAt buffer 81 = 0%N ->
  byteAt buffer 82 = 0%N -> byteAt buffer 83 = 0%N ->
  parseBinarySTL (num := num) buffer = Return [].
Proof.
  intros Hlen H0 H1 H2 H3. unfold parseBinarySTL, getUint32.
  destruct (Nat.leb_spec (80 + 4) (byteLength buffer)) as [Hle | Hgt]; [| lia].
  cbn [Nat.add]. rewrite H0, H1, H2, H3. reflexivity.
Qed.

Lemma processFile_stl_without_triangles (unit : STLUnit) (file : File) (buffer : ArrayBuffer) :
  arrayBuffer file = Return buffer ->
  JS.endsWith (JS.toLowerCase (name file)) ".stl" = true ->
  (if isASCIISTL buffer
   then parseASCIISTL (num := num) (decodeAscii buffer) = []
   else parseBinarySTL (num := num) buffer = Return []
        \/ parseBinarySTL (num := num) buffer = Throw RangeError) ->
  processFile loadZip decodeUtf8 parseXML unit file = None.
Proof.
  intros Hbuffer Hstl Hparse. unfold processFile, processFileBody.
  rewrite Hbuffer, Hstl. destruct (isASCIISTL buffer).
  - now rewrite Hparse.
  - destruct Hparse as [-> | ->]; reflexivity.
Qed.

(** C4, amended.  [parseASCIISTL] returns no triangle for the empty text
    and for a text without vertex lines.  [parseBinarySTL] returns no
    triangle for a buffer of 84 bytes or more whose count field is zero;
    for a buffer of fewer than 84 bytes, the empty one among them, it throws
    a RangeError.  In each of these cases [processFile] answers [null] for
    the file. *)
Theorem stl_empty_or_header_only :
  parseASCIISTL (num := num) "" = []
  /\ (forall content : string,
         withoutVertexLines content -> parseASCIISTL (num := num) content = [])
  /\ (forall buffer : ArrayBuffer,
         84 <= byteLength buffer ->
         byteAt buffer 80 = 0%N -> byteAt buffer 81 = 0%N ->
         byteAt buffer 82 = 0%N -> byteAt buffer 83 = 0%N ->
         parseBinarySTL (num := num) buffer = Return [])
  /\ (forall buffer : ArrayBuffer,
         byteLength buffer < 84 ->
         parseBinarySTL (num := num) buffer = Throw RangeError)
  /\ (forall (unit : STLUnit) (file : File) (buffer : ArrayBuffer),
         arrayBuffer file = Return buffer ->
         JS.endsWith (JS.toLowerCase (name file)) ".stl" = true ->
         (if isASCIISTL buffer
          then parseASCIISTL (num := num) (decodeAscii buffer) = []
          else parseBinarySTL (num := num) buffer = Return []
               \/ parseBinarySTL (num := num) buffer = Throw RangeError) ->
         processFile loadZip decodeUtf8 parseXML unit file = None).
Proof.
  split; [reflexivity |].
  split; [exact parseASCIISTL_without_vertex_lines |].
  split; [exact parseBinarySTL_zero_count |].
  split; [exact parseBinarySTL_short |].
  exact processFile_stl_without_triangles.
Qed.
End EmptyInput.

Lemma stl_empty_or_header_only_witness :
  parseBinarySTL (num := float) headerOnlyBinary = Return []
  /\ parseBinarySTL (num := float) "" = Throw RangeError
  /\ processFile (num := float) (fun _ => Throw (Error "no archive")) (fun b => b)
       (fun _ => Elem "" [] []) mm (mkFile "part.stl" (Return "")) = None
  /\ processFile (num := float) (fun _ => Throw (Error "no archive")) (fun b => b)
       (fun _ => Elem "" [] []) mm (mkFile "part.stl" (Return headerOnlyBinary)) = None.
Proof.
  destruct (stl_empty_or_header_only (num := float) (fun _ => Throw (Error "no archive"))
              (fun b => b) (fun _ => Elem "" [] []))
    as (_ & _ & Hheader & Hshort & Hcaller).
  split; [apply Hheader; [vm_compute; lia | reflexivity ..] |].
  split; [apply Hshort; vm_compute; lia |].
  split.
  - apply (Hcaller mm _ ""); [reflexivity | reflexivity |].
    right. apply Hshort. vm_compute; lia.
  - apply (Hcaller mm _ headerOnlyBinary); [reflexivity | reflexivity |].
    left. apply Hheader; [vm_compute; lia | reflexivity ..].
Defined.

(** C4, as stated, fails: for the empty buffer [parseBinarySTL] does not
    return an empty list; reading the count at offset 80 throws a
    RangeError. *)
Lemma parseBinarySTL_empty_buffer_counterexample :
  parseBinarySTL (num := float) "" <> Return []
  /\ parseBinarySTL (num := float) "" = Throw RangeError.
Proof. split; [discriminate | reflexivity]. Qed.

(** ** Batches of files *)

Section Batch.
Context {num : Type} {JN : JSNumber num}.
Variable loadZip : ArrayBuffer -> result (list (string * string)).
Variable decodeUtf8 : ArrayBuffer -> string.
Variable parseXML : string -> Element.
Variable unit : STLUnit.

Let process : File -> option (FileData num) :=
  processFile loadZip decodeUtf8 parseXML unit.

Let batch (files : list File) : list (FileData num) :=
  loadedResults (handleFiles loadZip decodeUtf8 parseXML unit files).

Lemma nonNull_app {A} (xs ys : list (option A)) :
  nonNull (xs ++ ys) = (nonNull xs ++ nonNull ys)%list.
Proof.
  induction xs as [| [x |] xs IH]; simpl; [reflexivity | f_equal; exact IH | exact IH].
Qed.

Lemma nonNull_none {A} (xs : list (option A)) :
  nonNull xs = [] <-> Forall (fun x => x = None) xs.
Proof.
  induction xs as [| [x |] xs IH]; cbn [nonNull].
  - split; [constructor | reflexivity].
  - split; [discriminate | intro Hall; inversion Hall; discriminate].
  - rewrite IH. split; [now constructor | intro Hall; now inversion Hall].
Qed.

(** A file of another type is rejected by [processFile] itself. *)
Lemma processFile_unsupported (file : File) :
  hasMeshExtension file = false -> process file = None.
Proof.
  unfold hasMeshExtension. intro Hext. apply orb_false_elim in Hext as [Hstl H3mf].
  unfold process, processFile, processFileBody. rewrite Hstl, H3mf.
  now destruct (arrayBuffer file).
Qed.

Lemma nonNull_valid_files (files : list File) :
  nonNull (map process (filter hasMeshExtension files)) = nonNull (map process files).
Proof.
  induction files as [| file files IH]; [reflexivity |].
  cbn [filter map]. destruct (hasMeshExtension file) eqn:Hext.
  - cbn [map nonNull]. now rewrite IH.
  - cbn [nonNull]. now rewrite (processFile_unsupported file Hext).
Qed.

Lemma batch_results (files : list File) : batch files = nonNull (map process files).
Proof.
  rewrite <- (nonNull_valid_files files). unfold batch, handleFiles.
  destruct (filter hasMeshExtension files) as [| file valid]; reflexivity.
Qed.

(** C9.  For every batch, [handleFiles] runs to its end (it is a total
    function of the batch), and what it hands on is exactly the results of
    the files that [processFile] succeeds on, in the order of the batch: a
    file contributes its own result or nothing, whatever the other files of
    the batch are, and a batch that only alerts has no successful file.
    [processFile] fails, and the file is dropped, in each of the three
    cases: the name ends neither in [.stl] nor in [.3mf]; the bytes cannot
    be read or the parser of the file's type throws on them; the parser
    returns no triangle.  In every other case the file gives its name and
    the area of its triangles, in the session unit for STL and in
    millimetres for 3MF.  Dropping a failed file from a batch leaves the
    results of the batch, and so the total of their areas, as they are. *)
Theorem handleFiles_isolates_failures :
  (forall files : list File, batch files = nonNull (map process files))
  /\ (forall (before after : list File) (file : File),
         batch (before ++ file :: after)
         = (batch before ++ resultOf (process file) ++ batch after)%list)
  /\ (forall files : list File,
         handleFiles loadZip decodeUtf8 parseXML unit files = Alerted ->
         Forall (fun file => process file = None) files)
  /\ (forall file : File, hasMeshExtension file = false -> process file = None)
  /\ (forall (file : File) (e : exn),
         arrayBuffer file = Throw e -> process file = None)
  /\ (forall (file : File) (buffer : ArrayBuffer),
         arrayBuffer file = Return buffer ->
         JS.endsWith (JS.toLowerCase (name file)) ".stl" = true ->
         (if isASCIISTL buffer
          then parseASCIISTL (num := num) (decodeAscii buffer) = []
          else parseBinarySTL (num := num) buffer = Return []
               \/ exists e : exn, parseBinarySTL (num := num) buffer = Throw e) ->
         process file = None)
  /\ (forall (file : File) (buffer : ArrayBuffer),
         arrayBuffer file = Return buffer ->
         JS.endsWith (JS.toLowerCase (name file)) ".stl" = false ->
         JS.endsWith (JS.toLowerCase (name file)) ".3mf" = true ->
         ((exists e : exn, parse3MF loadZip decodeUtf8 parseXML buffer = Throw e)
          \/ exists r : ParseResult3MF,
               parse3MF loadZip decodeUtf8 parseXML buffer = Return r
               /\ result_triangles r = []) ->
         process file = None)
  /\ (forall (file : File) (buffer : ArrayBuffer) (triangles : list (Triangle num)),
         arrayBuffer file = Return buffer ->
         JS.endsWith (JS.toLowerCase (name file)) ".stl" = true ->
         (if isASCIISTL buffer
          then parseASCIISTL (decodeAscii buffer) = triangles
          else parseBinarySTL buffer = Return triangles) ->
         triangles <> [] ->
         process file
         = Some (mkFileData (name file) (calculateSurfaceArea triangles unit)))
  /\ (forall (file : File) (buffer : ArrayBuffer) (r : ParseResult3MF),
         arrayBuffer file = Return buffer ->
         JS.endsWith (JS.toLowerCase (name file)) ".stl" = false ->
         JS.endsWith (JS.toLowerCase (name file)) ".3mf" = true ->
         parse3MF loadZip decodeUtf8 parseXML buffer = Return r ->
         result_triangles r <> [] ->
         process file
         = Some (mkFileData (name file) (calculateSurfaceArea (result_triangles r) mm)))
  /\ (forall (before after : list File) (file : File),
         process file = None ->
         batch (before ++ file :: after) = (batch before ++ batch after)%list
         /\ totalArea (batch (before ++ file :: after))
            = totalArea (batch before ++ batch after)%list).
Proof.
  assert (Hinsert : forall (before after : list File) (file : File),
             batch (before ++ file :: after)
             = (batch before ++ resultOf (process file) ++ batch after)%list).
  { intros before after file. rewrite !batch_results, map_app, nonNull_app.
    cbn [map nonNull]. now destruct (process file). }
  split; [exact batch_results |]. split; [exact Hinsert |]. split.
  { intros files Halert.
    assert (Hnone : batch files = []) by (unfold batch; now rewrite Halert).
    rewrite batch_results in Hnone. apply nonNull_none in Hnone.
    now apply Forall_map in Hnone. }
  split; [exact processFile_unsupported |]. split.
  { intros file e Hbuffer. unfold process, processFile, processFileBody.
    now rewrite Hbuffer. }
  split.
  { intros file buffer Hbuffer Hstl Hparse. unfold process, processFile, processFileBody.
    rewrite Hbuffer, Hstl. destruct (isASCIISTL buffer).
    - now rewrite Hparse.
    - destruct Hparse as [-> | [e ->]]; reflexivity. }
  split.
  { intros file buffer Hbuffer Hstl H3mf Hparse.
    unfold process, processFile, processFileBody.
    rewrite Hbuffer, Hstl, H3mf.
    destruct Hparse as [[e ->] | (r & -> & Hempty)]; [reflexivity |].
    now rewrite Hempty. }
  split.
  { intros file buffer triangles Hbuffer Hstl Hparse Hsome.
    unfold process, processFile, processFileBody.
    rewrite Hbuffer, Hstl. destruct (isASCIISTL buffer); rewrite Hparse;
      (destruct triangles; [contradiction | reflexivity]). }
  split.
  { intros file buffer r Hbuffer Hstl H3mf Hparse Hsome.
    unfold process, processFile, processFileBody.
    rewrite Hbuffer, Hstl, H3mf, Hparse.
    destruct (result_triangles r); [contradiction | reflexivity]. }
  intros before after file Hfailed. rewrite Hinsert, Hfailed. split; reflexivity.
Qed.
End Batch.

(** A batch of five files under the unit mm: a text file, an STL file of
    ten bytes, an STL text of two facets, an STL text without facets and an
    archive without a model.  Only the third gives a result. *)
Lemma handleFiles_isolates_failures_witness :
  let loadZip := fun _ : ArrayBuffer => Return [("readme.txt", "none")] in
  let decodeUtf8 := fun buffer : ArrayBuffer => buffer in
  let parseXML := fun _ : string => Elem "" [] [] in
  let notes := mkFile "notes.txt" (Return "") in
  let cut := mkFile "cut.stl" (Return "0123456789") in
  let part := mkFile "part.stl" (Return twoFacets) in
  let header := mkFile "header.stl" (Return (joinLines ["solid part"; "endsolid part"])) in
  let archive := mkFile "part.3mf" (Return "PK") in
  processFile (num := float) loadZip decodeUtf8 parseXML mm notes = None
  /\ processFile (num := float) loadZip decodeUtf8 parseXML mm cut = None
  /\ processFile (num := float) loadZip decodeUtf8 parseXML mm header = None
  /\ processFile (num := float) loadZip decodeUtf8 parseXML mm archive = None
  /\ loadedResults
       (handleFiles (num := float) loadZip decodeUtf8 parseXML mm
          [notes; cut; part; header; archive])
     = [mkFileData "part.stl" (calculateSurfaceArea (parseASCIISTL twoFacets) mm)].
Proof.
  intros loadZip decodeUtf8 parseXML notes cut part header archive.
  destruct (handleFiles_isolates_failures (num := float) loadZip decodeUtf8 parseXML mm)
    as (Hall & _ & _ & Htype & _ & Hstl & H3mf & Hgood & _ & Hdrop).
  assert (Hnotes : processFile (num := float) loadZip decodeUtf8 parseXML mm notes = None)
    by (apply Htype; reflexivity).
  assert (Hcut : processFile (num := float) loadZip decodeUtf8 parseXML mm cut = None).
  { apply (Hstl cut "0123456789"); [reflexivity | reflexivity |].
    right. exists RangeError. reflexivity. }
  assert (Hheader : processFile (num := float) loadZip decodeUtf8 parseXML mm header = None).
  { apply (Hstl header (joinLines ["solid part"; "endsolid part"]));
      [reflexivity | reflexivity | reflexivity]. }
  assert (Harchive : processFile (num := float) loadZip decodeUtf8 parseXML mm archive = None).
  { apply (H3mf archive "PK"); [reflexivity | reflexivity | reflexivity |].
    left. exists (Error "No model file found in 3MF archive"). reflexivity. }
  assert (Hpart : processFile (num := float) loadZip decodeUtf8 parseXML mm part
                  = Some (mkFileData "part.stl"
                            (calculateSurfaceArea (parseASCIISTL twoFacets) mm))).
  { apply (Hgood part twoFacets (parseASCIISTL twoFacets));
      [reflexivity | reflexivity | reflexivity | vm_compute; discriminate]. }
  split; [exact Hnotes |]. split; [exact Hcut |]. split; [exact Hheader |].
  split; [exact Harchive |].
  pose proof (proj1 (Hdrop [] [cut; part; header; archive] notes Hnotes)) as H1.
  pose proof (proj1 (Hdrop [] [part; header; archive] cut Hcut)) as H2.
  pose proof (proj1 (Hdrop [part] [archive] header Hheader)) as H3.
  pose proof (proj1 (Hdrop [] [] archive Harchive)) as H4.
  cbn [List.app] in H1, H2, H3, H4.
  rewrite H1, H2, H3, H4, (Hall [part]), (Hall []).
  cbn [map nonNull List.app]. rewrite Hpart. reflexivity.
Defined.

(** ** Shared vertices and skipped triangles in 3MF *)

(** C1 at its failing input.  The document is in centimeters, so the scale
    is 10; vertex 1 is decoded as (1, 0, 0) and is referenced by both
    triangles.  Its array is multiplied by 10 once for each of the two
    references: both triangles come out with (100, 0, 0), not (10, 0, 0).
    The vertices 2 and 3, referenced once, come out scaled once.  With a
    transform on the object, be it the identity, every triangle gets arrays
    of its own and the same mesh comes out scaled once. *)
Theorem parse3MF_scales_shared_vertex_twice :
  unitScaleOf (num := float) "centimeter" = ofZ 10
  /\ parse3MFDocument (num := float) sharedVertexDocument
     = Return (mkParseResult3MF
                 [mkTriangle (point 0 0 0) (point 100 0 0) (point 0 10 0);
                  mkTriangle (point 0 0 0) (point 100 0 0) (point 0 0 10)]
                 (ofZ 1))
  /\ parse3MFDocument (num := float) sharedVertexIdentityDocument
     = Return (mkParseResult3MF
                 [mkTriangle (point 0 0 0) (point 10 0 0) (point 0 10 0);
                  mkTriangle (point 0 0 0) (point 10 0 0) (point 0 0 10)]
                 (ofZ 1)).
Proof. repeat split; vm_compute; reflexivity. Qed.

(** C2 at its failing input.  The second object has two triangle elements,
    one of them skipped, so the loop that applies its transform starts one
    triangle too early: the triangle of the first object, which has no
    transform, is translated by 5 along z as well.  When the object stands
    alone, the loop starts at index -1 and [parse3MF] throws a TypeError.
    Without the skipped triangle the transform stays within its object. *)
Theorem parse3MF_transform_reaches_other_object :
  parse3MFDocument (num := float) skippedTriangleDocument
  = Return (mkParseResult3MF
              [mkTriangle (point 0 0 5) (point 1 0 5) (point 0 1 5);
               mkTriangle (point 0 0 5) (point 1 0 5) (point 0 1 5)]
              (ofZ 1))
  /\ parse3MFDocument (num := float) skippedTriangleAloneDocument = Throw TypeError
  /\ parse3MFDocument (num := float) noSkippedTriangleDocument
     = Return (mkParseResult3MF
                 [mkTriangle (point 0 0 0) (point 1 0 0) (point 0 1 0);
                  mkTriangle (point 0 0 5) (point 1 0 5) (point 0 1 5)]
                 (ofZ 1)).
Proof. repeat split; vm_compute; reflexivity. Qed.

(** ** Surface area in exact arithmetic *)

(** The area of one triangle of the list, as [calculateSurfaceArea] adds it. *)
Lemma calculateSurfaceArea_sum (triangles : list (Triangle R)) (unit : STLUnit) :
  calculateSurfaceArea triangles unit
  = (fold_right Rplus 0
       (map (fun t => calculateTriangleArea
                        (mkTriangle (convertPoint (a t) unit) (convertPoint (b t) unit)
                                    (convertPoint (c t) unit)))
            triangles) / 10000)%R.
Proof.
  unfold calculateSurfaceArea, mm2ToDm2. cbn [nadd ndiv R_Arith]. rewrite !R_ofZ.
  set (area := fun t : Triangle R =>
                 calculateTriangleArea
                   (mkTriangle (convertPoint (a t) unit) (convertPoint (b t) unit)
                               (convertPoint (c t) unit))).
  change ((fold_left (fun total t => (total + area t)%R) triangles 0 / 10000
           = fold_right Rplus 0 (map area triangles) / 10000)%R).
  f_equal.
  assert (Hgen : forall acc : R,
             fold_left (fun total t => (total + area t)%R) triangles acc
             = (acc + fold_right Rplus 0 (map area triangles))%R).
  { induction triangles as [| t ts IH]; intro acc; cbn [fold_left map fold_right].
    - ring.
    - rewrite IH. ring. }
  rewrite Hgen. ring.
Qed.

Lemma converted_area_scaled (t : Triangle R) (unit : STLUnit) :
  calculateTriangleArea
    (mkTriangle (convertPoint (a t) unit) (convertPoint (b t) unit)
                (convertPoint (c t) unit))
  = (conversions unit * conversions unit * calculateTriangleArea t)%R.
Proof.
  rewrite !calculateTriangleArea_exact, edgeCross_converted.
  pose proof (conversions_pos unit) as Hs.
  destruct (edgeCross t) as [[X Y] Z]. cbv zeta.
  set (s := conversions (num := R) unit) in *. cbv iota beta.
  replace (s * s * X * (s * s * X) + s * s * Y * (s * s * Y) + s * s * Z * (s * s * Z))%R
    with ((s * s) * (s * s) * (X * X + Y * Y + Z * Z))%R by ring.
  rewrite sqrt_mult; [| nra | nra].
  rewrite sqrt_square by nra. ring.
Qed.

(** X1.  In exact arithmetic the surface area of a mesh given in a unit is
    the area of the same numbers read as millimetres, times the square of
    the unit's factor: 100 for centimetres, 645.16 for inches. *)
Theorem calculateSurfaceArea_scales_with_unit_squared :
  forall (triangles : list (Triangle R)) (unit : STLUnit),
    calculateSurfaceArea triangles unit
    = (conversions unit * conversions unit * calculateSurfaceArea triangles mm)%R
    /\ calculateSurfaceArea triangles cm = (100 * calculateSurfaceArea triangles mm)%R
    /\ calculateSurfaceArea triangles inch
       = (645.16 * calculateSurfaceArea triangles mm)%R.
Proof.
  assert (Hscale : forall (triangles : list (Triangle R)) (unit : STLUnit),
             calculateSurfaceArea triangles unit
             = (conversions unit * conversions unit * calculateSurfaceArea triangles mm)%R).
  { intros triangles unit. rewrite !calculateSurfaceArea_sum.
    induction triangles as [| t ts IH]; cbn [map fold_right].
    - lra.
    - rewrite (converted_area_scaled t unit), (converted_area_scaled t mm).
      replace (conversions (num := R) mm) with 1%R
        by (unfold conversions; now rewrite R_ofZ).
      lra. }
  intros triangles unit. split; [apply Hscale |]. split.
  - rewrite (Hscale triangles cm). unfold conversions. rewrite R_ofZ. lra.
  - rewrite (Hscale triangles inch). unfold conversions. rewrite R_tenths.
    cbn [Z.of_N]. lra.
Qed.

(** X2.  In exact arithmetic the surface area of two meshes together is
    the sum of their surface areas, and the surface area of a mesh does not
    depend on the order of its triangles. *)
Theorem calculateSurfaceArea_additive :
  forall unit : STLUnit,
    (forall first second : list (Triangle R),
        calculateSurfaceArea (first ++ second) unit
        = (calculateSurfaceArea first unit + calculateSurfaceArea second unit)%R)
    /\ (forall triangles reordered : list (Triangle R),
           Permutation triangles reordered ->
           calculateSurfaceArea reordered unit = calculateSurfaceArea triangles unit).
Proof.
  intro unit. split.
  - intros first second. rewrite !calculateSurfaceArea_sum, map_app.
    induction first as [| t ts IH]; cbn [List.app map fold_right]; lra.
  - intros triangles reordered Hperm. rewrite !calculateSurfaceArea_sum. f_equal.
    induction Hperm; cbn [map fold_right]; lra.
Qed.

Lemma calculateSurfaceArea_additive_witness :
  calculateSurfaceArea
    [mkTriangle (0, 0, 0)%R (0, 1, 0)%R (1, 0, 0)%R;
     mkTriangle (0, 0, 0)%R (1, 0, 0)%R (0, 1, 0)%R] cm
  = calculateSurfaceArea
      [mkTriangle (0, 0, 0)%R (1, 0, 0)%R (0, 1, 0)%R;
       mkTriangle (0, 0, 0)%R (0, 1, 0)%R (1, 0, 0)%R] cm.
Proof.
  apply (proj2 (calculateSurfaceArea_additive cm)). apply perm_swap.
Defined.

Lemma edgeCross_translated (v : Point R) (t : Triangle R) :
  edgeCross (translateTriangle v t) = edgeCross t.
Proof.
  destruct v as [[vx vy] vz].
  destruct t as [[[ax ay] az] [[bx by_] bz] [[cx cy] cz]].
  unfold edgeCross, translateTriangle, translatePoint; cbn [a b c].
  f_equal; [f_equal |]; ring.
Qed.

Lemma calculateTriangleArea_reordered (t t' : Triangle R) :
  In t' (reorderings t) -> calculateTriangleArea t' = calculateTriangleArea t.
Proof.
  destruct t as [[[ax ay] az] [[bx by_] bz] [[cx cy] cz]].
  unfold reorderings; cbn [a b c In].
  intros [<- | [<- | [<- | [<- | [<- | []]]]]];
    rewrite !calculateTriangleArea_exact; unfold edgeCross; cbn [a b c];
    do 2 f_equal; ring.
Qed.

(** X3.  In exact arithmetic the area of a triangle is the same wherever the
    triangle is moved to and in whichever order its vertices are given, and
    so is the surface area of a mesh whose triangles are moved together. *)
Theorem calculateTriangleArea_position_and_winding :
  (forall (v : Point R) (t : Triangle R),
      calculateTriangleArea (translateTriangle v t) = calculateTriangleArea t)
  /\ (forall t t' : Triangle R,
         In t' (reorderings t) -> calculateTriangleArea t' = calculateTriangleArea t)
  /\ (forall (v : Point R) (triangles : list (Triangle R)) (unit : STLUnit),
         calculateSurfaceArea (map (translateTriangle v) triangles) unit
         = calculateSurfaceArea triangles unit).
Proof.
  split; [| split].
  - intros v t. now rewrite !calculateTriangleArea_exact, edgeCross_translated.
  - exact calculateTriangleArea_reordered.
  - intros v triangles unit. rewrite !calculateSurfaceArea_sum. f_equal.
    induction triangles as [| t ts IH]; cbn [map fold_right]; [reflexivity |].
    rewrite IH. f_equal.
    rewrite (converted_area_scaled (translateTriangle v t) unit), (converted_area_scaled t unit).
    now rewrite !calculateTriangleArea_exact, edgeCross_translated.
Qed.

Lemma calculateTriangleArea_position_and_winding_witness :
  calculateTriangleArea (mkTriangle (0, 1, 0)%R (0, 0, 0)%R (1, 0, 0)%R)
  = calculateTriangleArea (mkTriangle (0, 0, 0)%R (1, 0, 0)%R (0, 1, 0)%R).
Proof.
  destruct calculateTriangleArea_position_and_winding as (_ & Hwinding & _).
  apply Hwinding. cbn. tauto.
Defined.

(** X4.  In exact arithmetic the area that [calculateTriangleArea] returns
    is the one Heron's formula gives from the lengths of the sides: with
    [A], [B], [C] the squares of the three side lengths,
    [16 area^2 = 2 (A B + B C + C A) - (A^2 + B^2 + C^2)]; and the area is
    not negative. *)
Theorem calculateTriangleArea_heron :
  forall t : Triangle R,
    let A := squaredDistance (a t) (b t) in
    let B := squaredDistance (b t) (c t) in
    let C := squaredDistance (c t) (a t) in
    let area := calculateTriangleArea t in
    (16 * (area * area) = 2 * (A * B + B * C + C * A) - (A * A + B * B + C * C))%R
    /\ (0 <= area)%R.
Proof.
  intros t A B C area. split; [| apply calculateTriangleArea_nonneg].
  unfold area. rewrite calculateTriangleArea_exact.
  destruct t as [[[ax ay] az] [[bx by_] bz] [[cx cy] cz]].
  unfold A, B, C, squaredDistance, edgeCross; cbn [a b c].
  set (S := ((by_ - ay) * (cz - az) - (bz - az) * (cy - ay))%R).
  set (T := ((bz - az) * (cx - ax) - (bx - ax) * (cz - az))%R).
  set (U := ((bx - ax) * (cy - ay) - (by_ - ay) * (cx - ax))%R).
  assert (Hsq : (0 <= S * S + T * T + U * U)%R) by nra.
  replace (16 * (/ 2 * R_sqrt.sqrt (S * S + T * T + U * U)
                 * (/ 2 * R_sqrt.sqrt (S * S + T * T + U * U))))%R
    with (4 * (R_sqrt.sqrt (S * S + T * T + U * U) * R_sqrt.sqrt (S * S + T * T + U * U)))%R
    by field.
  rewrite sqrt_sqrt by exact Hsq.
  unfold S, T, U. ring.
Qed.
(** ** The binary STL reader and the length of the buffer *)

Section BinaryRecords.
Context {num : Type} {JN : JSNumber num}.
Variable buffer : ArrayBuffer.

Lemma readPoint_inside (offset : nat) :
  offset + 12 <= byteLength buffer ->
  exists p, readPoint (num := num) buffer offset = Return p.
Proof.
  intro Hlen. unfold readPoint, getFloat32, getUint32, bind.
  destruct (Nat.leb_spec (offset + 4) (byteLength buffer)); [| lia].
  destruct (Nat.leb_spec (offset + 4 + 4) (byteLength buffer)); [| lia].
  destruct (Nat.leb_spec (offset + 8 + 4) (byteLength buffer)); [| lia].
  eexists. reflexivity.
Qed.

Lemma readPoint_outside (offset : nat) :
  byteLength buffer < offset + 12 ->
  readPoint (num := num) buffer offset = Throw RangeError.
Proof.
  intro Hlen. unfold readPoint, getFloat32, getUint32, bind.
  destruct (Nat.leb_spec (offset + 4) (byteLength buffer)); [| reflexivity].
  destruct (Nat.leb_spec (offset + 4 + 4) (byteLength buffer)); [| reflexivity].
  destruct (Nat.leb_spec (offset + 8 + 4) (byteLength buffer)); [lia | reflexivity].
Qed.

Lemma readRecords_inside (remaining : nat) :
  forall offset : nat,
    remaining = 0 \/ offset + 50 * remaining <= byteLength buffer + 2 ->
    exists ts, readRecords (num := num) buffer remaining offset = Return ts
               /\ List.length ts = remaining.
Proof.
  induction remaining as [| n IH]; intros offset Hlen.
  - exists []. split; reflexivity.
  - destruct Hlen as [Hzero | Hlen]; [discriminate |].
    cbn [readRecords].
    destruct (readPoint_inside (offset + 12) ltac:(lia)) as [va ->].
    destruct (readPoint_inside (offset + 24) ltac:(lia)) as [vb ->].
    destruct (readPoint_inside (offset + 36) ltac:(lia)) as [vc ->].
    destruct (IH (offset + 50)) as (rest & -> & Hrest).
    { destruct n; [left; reflexivity | right; lia]. }
    cbn [bind]. eexists. split; [reflexivity |]. cbn [List.length]. now rewrite Hrest.
Qed.

Lemma readRecords_outside (remaining : nat) :
  forall offset : nat,
    remaining <> 0 -> byteLength buffer + 2 < offset + 50 * remaining ->
    readRecords (num := num) buffer remaining offset = Throw RangeError.
Proof.
  induction remaining as [| n IH]; intros offset Hpos Hlen; [contradiction |].
  cbn [readRecords].
  destruct (le_lt_dec (offset + 12 + 12) (byteLength buffer)) as [Ha | Ha];
    [| now rewrite (readPoint_outside (offset + 12)) by lia].
  destruct (readPoint_inside (offset + 12) Ha) as [va ->].
  destruct (le_lt_dec (offset + 24 + 12) (byteLength buffer)) as [Hb | Hb];
    [| now rewrite (readPoint_outside (offset + 24)) by lia].
  destruct (readPoint_inside (offset + 24) Hb) as [vb ->].
  destruct (le_lt_dec (offset + 36 + 12) (byteLength buffer)) as [Hc | Hc];
    [| now rewrite (readPoint_outside (offset + 36)) by lia].
  destruct (readPoint_inside (offset + 36) Hc) as [vc ->].
  rewrite (IH (offset + 50)) by lia. reflexivity.
Qed.
End BinaryRecords.

(** X5.  With [count] the number in bytes 80 to 83 of the buffer:
    [parseBinarySTL] returns exactly [count] triangles when the buffer holds
    [count] records, the two attribute bytes of the last one apart (82 + 50
    count bytes), and throws a RangeError when [count] is not 0 and the
    buffer is shorter than that.  Bytes after the records are not looked
    at. *)
Theorem parseBinarySTL_record_count :
  forall (num : Type) (JN : JSNumber num) (buffer : ArrayBuffer) (count : N),
    getUint32 buffer 80 = Return count ->
    (count = 0%N \/ 82 + 50 * N.to_nat count <= byteLength buffer ->
     exists ts, parseBinarySTL (num := num) buffer = Return ts
                /\ List.length ts = N.to_nat count)
    /\ (count <> 0%N -> byteLength buffer < 82 + 50 * N.to_nat count ->
        parseBinarySTL (num := num) buffer = Throw RangeError).
Proof.
  intros num JN buffer count Hcount. unfold parseBinarySTL. rewrite Hcount. cbn [bind].
  split.
  - intro Hlen. apply readRecords_inside. destruct Hlen as [-> | Hlen]; [now left | right; lia].
  - intros Hpos Hlen. apply readRecords_outside; lia.
Qed.

Lemma parseBinarySTL_record_count_witness :
  (exists ts, parseBinarySTL (num := float) oneRecordBinary = Return ts
              /\ List.length ts = N.to_nat 1)
  /\ parseBinarySTL (num := float) (JS.take 131 oneRecordBinary) = Throw RangeError.
Proof.
  split.
  - apply (parseBinarySTL_record_count float _ oneRecordBinary 1%N); [reflexivity |].
    right. vm_compute. lia.
  - apply (parseBinarySTL_record_count float _ (JS.take 131 oneRecordBinary) 1%N);
      [reflexivity | discriminate | vm_compute; lia].
Defined.

(** ** The test for the text variant of STL *)

Lemma take_length (n : nat) (s : string) :
  String.length (JS.take n s) = Nat.min n (String.length s).
Proof.
  revert s. induction n as [| n IH]; intros [| ch s]; cbn; try reflexivity.
  now rewrite IH.
Qed.

Lemma take_take (n m : nat) (s : string) :
  JS.take n (JS.take m s) = JS.take (Nat.min n m) s.
Proof.
  revert m s. induction n as [| n IH]; intros [| m] [| ch s]; cbn; try reflexivity.
  now rewrite IH.
Qed.

Lemma take_all (n : nat) (s : string) : String.length s <= n -> JS.take n s = s.
Proof.
  revert s. induction n as [| n IH]; intros [| ch s] Hlen; cbn in *; try reflexivity; [lia |].
  rewrite IH by lia. reflexivity.
Qed.

Lemma take_min_length (n : nat) (s : string) :
  JS.take (Nat.min n (String.length s)) s = JS.take n s.
Proof.
  destruct (Nat.le_ge_cases n (String.length s)) as [Hle | Hge].
  - now rewrite Nat.min_l.
  - rewrite Nat.min_r by exact Hge. now rewrite !take_all by lia.
Qed.

Lemma isASCIISTL_text (buffer : ArrayBuffer) :
  isASCIISTL buffer
  = (JS.startsWith (JS.toLowerCase (JS.trim (JS.take 100 buffer))) "solid"
     && negb (JS.includesChar (JS.take 100 buffer) "000")
     && JS.includesChar (JS.take 100 buffer) "010").
Proof. unfold isASCIISTL, decodeAscii, byteLength. now rewrite take_min_length. Qed.

(** X6.  [isASCIISTL] looks at the first 100 bytes of the buffer only: it
    gives the same answer for the buffer cut after 100 bytes, and the answer
    is no when those bytes hold a NUL byte or hold no line feed, whatever the
    buffer starts with. *)
Theorem isASCIISTL_first_100_bytes :
  forall buffer : ArrayBuffer,
    isASCIISTL buffer = isASCIISTL (JS.take 100 buffer)
    /\ (JS.includesChar (JS.take 100 buffer) "000" = true -> isASCIISTL buffer = false)
    /\ (JS.includesChar (JS.take 100 buffer) "010" = false -> isASCIISTL buffer = false).
Proof.
  intro buffer. rewrite !isASCIISTL_text, take_take. cbn [Nat.min].
  split; [reflexivity |]. split.
  - intros ->. cbn [negb]. now rewrite andb_false_r.
  - intros ->. now rewrite andb_false_r.
Qed.

Lemma isASCIISTL_first_100_bytes_witness :
  isASCIISTL ("solid part" ++ JS.repeatChar " " 100 ++ String "010" "facet") = false.
Proof.
  destruct (isASCIISTL_first_100_bytes
              ("solid part" ++ JS.repeatChar " " 100 ++ String "010" "facet"))
    as (_ & _ & Hline).
  apply Hline. reflexivity.
Defined.

(** ** The text variant of STL, line by line *)

Section ASCIILines.
Context {num : Type} {JN : JSNumber num}.

Lemma parseASCIILine_irrelevant (st : ASCIIState (num := num)) (line : string) :
  relevantLine line = false -> parseASCIILine st line = st.
Proof.
  unfold relevantLine, isVertexLine, isEndfacetLine, parseASCIILine.
  intro Hline. apply orb_false_elim in Hline as [-> ->]. reflexivity.
Qed.

Lemma fold_relevant_lines (lines : list string) :
  forall st : ASCIIState (num := num),
    fold_left parseASCIILine lines st
    = fold_left parseASCIILine (filter relevantLine lines) st.
Proof.
  induction lines as [| line lines IH]; intro st; [reflexivity |].
  cbn [fold_left filter]. destruct (relevantLine line) eqn:Hline.
  - cbn [fold_left]. apply IH.
  - rewrite parseASCIILine_irrelevant by exact Hline. apply IH.
Qed.

(** What the loop keeps true: three vertex lines at least are used up for
    each triangle, and one for each vertex of the triangle in progress. *)
Lemma parseASCIILine_count (st : ASCIIState (num := num)) (line : string) (seen : nat) :
  3 * List.length (triangles st) + vertexIndex st <= seen ->
  3 * List.length (triangles (parseASCIILine st line))
  + vertexIndex (parseASCIILine st line)
  <= (if isVertexLine line then S seen else seen).
Proof.
  intro Hinv. unfold parseASCIILine, isVertexLine.
  destruct (JS.startsWith (JS.trim line) "vertex").
  - destruct (JS.splitWhiteSpace (JS.trim line)) as [| p0 [| p1 [| p2 [| p3 rest]]]];
      try lia.
    destruct (negb (isNaN (parseFloat p1)) && negb (isNaN (parseFloat p2))
              && negb (isNaN (parseFloat p3))); [| lia].
    destruct (Nat.eqb_spec (S (vertexIndex st)) 3) as [Hthree | Hother].
    + set (cur := storeVertex _ _ _).
      destruct (pa cur) as [va |], (pb cur) as [vb |], (pc cur) as [vc |];
        cbn [triangles vertexIndex]; rewrite ?length_app; cbn [List.length]; lia.
    + cbn [triangles vertexIndex]. lia.
  - destruct (JS.startsWith (JS.trim line) "endfacet"); cbn [triangles vertexIndex]; lia.
Qed.

Lemma fold_parseASCIILine_count (lines : list string) :
  forall (st : ASCIIState (num := num)) (seen : nat),
    3 * List.length (triangles st) + vertexIndex st <= seen ->
    3 * List.length (triangles (fold_left parseASCIILine lines st))
    <= seen + List.length (filter isVertexLine lines).
Proof.
  induction lines as [| line lines IH]; intros st seen Hinv.
  - cbn [fold_left filter List.length]. lia.
  - cbn [fold_left filter].
    pose proof (parseASCIILine_count st line seen Hinv) as Hstep.
    destruct (isVertexLine line).
    + specialize (IH _ _ Hstep). cbn [List.length]. lia.
    + apply (IH _ _ Hstep).
Qed.

Lemma parseASCIILine_numeric (st : ASCIIState (num := num)) (line : string) :
  numericState st -> numericState (parseASCIILine st line).
Proof.
  intros (Hts & Ha & Hb & Hc). unfold parseASCIILine.
  assert (Hempty : forall ts, Forall numericTriangle ts ->
                              numericState (mkASCIIState ts emptyPartial 0)).
  { intros ts Hall. repeat split; [exact Hall | discriminate ..]. }
  destruct (JS.startsWith (JS.trim line) "vertex").
  - destruct (JS.splitWhiteSpace (JS.trim line)) as [| p0 [| p1 [| p2 [| p3 rest]]]];
      try (repeat split; assumption).
    destruct (isNaN (parseFloat p1)) eqn:Hx; cbn [negb andb];
      [repeat split; assumption |].
    destruct (isNaN (parseFloat p2)) eqn:Hy; cbn [negb andb];
      [repeat split; assumption |].
    destruct (isNaN (parseFloat p3)) eqn:Hz; cbn [negb andb];
      [repeat split; assumption |].
    assert (Hp : numericPoint (parseFloat (num := num) p1, parseFloat p2, parseFloat p3))
      by (repeat split; assumption).
    set (p := (parseFloat (num := num) p1, parseFloat p2, parseFloat p3)) in *.
    assert (Hcur : (forall q, pa (storeVertex (currentTriangle st) (vertexIndex st) p) = Some q
                              -> numericPoint q)
                   /\ (forall q, pb (storeVertex (currentTriangle st) (vertexIndex st) p) = Some q
                                 -> numericPoint q)
                   /\ (forall q, pc (storeVertex (currentTriangle st) (vertexIndex st) p) = Some q
                                 -> numericPoint q)).
    { unfold storeVertex.
      destruct (vertexIndex st) as [| [| [| n]]]; cbn [pa pb pc];
        repeat split; intros q Hq; try (injection Hq as <-; exact Hp); auto. }
    destruct Hcur as (Ha' & Hb' & Hc').
    assert (Hkeep : forall index,
               numericState
                 (mkASCIIState (triangles st)
                    (storeVertex (currentTriangle st) (vertexIndex st) p) index))
      by (intro index; repeat split; assumption).
    destruct (Nat.eqb (S (vertexIndex st)) 3); [| apply Hkeep].
    destruct (pa (storeVertex (currentTriangle st) (vertexIndex st) p)) as [va |] eqn:Eva;
      [| apply Hkeep].
    destruct (pb (storeVertex (currentTriangle st) (vertexIndex st) p)) as [vb |] eqn:Evb;
      [| apply Hkeep].
    destruct (pc (storeVertex (currentTriangle st) (vertexIndex st) p)) as [vc |] eqn:Evc;
      [| apply Hkeep].
    apply Hempty. apply Forall_app. split; [exact Hts |].
    constructor; [| constructor]. repeat split; cbn [a b c]; auto.
  - destruct (JS.startsWith (JS.trim line) "endfacet").
    + apply Hempty. exact Hts.
    + repeat split; assumption.
Qed.
End ASCIILines.

Lemma split_parts_without_separator (sep : ascii) (s : string) :
  Forall (fun p => JS.includesChar p sep = false) (JS.split sep s).
Proof.
  induction s as [| ch s IH]; cbn [JS.split].
  - constructor; [reflexivity | constructor].
  - destruct (Ascii.eqb ch sep) eqn:Hch.
    + constructor; [reflexivity | exact IH].
    + destruct (JS.split sep s) as [| p ps]; [constructor; [| constructor] |].
      * cbn. now rewrite Hch.
      * inversion IH; subst. constructor; [| assumption]. cbn. now rewrite Hch.
Qed.

Lemma split_joinLines (ls : list string) :
  ls <> [] ->
  Forall (fun p => JS.includesChar p "010" = false) ls ->
  JS.split "010" (joinLines ls) = ls.
Proof.
  induction ls as [| l ls IH]; intros Hne Hall; [contradiction |].
  inversion Hall as [| ? ? Hl Hls]; subst.
  destruct ls as [| l' ls'].
  - cbn [joinLines String.concat]. now apply split_without_separator.
  - change (joinLines (l :: l' :: ls')) with (l ++ String "010" (joinLines (l' :: ls'))).
    rewrite split_at_separator by exact Hl. f_equal. apply IH; [discriminate | exact Hls].
Qed.

(** X7.  [parseASCIISTL] acts on the lines that start, once trimmed, with
    [vertex] or [endfacet], and on nothing else: a text and the text made of
    its lines of these two kinds give the same triangles. *)
Theorem parseASCIISTL_reads_vertex_and_endfacet_lines_only :
  forall (num : Type) (JN : JSNumber num) (content : string),
    parseASCIISTL (num := num) content
    = parseASCIISTL (joinLines (filter relevantLine (JS.split "010" content))).
Proof.
  intros num JN content. unfold parseASCIISTL.
  rewrite (fold_relevant_lines (JS.split "010" content)).
  pose proof (split_parts_without_separator "010" content) as Hparts.
  set (kept := filter relevantLine (JS.split "010" content)).
  assert (Hkept : Forall (fun p => JS.includesChar p "010" = false) kept).
  { apply Forall_forall. intros p Hp. apply filter_In in Hp as [Hp _].
    revert p Hp. now apply Forall_forall. }
  destruct kept as [| l ls] eqn:Ekept.
  - reflexivity.
  - now rewrite split_joinLines.
Qed.

(** X8.  [parseASCIISTL] uses up three vertex lines at least for each
    triangle it returns: three times the number of triangles is at most the
    number of lines that start, once trimmed, with [vertex]. *)
Theorem parseASCIISTL_three_vertex_lines_per_triangle :
  forall (num : Type) (JN : JSNumber num) (content : string),
    3 * List.length (parseASCIISTL (num := num) content)
    <= List.length (filter isVertexLine (JS.split "010" content)).
Proof.
  intros num JN content. unfold parseASCIISTL.
  apply (fold_parseASCIILine_count (JS.split "010" content)
           (mkASCIIState [] emptyPartial 0) 0).
  cbn. lia.
Qed.

(** X9.  No coordinate of a triangle that [parseASCIISTL] returns is NaN:
    a vertex line with a coordinate that does not parse is left out. *)
Theorem parseASCIISTL_coordinates_not_NaN :
  forall (num : Type) (JN : JSNumber num) (content : string),
    Forall numericTriangle (parseASCIISTL (num := num) content).
Proof.
  intros num JN content. unfold parseASCIISTL.
  assert (Hgen : forall lines (st : ASCIIState (num := num)),
             numericState st -> numericState (fold_left parseASCIILine lines st)).
  { induction lines as [| line lines IH]; intros st Hst; [exact Hst |].
    cbn [fold_left]. apply IH. now apply parseASCIILine_numeric. }
  apply (Hgen (JS.split "010" content) (mkASCIIState [] emptyPartial 0)).
  repeat split; [constructor | discriminate ..].
Qed.

(** ** The unit of a 3MF model *)

Lemma lowerChar_idempotent (ch : ascii) : JS.lowerChar (JS.lowerChar ch) = JS.lowerChar ch.
Proof. destruct ch as [[] [] [] [] [] [] [] []]; reflexivity. Qed.

Lemma toLowerCase_idempotent (s : string) :
  JS.toLowerCase (JS.toLowerCase s) = JS.toLowerCase s.
Proof.
  induction s as [| ch s IH]; cbn [JS.toLowerCase]; [reflexivity |].
  now rewrite lowerChar_idempotent, IH.
Qed.

(** X10.  The unit of a 3MF model is looked up without regard to case, and
    a unit that is, in lower case, none of the six keys of the table (nor
    one of the two keys the table inherits) has the scale 1. *)
Theorem unitScaleOf_case_and_fallback :
  forall (num : Type) (JN : JSNumber num) (unit : string),
    unitScaleOf (num := num) (JS.toLowerCase unit) = unitScaleOf unit
    /\ (~ In (JS.toLowerCase unit) (unitScaleKeys ++ inheritedKeys)%list ->
        unitScaleOf (num := num) unit = ofZ 1).
Proof.
  intros num JN unit. split.
  - unfold unitScaleOf. now rewrite toLowerCase_idempotent.
  - intro Hkey. unfold unitScaleOf.
    repeat match goal with
           | |- context [String.eqb ?x ?y] =>
               destruct (String.eqb_spec x y) as [Heq | _];
               [exfalso; apply Hkey; rewrite Heq; cbn; tauto |]
           end.
    reflexivity.
Qed.

Lemma unitScaleOf_case_and_fallback_witness :
  unitScaleOf (num := float) "Parsec" = ofZ 1.
Proof.
  apply (proj2 (unitScaleOf_case_and_fallback float b64_JSNumber "Parsec")).
  cbn. intros [H | [H | [H | [H | [H | [H | [H | [H | []]]]]]]]]; discriminate H.
Defined.

(** ** The transform of a 3MF object *)

(** X11.  [applyTransform] returns the point as it is when the matrix has
    not exactly twelve entries; in exact arithmetic the matrix
    [1 0 0 0 0 1 0 0 0 0 1 0] leaves every point where it is, and the matrix
    [1 0 0 tx 0 1 0 ty 0 0 1 tz] moves every point by [(tx, ty, tz)]. *)
Theorem applyTransform_identity_and_translation :
  (forall (num : Type) (JN : JSNumber num) (p : Point num) (matrix : list num),
      List.length matrix <> 12 -> applyTransform p matrix = p)
  /\ (forall p : Point R,
         applyTransform (finitePoint p) identityMatrix = finitePoint p)
  /\ (forall (p : Point R) (tx ty tz : R),
         applyTransform (finitePoint p) (translationMatrix tx ty tz)
         = finitePoint (translatePoint (tx, ty, tz) p)).
Proof.
  split; [| split].
  - intros num JN p matrix Hlen. unfold applyTransform.
    do 13 (destruct matrix as [| ? matrix]; try reflexivity).
    cbn in Hlen. lia.
  - intros [[x y] z]. unfold applyTransform, identityMatrix, finitePoint.
    rewrite !xreal_ofZ. cbn [nadd nmul js_arith xreal_JSNumber xreal_Arith xadd xmul].
    f_equal; [f_equal |]; f_equal; ring.
  - intros [[x y] z] tx ty tz.
    unfold applyTransform, translationMatrix, translatePoint, finitePoint.
    cbn [map nadd nmul js_arith xreal_JSNumber xreal_Arith xadd xmul].
    f_equal; [f_equal |]; f_equal; ring.
Qed.

Lemma applyTransform_identity_and_translation_witness :
  applyTransform (point 1 2 3) [ofZ 1; ofZ 0; ofZ 0] = point 1 2 3.
Proof.
  destruct applyTransform_identity_and_translation as (Hlength & _ & _).
  apply (Hlength float b64_JSNumber). cbn. lia.
Defined.


(** ** What [parse3MF] returns for the objects it handles as intended *)

Section HandledObjects.
Context {num : Type} {JN : JSNumber num}.
Variable unitScale : num.

Lemma readVertices_appends (vertexElements : list Element) :
  forall (h : Heap (num := num)) (vertices : list ref),
    fold_left
      (fun '(h, vertices) vertex =>
         let (h', r) := alloc h (readVertex vertex) in (h', (vertices ++ [r])%list))
      vertexElements (h, vertices)
    = ((h ++ map readVertex vertexElements)%list,
       (vertices
        ++ map (fun i => List.length h + i) (seq 0 (List.length vertexElements)))%list).
Proof.
  induction vertexElements as [| v vs IH]; intros h vertices.
  - cbn. now rewrite !List.app_nil_r.
  - cbn [fold_left alloc map List.length seq]. rewrite IH.
    rewrite <- !List.app_assoc. cbn [List.app]. f_equal. f_equal. f_equal.
    + f_equal. lia.
    + rewrite <- seq_shift, map_map. apply map_ext. intro i.
      rewrite length_app. cbn [List.length]. lia.
Qed.

Lemma readVertices_heap (h : Heap (num := num)) (vertexElements : list Element) :
  readVertices h vertexElements
  = ((h ++ map readVertex vertexElements)%list,
     map (fun i => List.length h + i) (seq 0 (List.length vertexElements))).
Proof. unfold readVertices. now rewrite readVertices_appends. Qed.

Lemma cornerIndices_within (count : nat) (triangle : Element) (i1 i2 i3 : nat) :
  cornerIndices count triangle = [i1; i2; i3] -> i1 < count /\ i2 < count /\ i3 < count.
Proof.
  unfold cornerIndices.
  destruct (inRange (readIndex triangle "v1") count) eqn:H1; [| discriminate].
  destruct (inRange (readIndex triangle "v2") count) eqn:H2; [| discriminate].
  destruct (inRange (readIndex triangle "v3") count) eqn:H3; [| discriminate].
  cbn [andb]. intro Heq. injection Heq as <- <- <-.
  unfold inRange, indexOf in *.
  destruct (readIndex triangle "v1") as [z1 |]; [| discriminate].
  destruct (readIndex triangle "v2") as [z2 |]; [| discriminate].
  destruct (readIndex triangle "v3") as [z3 |]; [| discriminate].
  apply andb_prop in H1 as [H1a H1b], H2 as [H2a H2b], H3 as [H3a H3b].
  apply Z.leb_le in H1a, H2a, H3a. apply Z.ltb_lt in H1b, H2b, H3b. lia.
Qed.

Lemma cornerIndices_shape (count : nat) (triangle : Element) :
  cornerIndices count triangle = []
  \/ exists i1 i2 i3, cornerIndices count triangle = [i1; i2; i3].
Proof.
  unfold cornerIndices.
  destruct (inRange _ count && inRange _ count && inRange _ count); [right | left]; eauto.
Qed.

(** The triangles that the [triangle] elements of a mesh add. *)
Lemma fold_readTriangle (first count : nat) (triangleElements : list Element) :
  forall triangles : list TriangleRefs,
    fold_left (readTriangle (map (fun i => first + i) (seq 0 count)))
              triangleElements triangles
    = (triangles ++ newRefs first count triangleElements)%list.
Proof.
  unfold newRefs.
  induction triangleElements as [| t ts IH]; intro triangles; cbn [fold_left flat_map].
  - now rewrite List.app_nil_r.
  - rewrite IH, List.app_assoc. f_equal.
    unfold readTriangle. rewrite length_map, length_seq.
    destruct (cornerIndices_shape count t) as [Hnone | (i1 & i2 & i3 & Hsome)].
    + rewrite Hnone. unfold cornerIndices in Hnone.
      destruct (inRange _ count && inRange _ count && inRange _ count);
        [discriminate | now rewrite List.app_nil_r].
    + rewrite Hsome.
      pose proof (cornerIndices_within _ _ _ _ _ Hsome) as (H1 & H2 & H3).
      unfold cornerIndices in Hsome.
      destruct (inRange _ count && inRange _ count && inRange _ count); [| discriminate].
      injection Hsome as <- <- <-. f_equal.
      assert (Hnth : forall i, i < count ->
                               nth i (map (fun i => first + i) (seq 0 count)) 0 = first + i).
      { intros i Hi. rewrite (nth_indep _ 0 (first + 0)) by now rewrite length_map, length_seq.
        now rewrite (map_nth (fun i => first + i)), seq_nth. }
      now rewrite !Hnth by assumption.
Qed.

Lemma deref_app (h more : Heap (num := num)) (r : ref) :
  r < List.length h -> deref (h ++ more)%list r = deref h r.
Proof. intro Hr. unfold deref. now apply app_nth1. Qed.

Lemma resolve_app (h more : Heap (num := num)) (t : TriangleRefs) :
  Forall (fun r => r < List.length h) (cornerRefs t) ->
  resolve (h ++ more)%list t = resolve h t.
Proof.
  intro Hin. unfold cornerRefs in Hin.
  inversion Hin as [| ? ? Ha Hin1]; subst. inversion Hin1 as [| ? ? Hb Hin2]; subst.
  inversion Hin2 as [| ? ? Hc _]; subst.
  unfold resolve. now rewrite !deref_app.
Qed.

Lemma map_resolve_app (h more : Heap (num := num)) (ts : list TriangleRefs) :
  Forall (fun t => Forall (fun r => r < List.length h) (cornerRefs t)) ts ->
  map (resolve (h ++ more)%list) ts = map (resolve h) ts.
Proof.
  intro Hall. apply map_ext_in. intros t Ht. apply resolve_app.
  revert t Ht. now apply Forall_forall.
Qed.

Lemma bounds_app (h more : Heap (num := num)) (ts : list TriangleRefs) :
  Forall (fun t => Forall (fun r => r < List.length h) (cornerRefs t)) ts ->
  Forall (fun t => Forall (fun r => r < List.length (h ++ more)%list) (cornerRefs t)) ts.
Proof.
  apply Forall_impl. intros t. apply Forall_impl. intros r Hr.
  rewrite length_app. lia.
Qed.

Lemma newRefs_bounds (first count : nat) (triangleElements : list Element) :
  Forall (fun t => Forall (fun r => first <= r < first + count) (cornerRefs t))
         (newRefs first count triangleElements).
Proof.
  unfold newRefs. apply Forall_forall. intros t Ht.
  apply in_flat_map in Ht as (triangle & _ & Ht).
  destruct (cornerIndices_shape count triangle) as [Hnone | (i1 & i2 & i3 & Hsome)].
  - rewrite Hnone in Ht. destruct Ht.
  - rewrite Hsome in Ht. destruct Ht as [<- | []].
    apply cornerIndices_within in Hsome as (H1 & H2 & H3).
    unfold cornerRefs; cbn [ta tb tc]. repeat constructor; lia.
Qed.

Lemma newRefs_corners (first count : nat) (triangleElements : list Element) :
  flat_map cornerRefs (newRefs first count triangleElements)
  = map (fun i => first + i) (flat_map (cornerIndices count) triangleElements).
Proof.
  unfold newRefs.
  induction triangleElements as [| t ts IH]; cbn [flat_map map]; [reflexivity |].
  rewrite flat_map_app, map_app, IH. f_equal.
  destruct (cornerIndices_shape count t) as [-> | (i1 & i2 & i3 & ->)]; reflexivity.
Qed.

Lemma newRefs_length (first count : nat) (triangleElements : list Element) :
  Forall (fun triangle => cornerIndices count triangle <> []) triangleElements ->
  List.length (newRefs first count triangleElements) = List.length triangleElements.
Proof.
  unfold newRefs.
  induction triangleElements as [| t ts IH]; intro Hall; cbn [flat_map List.length];
    [reflexivity |].
  inversion Hall as [| ? ? Ht Hts]; subst. rewrite length_app, IH by exact Hts.
  destruct (cornerIndices_shape count t) as [Hnone | (i1 & i2 & i3 & ->)];
    [contradiction | reflexivity].
Qed.

Lemma newRefs_resolve (h : Heap (num := num)) (points : list (Point num))
    (triangleElements : list Element) :
  map (resolve (h ++ points)%list)
      (newRefs (List.length h) (List.length points) triangleElements)
  = flat_map (elementTriangle points) triangleElements.
Proof.
  unfold newRefs.
  induction triangleElements as [| t ts IH]; cbn [flat_map map]; [reflexivity |].
  rewrite map_app, IH. f_equal. unfold elementTriangle.
  destruct (cornerIndices (List.length points) t) as [| i1 [| i2 [| i3 [| i4 rest]]]] eqn:Hc;
    try reflexivity.
  apply cornerIndices_within in Hc as (H1 & H2 & H3).
  cbn [map]. unfold resolve, deref; cbn [ta tb tc].
  now rewrite !app_nth2_plus.
Qed.

(** *** The transform loop on triangles that are all of the object *)

Lemma transformTriangle_fresh (matrix : list num) (h : Heap (num := num))
    (done : list TriangleRefs) (t : TriangleRefs) :
  List.length matrix = 12 ->
  Forall (fun r => r < List.length h) (cornerRefs t) ->
  transformTriangle matrix (h, done) t
  = ((h ++ [applyTransform (deref h (ta t)) matrix;
            applyTransform (deref h (tb t)) matrix;
            applyTransform (deref h (tc t)) matrix])%list,
     (done ++ [mkRefs (List.length h) (S (List.length h)) (S (S (List.length h)))])%list).
Proof.
  intros Hm Hin. unfold cornerRefs in Hin.
  inversion Hin as [| ? ? Ha Hin1]; subst. inversion Hin1 as [| ? ? Hb Hin2]; subst.
  inversion Hin2 as [| ? ? Hc _]; subst.
  unfold transformTriangle, applyTransformRef, alloc. rewrite Hm. cbn [Nat.eqb].
  rewrite !length_app. cbn [List.length].
  rewrite (deref_app h _ (tb t)) by exact Hb.
  rewrite <- !List.app_assoc. rewrite (deref_app h _ (tc t)) by exact Hc.
  cbn [List.app].
  f_equal. f_equal. f_equal. f_equal; lia.
Qed.

Lemma fold_transformTriangle (matrix : list num) (h0 : Heap (num := num))
    (added : list TriangleRefs) :
  List.length matrix = 12 ->
  Forall (fun t => Forall (fun r => r < List.length h0) (cornerRefs t)) added ->
  forall (ext : Heap (num := num)) (done : list TriangleRefs),
  exists (ext' : Heap (num := num)) (new : list TriangleRefs),
    fold_left (transformTriangle matrix) added ((h0 ++ ext)%list, done)
    = ((h0 ++ ext ++ ext')%list, (done ++ new)%list)
    /\ List.length ext' = 3 * List.length added
    /\ flat_map cornerRefs new
       = seq (List.length h0 + List.length ext) (3 * List.length added)
    /\ map (resolve (h0 ++ ext ++ ext')%list) new
       = map (transformTriangleBy matrix) (map (resolve h0) added).
Proof.
  intros Hm Hall. induction added as [| t rest IH]; intros ext done.
  - exists [], []. cbn. now rewrite !List.app_nil_r.
  - inversion Hall as [| ? ? Ht Hrest]; subst.
    cbn [fold_left]. rewrite transformTriangle_fresh; [| exact Hm |].
    2:{ revert Ht. apply Forall_impl. intros r Hr. rewrite length_app. lia. }
    unfold cornerRefs in Ht.
    inversion Ht as [| ? ? Ha Ht1]; subst. inversion Ht1 as [| ? ? Hb Ht2]; subst.
    inversion Ht2 as [| ? ? Hc _]; subst.
    rewrite !(deref_app h0 ext) by assumption.
    set (pa := applyTransform (deref h0 (ta t)) matrix).
    set (pb := applyTransform (deref h0 (tb t)) matrix).
    set (pc := applyTransform (deref h0 (tc t)) matrix).
    rewrite <- List.app_assoc.
    destruct (IH Hrest (ext ++ [pa; pb; pc])%list
                (done ++ [mkRefs (List.length (h0 ++ ext)%list)
                                 (S (List.length (h0 ++ ext)%list))
                                 (S (S (List.length (h0 ++ ext)%list)))])%list)
      as (ext' & new & Hrun & Hlen & Hcorners & Hresolve).
    exists ([pa; pb; pc] ++ ext')%list,
           (mkRefs (List.length (h0 ++ ext)%list)
                   (S (List.length (h0 ++ ext)%list))
                   (S (S (List.length (h0 ++ ext)%list))) :: new).
    rewrite Hrun, <- !List.app_assoc. cbn [List.app].
    split; [reflexivity |]. split; [cbn [List.length]; lia |]. split.
    + cbn [flat_map cornerRefs ta tb tc List.app]. rewrite Hcorners.
      rewrite !length_app. cbn [List.length].
      replace (3 * S (List.length rest)) with (S (S (S (3 * List.length rest)))) by lia.
      cbn [seq]. do 3 f_equal. f_equal. lia.
    + cbn [map]. f_equal.
      * unfold resolve, transformTriangleBy, deref; cbn [ta tb tc a b c].
        rewrite (List.app_assoc h0 ext).
        assert (Hnth : forall k (l : Heap (num := num)) d,
                   nth (k + List.length (h0 ++ ext)%list) ((h0 ++ ext) ++ l)%list d
                   = nth k l d).
        { intros k l d. rewrite Nat.add_comm. apply app_nth2_plus. }
        change (S (S (List.length (h0 ++ ext)%list)))
          with (2 + List.length (h0 ++ ext)%list).
        change (S (List.length (h0 ++ ext)%list))
          with (1 + List.length (h0 ++ ext)%list).
        change (List.length (h0 ++ ext)%list)
          with (0 + List.length (h0 ++ ext)%list) at 1.
        rewrite !Hnth. reflexivity.
      * rewrite <- Hresolve. f_equal. f_equal. now rewrite <- !List.app_assoc.
Qed.

(** *** The scaling loop on arrays that are referenced once *)

Lemma store_length (h : Heap (num := num)) (r : ref) (p : Point num) :
  List.length (store h r p) = List.length h.
Proof.
  revert r. induction h as [| q h IH]; intros [| r]; cbn; try reflexivity.
  now rewrite IH.
Qed.

Lemma deref_store_same (h : Heap (num := num)) (r : ref) (p : Point num) :
  r < List.length h -> deref (store h r p) r = p.
Proof.
  unfold deref. revert r. induction h as [| q h IH]; intros [| r] Hr; cbn in *;
    try lia; [reflexivity |].
  apply IH. lia.
Qed.

Lemma deref_store_other (h : Heap (num := num)) (r r' : ref) (p : Point num) :
  r' <> r -> deref (store h r p) r' = deref h r'.
Proof.
  unfold deref. revert r r'. induction h as [| q h IH]; intros [| r] [| r'] Hne; cbn;
    try reflexivity; try contradiction.
  apply IH. lia.
Qed.

Lemma scaleArray_store (h : Heap (num := num)) (r : ref) :
  scaleArray unitScale h r = store h r (scalePoint unitScale (deref h r)).
Proof. unfold scaleArray, scalePoint. now destruct (deref h r) as [[x y] z]. Qed.

Lemma scaleTriangle_once (h : Heap (num := num)) (t : TriangleRefs) :
  NoDup (cornerRefs t) ->
  Forall (fun r => r < List.length h) (cornerRefs t) ->
  List.length (scaleTriangle unitScale h t) = List.length h
  /\ resolve (scaleTriangle unitScale h t) t = scaleTriangleBy unitScale (resolve h t)
  /\ (forall r, ~ In r (cornerRefs t) ->
                deref (scaleTriangle unitScale h t) r = deref h r).
Proof.
  intros Hdistinct Hin. unfold cornerRefs in *.
  inversion Hin as [| ? ? Ha Hin1]; subst. inversion Hin1 as [| ? ? Hb Hin2]; subst.
  inversion Hin2 as [| ? ? Hc _]; subst.
  inversion Hdistinct as [| ? ? Hab Hd1]; subst. inversion Hd1 as [| ? ? Hbc _]; subst.
  assert (Hab' : ta t <> tb t) by (intro E; apply Hab; left; now symmetry).
  assert (Hac' : ta t <> tc t) by (intro E; apply Hab; right; left; now symmetry).
  assert (Hbc' : tb t <> tc t) by (intro E; apply Hbc; left; now symmetry).
  unfold scaleTriangle. rewrite !scaleArray_store.
  split; [now rewrite !store_length |]. split.
  - unfold resolve, scaleTriangleBy; cbn [a b c]. f_equal.
    + rewrite !deref_store_other by congruence.
      now rewrite deref_store_same.
    + rewrite (deref_store_other _ (tc t) (tb t)) by congruence.
      rewrite deref_store_same by now rewrite store_length.
      now rewrite deref_store_other by congruence.
    + rewrite deref_store_same by now rewrite !store_length.
      now rewrite !deref_store_other by congruence.
  - intros r Hr. rewrite !deref_store_other; [reflexivity | ..];
      intro E; apply Hr; subst; cbn; tauto.
Qed.

Lemma NoDup_app_parts {A : Type} (l1 l2 : list A) :
  NoDup (l1 ++ l2)%list ->
  NoDup l1 /\ NoDup l2 /\ (forall x, In x l1 -> ~ In x l2).
Proof.
  induction l1 as [| x l1 IH]; cbn [List.app]; intro Hnd.
  - split; [constructor |]. split; [exact Hnd |]. intros x [].
  - inversion Hnd as [| ? ? Hx Hrest]; subst.
    destruct (IH Hrest) as (H1 & H2 & H12).
    split; [constructor; [| exact H1] |]; [| split; [exact H2 |]].
    + intro Hin. apply Hx. apply in_or_app. now left.
    + intros y [<- | Hy]; [| now apply H12].
      intro Hin. apply Hx. apply in_or_app. now right.
Qed.

Lemma fold_scaleTriangle (ts : list TriangleRefs) :
  forall h : Heap (num := num),
    NoDup (flat_map cornerRefs ts) ->
    Forall (fun t => Forall (fun r => r < List.length h) (cornerRefs t)) ts ->
    List.length (fold_left (scaleTriangle unitScale) ts h) = List.length h
    /\ (forall r, ~ In r (flat_map cornerRefs ts) ->
                  deref (fold_left (scaleTriangle unitScale) ts h) r = deref h r)
    /\ map (resolve (fold_left (scaleTriangle unitScale) ts h)) ts
       = map (scaleTriangleBy unitScale) (map (resolve h) ts).
Proof.
  induction ts as [| t ts IH]; intros h Hdistinct Hin.
  - cbn. repeat split; reflexivity.
  - inversion Hin as [| ? ? Ht Hts]; subst.
    cbn [flat_map] in Hdistinct.
    destruct (NoDup_app_parts _ _ Hdistinct) as (Hd1 & Hd2 & Hd12).
    destruct (scaleTriangle_once h t Hd1 Ht) as (Hlen1 & Hres1 & Hother1).
    cbn [fold_left].
    destruct (IH (scaleTriangle unitScale h t) Hd2) as (Hlen & Hother & Hres).
    { revert Hts. apply Forall_impl. intros t'. apply Forall_impl. intros r Hr.
      now rewrite Hlen1. }
    split; [now rewrite Hlen |]. split.
    + intros r Hr. cbn [flat_map] in Hr.
      rewrite Hother by (intro Hin'; apply Hr; apply in_or_app; now right).
      apply Hother1. intro Hin'. apply Hr. apply in_or_app. now left.
    + cbn [map]. f_equal.
      * unfold resolve at 1.
        rewrite !Hother by (apply Hd12; unfold cornerRefs; cbn; tauto).
        exact Hres1.
      * rewrite Hres. f_equal. apply map_ext_in. intros t' Ht'.
        unfold resolve. rewrite !Hother1; [reflexivity | ..];
          intro Hin'; apply (Hd12 _ Hin'); apply in_flat_map; exists t';
          (split; [exact Ht' | unfold cornerRefs; cbn; tauto]).
Qed.

(** *** One object, then all of them *)

Lemma NoDup_app_disjoint {A : Type} (l1 l2 : list A) :
  NoDup l1 -> NoDup l2 -> (forall x, In x l1 -> ~ In x l2) -> NoDup (l1 ++ l2)%list.
Proof.
  intros H1 H2 H12. induction l1 as [| x l1 IH]; cbn [List.app]; [exact H2 |].
  inversion H1 as [| ? ? Hx Hrest]; subst. constructor.
  - intro Hin. apply in_app_or in Hin as [Hin | Hin]; [now apply Hx |].
    apply (H12 x); [now left | exact Hin].
  - apply IH; [exact Hrest |]. intros y Hy. apply H12. now right.
Qed.

Lemma NoDup_shifted (first : nat) (l : list nat) :
  NoDup l -> NoDup (map (fun i => first + i) l).
Proof.
  induction 1 as [| x l Hx Hl IH]; cbn [map]; constructor; [| exact IH].
  intro Hin. apply in_map_iff in Hin as (y & Hy & Hin).
  assert (y = x) by lia. now subst.
Qed.

Lemma corners_below (h : Heap (num := num)) (ts : list TriangleRefs) :
  Forall (fun t => Forall (fun r => r < List.length h) (cornerRefs t)) ts ->
  forall r, In r (flat_map cornerRefs ts) -> r < List.length h.
Proof.
  intros Hall r Hr. apply in_flat_map in Hr as (t & Ht & Hr).
  apply (proj1 (Forall_forall _ _) Hall) in Ht.
  now apply (proj1 (Forall_forall _ _) Ht).
Qed.

Lemma movedTriangles_without_mesh (object : Element) :
  objectMesh object = None -> movedTriangles (num := num) object = [].
Proof.
  intro Hmesh. unfold movedTriangles, objectTriangles. rewrite Hmesh.
  now destruct (objectMatrix object).
Qed.

Lemma parseObject_handled (st : Heap (num := num) * list TriangleRefs) (object : Element)
    (triangles : list (Triangle num)) :
  standsFor unitScale st triangles ->
  handledObject unitScale object ->
  exists st', parseObject st object = Return st'
              /\ standsFor unitScale st' (triangles ++ movedTriangles object)%list.
Proof.
  destruct st as [h ts]. intros (Hbounds & Hresolve & Hdistinct) Hhandled.
  cbn [fst snd] in *.
  unfold parseObject.
  destruct (querySelector object "mesh") as [mesh |] eqn:Hmesh.
  2:{ exists (h, ts). split; [reflexivity |].
      rewrite movedTriangles_without_mesh, List.app_nil_r
        by (unfold objectMesh; now rewrite Hmesh).
      now repeat split. }
  destruct (querySelector mesh "vertices") as [verticesElement |] eqn:Hvertices.
  2:{ exists (h, ts). split; [reflexivity |].
      rewrite movedTriangles_without_mesh, List.app_nil_r
        by (unfold objectMesh; now rewrite Hmesh, Hvertices).
      now repeat split. }
  rewrite readVertices_heap.
  set (vertexElements := querySelectorAll verticesElement "vertex") in *.
  set (points := map readVertex vertexElements).
  assert (Hpoints : List.length points = List.length vertexElements)
    by (unfold points; now rewrite length_map).
  destruct (querySelector mesh "triangles") as [trianglesElement |] eqn:Htriangles.
  2:{ exists ((h ++ points)%list, ts). split; [reflexivity |].
      rewrite movedTriangles_without_mesh, List.app_nil_r
        by (unfold objectMesh; now rewrite Hmesh, Hvertices, Htriangles).
      split; [now apply bounds_app |]. split; [| exact Hdistinct].
      cbn [fst snd]. now rewrite map_resolve_app. }
  set (triangleElements := querySelectorAll trianglesElement "triangle") in *.
  rewrite fold_readTriangle.
  set (added := newRefs (List.length h) (List.length vertexElements) triangleElements).
  assert (Hmeshed : objectMesh object = Some (vertexElements, triangleElements))
    by (unfold objectMesh; now rewrite Hmesh, Hvertices, Htriangles).
  assert (Hread : objectTriangles (num := num) object
                  = map (resolve (h ++ points)%list) added).
  { unfold objectTriangles. rewrite Hmeshed. unfold added.
    rewrite <- Hpoints. symmetry. apply newRefs_resolve. }
  assert (Hadded : Forall (fun t => Forall (fun r => r < List.length (h ++ points)%list)
                                           (cornerRefs t)) added).
  { pose proof (newRefs_bounds (List.length h) (List.length vertexElements)
                  triangleElements) as Hin.
    revert Hin. apply Forall_impl. intro t. apply Forall_impl. intros r Hr.
    rewrite length_app, Hpoints. lia. }
  assert (Hold : forall r, In r (flat_map cornerRefs ts) -> r < List.length h)
    by now apply corners_below.
  unfold handledObject in Hhandled. rewrite Hmeshed in Hhandled.
  unfold movedTriangles.
  assert (Hplain : objectMatrix (num := num) object = None ->
                   exists st',
                     Return ((h ++ points)%list, (ts ++ added)%list) = Return st'
                     /\ standsFor unitScale st' (triangles ++ objectTriangles object)%list).
  { intro Hmatrix. rewrite Hmatrix in Hhandled.
    eexists. split; [reflexivity |]. unfold standsFor. cbn [fst snd]. split; [| split].
    - apply Forall_app. split; [now apply bounds_app | exact Hadded].
    - rewrite map_app, map_resolve_app, Hresolve, Hread by exact Hbounds. reflexivity.
    - intro Hscale. destruct Hhandled as [Hone | Honce]; [congruence |].
      rewrite flat_map_app. apply NoDup_app_disjoint.
      + now apply Hdistinct.
      + unfold added. rewrite newRefs_corners. now apply NoDup_shifted.
      + intros r Hr Hnew. apply Hold in Hr.
        unfold added in Hnew. rewrite newRefs_corners in Hnew.
        apply in_map_iff in Hnew as (i & <- & _). lia. }
  unfold objectMatrix in *.
  destruct (getAttribute object "transform") as [[| ch transform] |];
    try (now apply Hplain).
  destruct (Nat.eqb (List.length (parseMatrix (String ch transform))) 12) eqn:Htwelve;
    [| now apply Hplain].
  clear Hplain. apply Nat.eqb_eq in Htwelve.
  set (matrix := parseMatrix (String ch transform)) in *.
  assert (Hcount : List.length added = List.length triangleElements)
    by (unfold added; now apply newRefs_length).
  unfold transformFrom. rewrite length_app, Hcount.
  replace (Z.of_nat (List.length ts + List.length triangleElements)
           - Z.of_nat (List.length triangleElements))%Z
    with (Z.of_nat (List.length ts)) by lia.
  destruct (Z.ltb_spec (Z.of_nat (List.length ts)) 0) as [Hneg | _]; [lia |].
  rewrite Nat2Z.id.
  rewrite skipn_app, Nat.sub_diag, skipn_all, firstn_app, Nat.sub_diag, firstn_all.
  cbn [skipn firstn List.app]. rewrite List.app_nil_r.
  destruct (fold_transformTriangle matrix (h ++ points)%list added Htwelve Hadded [] ts)
    as (ext' & new & Hrun & Hlen & Hcorners & Hnew).
  rewrite List.app_nil_r in Hrun. cbn [List.app List.length] in *.
  rewrite Nat.add_0_r in Hcorners.
  exists (((h ++ points) ++ ext')%list, (ts ++ new)%list).
  split; [f_equal; exact Hrun |]. unfold standsFor. cbn [fst snd].
  split; [| split].
  - apply Forall_app. split.
    + rewrite <- List.app_assoc. now apply bounds_app.
    + apply Forall_forall. intros t Ht. apply Forall_forall. intros r Hr.
      assert (Hin : In r (flat_map cornerRefs new))
        by (apply in_flat_map; now exists t).
      rewrite Hcorners in Hin. apply in_seq in Hin.
      rewrite length_app, Hlen. lia.
  - rewrite map_app, Hnew, <- Hread. f_equal.
    rewrite <- List.app_assoc. now rewrite map_resolve_app.
  - intro Hscale. rewrite flat_map_app, Hcorners. apply NoDup_app_disjoint.
    + now apply Hdistinct.
    + apply seq_NoDup.
    + intros r Hr Hnew'. apply Hold in Hr. apply in_seq in Hnew'.
      rewrite length_app in Hnew'. lia.
Qed.

Lemma parseObjects_handled (objects : list Element) :
  forall (st : Heap (num := num) * list TriangleRefs) (triangles : list (Triangle num)),
    standsFor unitScale st triangles ->
    Forall (handledObject unitScale) objects ->
    exists st', parseObjects st objects = Return st'
                /\ standsFor unitScale st'
                     (triangles ++ flat_map movedTriangles objects)%list.
Proof.
  induction objects as [| object rest IH]; intros st triangles Hst Hall.
  - exists st. split; [reflexivity |]. cbn [flat_map]. now rewrite List.app_nil_r.
  - inversion Hall as [| ? ? Hobject Hrest]; subst.
    destruct (parseObject_handled st object triangles Hst Hobject) as (st1 & Hrun & Hst1).
    cbn [parseObjects flat_map]. rewrite Hrun.
    destruct (IH st1 _ Hst1 Hrest) as (st2 & Hrun2 & Hst2).
    exists st2. split; [exact Hrun2 |]. now rewrite List.app_assoc.
Qed.

Lemma standsFor_nothing : standsFor unitScale (([] : Heap (num := num)), []) [].
Proof. repeat split; constructor. Qed.
End HandledObjects.

(** X12.  For a 3MF document whose unit has the scale 1 and none of whose
    objects has a transform of twelve numbers, [parse3MF] does not throw and
    returns, object after object, one triangle for each [triangle] element
    whose three indices are within the vertices of its mesh, made of the
    points that the [vertex] elements at these indices give; triangle
    elements with an index outside the vertices are left out. *)
Theorem parse3MFDocument_plain :
  forall (num : Type) (JN : JSNumber num) (xml : Element),
    strictEq (unitScaleOf (num := num) (modelUnit xml)) (ofZ 1) = true ->
    Forall (fun object => objectMatrix (num := num) object = None)
           (documentQuerySelectorAll xml "object") ->
    parse3MFDocument xml
    = Return (mkParseResult3MF
                (flat_map objectTriangles (documentQuerySelectorAll xml "object"))
                (ofZ 1)).
Proof.
  intros num JN xml Hunit Hplain. unfold parse3MFDocument. fold (modelUnit xml).
  destruct (parseObjects_handled (unitScaleOf (modelUnit xml))
              (documentQuerySelectorAll xml "object") ([], []) []
              (standsFor_nothing _))
    as ([h ts] & -> & _ & Hresolve & _).
  { revert Hplain. apply Forall_impl. intros object Hmatrix.
    unfold handledObject. rewrite Hmatrix.
    destruct (objectMesh object) as [[vertexElements triangleElements] |]; [| exact I].
    now left. }
  rewrite Hunit. cbn [negb fst snd List.app] in *. rewrite Hresolve. do 2 f_equal.
  clear - Hplain.
  induction Hplain as [| object rest Hmatrix Hrest IH]; cbn [flat_map]; [reflexivity |].
  rewrite IH. f_equal. unfold movedTriangles. now rewrite Hmatrix.
Qed.

Lemma parse3MFDocument_plain_witness :
  parse3MFDocument (num := float) plainDocument
  = Return (mkParseResult3MF
              [mkTriangle (point 0 0 0) (point 1 0 0) (point 0 1 0);
               mkTriangle (point 0 0 0) (point 1 0 0) (point 0 0 1)]
              (ofZ 1)).
Proof.
  rewrite (parse3MFDocument_plain float b64_JSNumber plainDocument);
    [reflexivity | reflexivity | repeat constructor].
Defined.

Lemma map_flat_map {A B C : Type} (f : B -> C) (g : A -> list B) (l : list A) :
  map f (flat_map g l) = flat_map (fun x => map f (g x)) l.
Proof.
  induction l as [| x l IH]; cbn [flat_map map]; [reflexivity |].
  now rewrite map_app, IH.
Qed.

(** X13.  [parse3MF] does not throw and returns, object after object, the
    triangles of the object moved by its matrix, when it has one, and then
    scaled once by the scale of the unit, when that is not 1, for every
    document each of whose objects is of one of these kinds: it has a matrix
    of twelve numbers and each of its triangle elements has its three
    indices within the vertices; or it has no such matrix and the scale is
    1; or it has no such matrix and no vertex is named twice by its
    triangle elements. *)
Theorem parse3MFDocument_moved_and_scaled_once :
  forall (num : Type) (JN : JSNumber num) (xml : Element),
    let unitScale := unitScaleOf (num := num) (modelUnit xml) in
    let objects := documentQuerySelectorAll xml "object" in
    Forall (handledObject unitScale) objects ->
    parse3MFDocument xml
    = Return (mkParseResult3MF (flat_map (finishedTriangles unitScale) objects) (ofZ 1)).
Proof.
  intros num JN xml unitScale objects Hall.
  unfold parse3MFDocument. fold (modelUnit xml). fold unitScale. fold objects.
  destruct (parseObjects_handled unitScale objects ([], []) [] (standsFor_nothing _) Hall)
    as ([h ts] & -> & Hbounds & Hresolve & Hdistinct).
  cbn [fst snd List.app] in *. f_equal.
  unfold finishedTriangles.
  destruct (strictEq unitScale (ofZ 1)) eqn:Hscale; cbn [negb].
  - now rewrite Hresolve.
  - destruct (fold_scaleTriangle unitScale ts h (Hdistinct eq_refl) Hbounds)
      as (_ & _ & Hscaled).
    now rewrite Hscaled, Hresolve, map_flat_map.
Qed.

Lemma parse3MFDocument_moved_and_scaled_once_witness :
  parse3MFDocument (num := float) movedAndScaledDocument
  = Return (mkParseResult3MF
              (flat_map (finishedTriangles (unitScaleOf "inch"))
                        (documentQuerySelectorAll movedAndScaledDocument "object"))
              (ofZ 1)).
Proof.
  apply (parse3MFDocument_moved_and_scaled_once float b64_JSNumber movedAndScaledDocument).
  assert (Hcorners : forall (count : nat) (triangle : Element) (indices : list nat),
             cornerIndices count triangle = indices -> indices <> [] ->
             cornerIndices count triangle <> []) by (intros; congruence).
  constructor; [| constructor; [| constructor]].
  - unfold handledObject.
    destruct (objectMesh _) as [[vertexElements triangleElements] |] eqn:Hmesh;
      [| exact I].
    vm_compute in Hmesh. injection Hmesh as <- <-.
    destruct (objectMatrix _) as [matrix |] eqn:Hmatrix;
      [| vm_compute in Hmatrix; discriminate Hmatrix].
    constructor; [| constructor; [| constructor]].
    + apply (Hcorners _ _ [0; 1; 2]); [vm_compute; reflexivity | discriminate].
    + apply (Hcorners _ _ [0; 1; 3]); [vm_compute; reflexivity | discriminate].
  - unfold handledObject.
    destruct (objectMesh _) as [[vertexElements triangleElements] |] eqn:Hmesh;
      [| exact I].
    vm_compute in Hmesh. injection Hmesh as <- <-.
    destruct (objectMatrix _) as [matrix |] eqn:Hmatrix;
      [vm_compute in Hmatrix; discriminate Hmatrix |].
    right.
    replace (flat_map _ _) with [0; 1; 2] by (vm_compute; reflexivity).
    repeat constructor; cbn; intuition discriminate.
Defined.

(** ** The model file of a 3MF archive *)

Lemma byte_is_P (ch : ascii) : (N_of_ascii ch =? 80)%N = Ascii.eqb ch "P".
Proof. destruct ch as [[] [] [] [] [] [] [] []]; reflexivity. Qed.

Lemma byte_is_K (ch : ascii) : (N_of_ascii ch =? 75)%N = Ascii.eqb ch "K".
Proof. destruct ch as [[] [] [] [] [] [] [] []]; reflexivity. Qed.

Lemma isZipFile_signature (buffer : ArrayBuffer) :
  isZipFile buffer = JS.startsWith buffer "PK".
Proof.
  unfold isZipFile, byteLength, byteAt.
  destruct buffer as [| c0 [| c1 rest]]; cbn [String.length Nat.leb String.get JS.startsWith andb].
  - reflexivity.
  - now rewrite andb_false_r.
  - rewrite byte_is_P, byte_is_K.
    now destruct rest, (Ascii.eqb c0 "P"), (Ascii.eqb c1 "K").
Qed.

Lemma zipFile_entry (zip : list (string * string)) (path text : string) :
  zipFile zip path = Some text -> In (path, text) zip.
Proof.
  unfold zipFile. destruct (find _ zip) as [[key value] |] eqn:Hfind; [| discriminate].
  cbn [option_map snd]. intro Heq. injection Heq as <-.
  apply find_some in Hfind as [Hin Hkey]. cbn [fst] in Hkey.
  apply String.eqb_eq in Hkey. now subst.
Qed.

Lemma filter_head_entry {A : Type} (p : A -> bool) (l : list A) (x : A) (rest : list A) :
  filter p l = x :: rest -> In x l /\ p x = true.
Proof.
  intro Hfilter. apply filter_In. rewrite Hfilter. now left.
Qed.

Section Archive.
Variable loadZip : ArrayBuffer -> result (list (string * string)).
Variable decodeUtf8 : ArrayBuffer -> string.

(** X14.  A buffer is opened as an archive exactly when it starts with the
    two bytes [PK], and is otherwise decoded as the XML text itself.  From
    an archive [extract3MFXML] returns the file [3D/3dmodel.model] when there
    is one; whatever it returns is the text of a file of the archive; and it
    throws when no file name ends in [.model] or [.xml].  A failure to open
    the archive is passed on. *)
Theorem extract3MFXML_sources :
  forall buffer : ArrayBuffer,
    isZipFile buffer = JS.startsWith buffer "PK"
    /\ (isZipFile buffer = false ->
        extract3MFXML loadZip decodeUtf8 buffer = Return (decodeUtf8 buffer))
    /\ (forall e : exn,
           isZipFile buffer = true -> loadZip buffer = Throw e ->
           extract3MFXML loadZip decodeUtf8 buffer = Throw e)
    /\ (forall zip : list (string * string),
           isZipFile buffer = true -> loadZip buffer = Return zip ->
           (forall text : string,
               zipFile zip "3D/3dmodel.model" = Some text ->
               extract3MFXML loadZip decodeUtf8 buffer = Return text)
           /\ (forall text : string,
                  extract3MFXML loadZip decodeUtf8 buffer = Return text ->
                  In text (map snd zip))
           /\ (Forall (fun entry => JS.endsWith (fst entry) ".model" = false
                                    /\ JS.endsWith (fst entry) ".xml" = false) zip ->
               extract3MFXML loadZip decodeUtf8 buffer
               = Throw (Error "No model file found in 3MF archive"))).
Proof.
  intro buffer. split; [apply isZipFile_signature |].
  unfold extract3MFXML. split; [now intros -> |]. split; [now intros e -> -> |].
  intros zip -> ->. cbn [negb].
  assert (Hentry : forall (key text : string), In (key, text) zip -> In text (map snd zip)).
  { intros key text Hin. apply in_map_iff. now exists (key, text). }
  split; [now intros text -> |]. split.
  - intro text.
    destruct (zipFile zip "3D/3dmodel.model") as [t1 |] eqn:H1.
    { intro Heq. injection Heq as <-. apply zipFile_entry in H1. eauto. }
    destruct (zipFile zip "3dmodel.model") as [t2 |] eqn:H2.
    { intro Heq. injection Heq as <-. apply zipFile_entry in H2. eauto. }
    destruct (filter (fun entry => isModelName (fst entry)) zip) as [| [k3 t3] rest3] eqn:H3.
    2:{ intro Heq. injection Heq as <-. apply filter_head_entry in H3 as [Hin _]. eauto. }
    destruct (filter (fun entry => JS.endsWith (fst entry) ".xml") zip)
      as [| [k4 t4] rest4] eqn:H4; [intro Heq; discriminate Heq |].
    intro Heq. injection Heq as <-. apply filter_head_entry in H4 as [Hin _]. eauto.
  - intro Hnames.
    assert (Hnone : forall path,
               JS.endsWith path ".model" = true -> zipFile zip path = None).
    { intros path Hpath. destruct (zipFile zip path) as [text |] eqn:Hfile; [| reflexivity].
      apply zipFile_entry in Hfile.
      apply (proj1 (Forall_forall _ _) Hnames) in Hfile. cbn [fst] in Hfile.
      destruct Hfile as [Hmodel _]. congruence. }
    rewrite !Hnone by reflexivity.
    destruct (filter (fun entry => isModelName (fst entry)) zip) as [| [k3 t3] rest3] eqn:H3.
    2:{ apply filter_head_entry in H3 as [Hin Hname].
        apply (proj1 (Forall_forall _ _) Hnames) in Hin. cbn [fst] in Hin, Hname.
        unfold isModelName in Hname. destruct Hin as [Hmodel Hxml].
        rewrite Hmodel, Hxml in Hname. discriminate. }
    destruct (filter (fun entry => JS.endsWith (fst entry) ".xml") zip)
      as [| [k4 t4] rest4] eqn:H4; [reflexivity |].
    apply filter_head_entry in H4 as [Hin Hname].
    apply (proj1 (Forall_forall _ _) Hnames) in Hin. cbn [fst] in Hin, Hname.
    destruct Hin as [_ Hxml]. congruence.
Qed.
End Archive.

Lemma extract3MFXML_sources_witness :
  extract3MFXML (fun _ => Return [("3D/3dmodel.model", "<model/>")]) (fun b => b)
    "<model unit='inch'/>"
  = Return "<model unit='inch'/>"
  /\ extract3MFXML (fun _ => Return [("readme.txt", "none")]) (fun b => b) "PK"
     = Throw (Error "No model file found in 3MF archive").
Proof.
  split.
  - destruct (extract3MFXML_sources
                (fun _ => Return [("3D/3dmodel.model", "<model/>")]) (fun b => b)
                "<model unit='inch'/>") as (_ & Hraw & _).
    apply Hraw. reflexivity.
  - destruct (extract3MFXML_sources
                (fun _ => Return [("readme.txt", "none")]) (fun b => b) "PK")
      as (_ & _ & _ & Hzip).
    destruct (Hzip [("readme.txt", "none")] eq_refl eq_refl) as (_ & _ & Hnone).
    apply Hnone. repeat constructor.
Defined.

(** ** One file and the session unit *)

Section OneFile.
Context {num : Type} {JN : JSNumber num}.
Variable loadZip : ArrayBuffer -> result (list (string * string)).
Variable decodeUtf8 : ArrayBuffer -> string.
Variable parseXML : string -> Element.

Let process (unit : STLUnit) : File -> option (FileData num) :=
  processFile loadZip decodeUtf8 parseXML unit.

(** X15.  The session unit matters for STL files only: a file whose name
    does not end in [.stl] gets the same result under every unit.  A result
    carries the name of its file, and only a file named [.stl] or [.3mf]
    gets one; a file whose bytes cannot be read gets none. *)
Theorem processFile_unit_and_name :
  forall (unit : STLUnit) (file : File),
    (forall unit' : STLUnit,
        JS.endsWith (JS.toLowerCase (name file)) ".stl" = false ->
        process unit file = process unit' file)
    /\ (forall data : FileData num,
           process unit file = Some data ->
           filename data = name file /\ hasMeshExtension file = true)
    /\ (forall e : exn, arrayBuffer file = Throw e -> process unit file = None).
Proof.
  intros unit file. unfold process, processFile, processFileBody, hasMeshExtension.
  split; [| split].
  - intros unit' ->. reflexivity.
  - intro data. destruct (arrayBuffer file) as [buffer | e]; [| discriminate].
    destruct (JS.endsWith (JS.toLowerCase (name file)) ".stl").
    + destruct (isASCIISTL buffer).
      * destruct (Nat.eqb _ 0); [discriminate |].
        intro Heq. injection Heq as <-. split; reflexivity.
      * destruct (parseBinarySTL buffer) as [ts | e]; [| discriminate].
        destruct (Nat.eqb _ 0); [discriminate |].
        intro Heq. injection Heq as <-. split; reflexivity.
    + destruct (JS.endsWith (JS.toLowerCase (name file)) ".3mf"); [| discriminate].
      destruct (parse3MF _ _ _ buffer) as [r | e]; [| discriminate].
      destruct (Nat.eqb _ 0); [discriminate |].
      intro Heq. injection Heq as <-. split; reflexivity.
  - intros e ->. reflexivity.
Qed.

(** X16.  [handleFiles] alerts exactly when no file of the batch is named
    [.stl] or [.3mf], the empty batch included.  When there are such files
    and none of them can be processed it does not alert: it hands on an
    empty list of results. *)
Theorem handleFiles_alert :
  forall (unit : STLUnit) (files : list File),
    (handleFiles loadZip decodeUtf8 parseXML unit files = Alerted
     <-> Forall (fun file => hasMeshExtension file = false) files)
    /\ (handleFiles loadZip decodeUtf8 parseXML unit files = FilesLoaded []
        <-> Exists (fun file => hasMeshExtension file = true) files
            /\ Forall (fun file => process unit file = None) files).
Proof.
  intros unit files. unfold handleFiles.
  assert (Hnone : filter hasMeshExtension files = []
                  <-> Forall (fun file => hasMeshExtension file = false) files).
  { induction files as [| f fs IH]; cbn [filter].
    - split; [constructor | reflexivity].
    - destruct (hasMeshExtension f) eqn:Hf.
      + split; [discriminate | intro Hall; inversion Hall; congruence].
      + rewrite IH. split; [now constructor | intro Hall; now inversion Hall]. }
  assert (Hsome : filter hasMeshExtension files <> []
                  <-> Exists (fun file => hasMeshExtension file = true) files).
  { rewrite Exists_exists. split.
    - destruct (filter hasMeshExtension files) as [| f fs] eqn:Hvalid; [congruence |].
      intros _. exists f. apply filter_In. rewrite Hvalid. now left.
    - intros (f & Hin & Hf) Hempty.
      assert (Hfiltered : In f (filter hasMeshExtension files)) by now apply filter_In.
      rewrite Hempty in Hfiltered. contradiction. }
  destruct (filter hasMeshExtension files) as [| f fs] eqn:Hvalid.
  - cbn [List.length Nat.eqb]. split.
    + split; [intros _; now apply Hnone | reflexivity].
    + split; [discriminate |]. intros [Hex _]. apply Hsome in Hex. now contradiction Hex.
  - cbn [List.length Nat.eqb]. split.
    + split; [discriminate |]. intro Hall. apply Hnone in Hall. discriminate.
    + rewrite <- Hvalid.
      pose proof (nonNull_valid_files loadZip decodeUtf8 parseXML unit files) as Hsame.
      rewrite Hsame. split.
      * intro Heq. injection Heq as Heq. split.
        -- apply Hsome. discriminate.
        -- apply nonNull_none in Heq. apply Forall_map in Heq. exact Heq.
      * intros [_ Hall]. f_equal. apply nonNull_none. apply Forall_map. exact Hall.
Qed.
End OneFile.

Lemma processFile_unit_and_name_witness :
  processFile (num := float) (fun _ => Throw (Error "no archive")) (fun b => b)
    (fun _ => Elem "model" [] []) cm (mkFile "part.3mf" (Return "<model/>"))
  = processFile (num := float) (fun _ => Throw (Error "no archive")) (fun b => b)
      (fun _ => Elem "model" [] []) inch (mkFile "part.3mf" (Return "<model/>")).
Proof.
  destruct (processFile_unit_and_name (num := float)
              (fun _ => Throw (Error "no archive")) (fun b => b)
              (fun _ => Elem "model" [] []) cm (mkFile "part.3mf" (Return "<model/>")))
    as (Hunit & _ & _).
  apply Hunit. reflexivity.
Defined.

Lemma handleFiles_alert_witness :
  handleFiles (num := float) (fun _ => Throw (Error "no archive")) (fun b => b)
    (fun _ => Elem "model" [] []) mm [mkFile "notes.txt" (Return "")]
  = Alerted.
Proof.
  destruct (handleFiles_alert (num := float)
              (fun _ => Throw (Error "no archive")) (fun b => b)
              (fun _ => Elem "model" [] []) mm [mkFile "notes.txt" (Return "")])
    as [Halert _].
  apply Halert. repeat constructor.
Defined.

(** ** The deposition rate and the two Faraday formulas *)

(** X17.  The deposition rate is the thickness plated in 60 seconds, in
    whatever arithmetic the code runs.  In exact arithmetic the thickness
    plated in a time is the rate times the minutes, and the time needed for
    a thickness, times the rate, is 60 times the thickness. *)
Theorem calculateDepositionRate_per_minute :
  (forall (num : Type) (A : Arith num) (d e : num) (material : Material),
      calculateDepositionRate d e material
      = calculateThicknessFromTime (ofZ 60) d e material)
  /\ (forall (material : Material) (d e t : R),
         calculateThicknessFromTime t d e material
         = (calculateDepositionRate d e material * (t / 60))%R)
  /\ (forall (material : Material) (d e x : R),
         (d * e <> 0)%R ->
         (calculateTimeFromThickness x d e material * calculateDepositionRate d e material
          = 60 * x)%R).
Proof.
  split; [reflexivity |]. split.
  - intros material d e t.
    pose proof (FARADAY_CONSTANTS_pos material) as HK.
    unfold calculateThicknessFromTime, calculateDepositionRate.
    cbn [nmul ndiv R_Arith]. rewrite R_ofZ. field. lra.
  - intros material d e x Hde.
    pose proof (FARADAY_CONSTANTS_pos material) as HK.
    assert (Hd : d <> 0%R) by (intro; subst; apply Hde; ring).
    assert (He : e <> 0%R) by (intro; subst; apply Hde; ring).
    unfold calculateTimeFromThickness, calculateDepositionRate.
    cbn [nmul ndiv R_Arith]. rewrite R_ofZ. field. repeat split; [lra | assumption ..].
Qed.

Lemma calculateDepositionRate_per_minute_witness :
  (calculateTimeFromThickness 10 2 1 Copper * calculateDepositionRate 2 1 Copper
   = 60 * 10)%R.
Proof.
  destruct calculateDepositionRate_per_minute as (_ & _ & Htime).
  apply Htime. lra.
Defined.

(** X18.  In exact arithmetic the thickness plated is additive in the
    time; and when the current density and the efficiency are not zero, the
    time needed is additive in the thickness and is inversely proportional
    to the current density and to the efficiency. *)
Theorem faraday_formulas_proportional :
  forall (material : Material) (d e : R),
    (forall t1 t2 : R,
        calculateThicknessFromTime (t1 + t2)%R d e material
        = (calculateThicknessFromTime t1 d e material
           + calculateThicknessFromTime t2 d e material)%R)
    /\ (forall x1 x2 : R,
           (d * e <> 0)%R ->
           calculateTimeFromThickness (x1 + x2)%R d e material
           = (calculateTimeFromThickness x1 d e material
              + calculateTimeFromThickness x2 d e material)%R)
    /\ (forall k x : R,
           (k <> 0)%R -> (d * e <> 0)%R ->
           calculateTimeFromThickness x (k * d)%R e material
           = (calculateTimeFromThickness x d e material / k)%R
           /\ calculateTimeFromThickness x d (k * e)%R material
              = (calculateTimeFromThickness x d e material / k)%R).
Proof.
  intros material d e.
  pose proof (FARADAY_CONSTANTS_pos material) as HK.
  unfold calculateThicknessFromTime, calculateTimeFromThickness.
  cbn [nmul ndiv R_Arith]. split; [| split].
  - intros t1 t2. field. lra.
  - intros x1 x2 _. unfold Rdiv. ring.
  - intros k x Hk Hde.
    assert (Hd : d <> 0%R) by (intro; subst; apply Hde; ring).
    assert (He : e <> 0%R) by (intro; subst; apply Hde; ring).
    split; field; repeat split; assumption.
Qed.

Lemma faraday_formulas_proportional_witness :
  calculateTimeFromThickness (3 + 7)%R 2%R 1%R Copper
  = (calculateTimeFromThickness 3 2 1 Copper + calculateTimeFromThickness 7 2 1 Copper)%R
  /\ calculateTimeFromThickness 10%R (2 * 2)%R 1%R Copper
     = (calculateTimeFromThickness 10 2 1 Copper / 2)%R.
Proof.
  destruct (faraday_formulas_proportional Copper 2 1) as (_ & Hsum & Hdensity).
  split; [apply Hsum; lra | apply (Hdensity 2 10)%R; lra].
Defined.

(** ** Durations that are not whole numbers of seconds *)

Lemma Int_part_real_quotient (t : R) (k : Z) :
  (0 < k)%Z -> Int_part (t / IZR k) = (Int_part t / k)%Z.
Proof.
  intro Hk. symmetry. apply Int_part_spec.
  destruct (base_Int_part t) as [Hlo Hhi].
  pose proof (Z.div_mod (Int_part t) k ltac:(lia)) as Hdm.
  pose proof (Z.mod_pos_bound (Int_part t) k Hk) as [Hr0 Hr1].
  assert (HK : (0 < IZR k)%R) by now apply IZR_lt.
  assert (Hn : IZR (Int_part t)
               = (IZR k * IZR (Int_part t / k) + IZR (Int_part t mod k))%R).
  { rewrite <- mult_IZR, <- plus_IZR. now f_equal. }
  assert (Hr : (0 <= IZR (Int_part t mod k) <= IZR k - 1)%R).
  { split; [now apply IZR_le |]. rewrite <- minus_IZR. apply IZR_le. lia. }
  set (q := IZR (Int_part t / k)) in *. set (r := IZR (Int_part t mod k)) in *.
  assert (Ht : t = (t / IZR k * IZR k)%R) by (field; lra).
  set (x := (t / IZR k)%R) in *.
  split; nra.
Qed.

Lemma Int_part_minus_integer (t : R) (m : Z) :
  Int_part (t - IZR m) = (Int_part t - m)%Z.
Proof.
  symmetry. apply Int_part_spec. destruct (base_Int_part t) as [Hlo Hhi].
  rewrite minus_IZR. lra.
Qed.

Lemma xrem_real (t : R) (k : Z) :
  (0 <= t)%R -> (0 < k)%Z ->
  xrem (XFin t) (XFin (IZR k)) = XFin (t - IZR k * IZR (Int_part t / k)).
Proof.
  intros Ht Hk. unfold xrem. rewrite (Rsign_pos (IZR k)) by now apply IZR_lt.
  f_equal. unfold Rtrunc.
  assert (Hq : (0 <= t / IZR k)%R).
  { apply Rmult_le_pos; [exact Ht |]. left. apply Rinv_0_lt_compat. now apply IZR_lt. }
  pose proof (Rsign_nonneg _ Hq) as Hs.
  replace (match Rsign (t / IZR k) with
           | Lt => (- Int_part (- (t / IZR k)))%Z
           | _ => Int_part (t / IZR k)
           end) with (Int_part (t / IZR k))
    by (destruct (Rsign (t / IZR k)); [reflexivity | contradiction | reflexivity]).
  now rewrite Int_part_real_quotient.
Qed.

Lemma Int_part_nonneg (t : R) : (0 <= t)%R -> (0 <= Int_part t)%Z.
Proof.
  intro Ht. destruct (base_Int_part t) as [Hlo Hhi].
  destruct (Z_le_gt_dec 0 (Int_part t)) as [Hle | Hgt]; [exact Hle |].
  assert (Hneg : (IZR (Int_part t) <= -1)%R) by (apply IZR_le; lia).
  lra.
Qed.

Lemma formatTime_real (printFraction : R -> string) (t : R) :
  (0 <= t)%R ->
  @formatTime xreal _ (xreal_Printing printFraction) (XFin t)
  = @formatTime xreal _ (xreal_Printing printFraction)
      (ofZ (Z.of_N (Z.to_N (Int_part t)))).
Proof.
  intro Ht.
  pose proof (Int_part_nonneg t Ht) as Hn.
  rewrite Z2N.id by exact Hn.
  unfold formatTime. rewrite !xreal_ofZ.
  cbn [floor nrem toString xreal_Printing ndiv js_arith xreal_JSNumber xreal_Arith].
  rewrite (xrem_real t 3600), (xrem_real t 60) by (assumption || lia).
  rewrite (xrem_integers (Int_part t) 3600), (xrem_integers (Int_part t) 60) by lia.
  unfold xdiv. rewrite !(Rsign_pos 3600), !(Rsign_pos 60) by lra.
  cbn [xfloor].
  rewrite !Int_part_real_quotient by lia.
  rewrite <- !mult_IZR, !Int_part_minus_integer, !Int_part_IZR.
  replace (Int_part t - 3600 * (Int_part t / 3600))%Z with (Int_part t mod 3600)%Z
    by (pose proof (Z.div_mod (Int_part t) 3600 ltac:(lia)); lia).
  replace (Int_part t - 60 * (Int_part t / 60))%Z with (Int_part t mod 60)%Z
    by (pose proof (Z.div_mod (Int_part t) 60 ltac:(lia)); lia).
  reflexivity.
Qed.

(** X19.  In exact arithmetic, for a duration of [t >= 0] seconds that
    need not be whole, [formatTime] writes what it writes for the whole
    seconds of [t], the fraction dropped, and [parseTime] reads that text
    back to the whole seconds of [t]. *)
Theorem formatTime_drops_fraction :
  forall (printFraction : R -> string) (t : R),
    (0 <= t)%R ->
    @formatTime xreal _ (xreal_Printing printFraction) (XFin t)
    = @formatTime xreal _ (xreal_Printing printFraction)
        (ofZ (Z.of_N (Z.to_N (Int_part t))))
    /\ parseTime (@formatTime xreal _ (xreal_Printing printFraction) (XFin t))
       = XFin (IZR (Int_part t)).
Proof.
  intros printFraction t Ht. split; [now apply formatTime_real |].
  rewrite formatTime_real by exact Ht. rewrite parseTime_formatTime_natural.
  now rewrite Z2N.id by now apply Int_part_nonneg.
Qed.

Lemma formatTime_drops_fraction_witness :
  parseTime (@formatTime xreal _ (xreal_Printing (fun _ => "")) (XFin 1352.5))
  = XFin (IZR (Int_part 1352.5)).
Proof.
  apply (formatTime_drops_fraction (fun _ => "") 1352.5%R). lra.
Defined.

(** ** The width of the fields of a duration *)

Lemma printZ_two_digits (k : N) :
  (k < 100)%N -> String.length (printZ (Z.of_N k)) <= 2.
Proof.
  intro Hk.
  assert (Hall : forallb (fun i => Nat.leb (String.length (printZ (Z.of_nat i))) 2) (seq 0 100)
                 = true) by (vm_compute; reflexivity).
  rewrite forallb_forall in Hall.
  specialize (Hall (N.to_nat k)). rewrite in_seq in Hall.
  rewrite N_nat_Z in Hall. apply Nat.leb_le. apply Hall. lia.
Qed.

(** X20.  For a natural number of seconds, in exact arithmetic when it
    makes fewer than [10^21] hours and in binary64 when it is below [2^53]:
    the minutes and the seconds that [formatTime] writes have two characters
    each, and the whole text has six characters more than the hours, which
    have two characters, or as many as their numeral when that is longer:
    eight characters in all below 100 hours.  (From [10^21] hours on the
    hours are written in the exponent form, and the text is no longer that
    of their numeral.) *)
Theorem formatTime_width :
  (forall (printFraction : R -> string) (n : N),
      (n / 3600 < 10 ^ 21)%N ->
      let text := @formatTime xreal _ (xreal_Printing printFraction) (ofZ (Z.of_N n)) in
      String.length text
      = 6 + Nat.max 2 (String.length (printZ (Z.of_N (n / 3600))))
      /\ ((n < 360000)%N -> String.length text = 8))
  /\ (forall n : N,
         (n < 2 ^ 53)%N ->
         let text := formatTime (ofZ (Z.of_N n) : float) in
         String.length text
         = 6 + Nat.max 2 (String.length (printZ (Z.of_N (n / 3600))))
         /\ ((n < 360000)%N -> String.length text = 8)).
Proof.
  assert (Hwidth : forall n : N,
             let text := JS.padStart 2 "0" (printZ (Z.of_N (n / 3600))) ++ ":"
                         ++ JS.padStart 2 "0" (printZ (Z.of_N (n mod 3600 / 60))) ++ ":"
                         ++ JS.padStart 2 "0" (printZ (Z.of_N (n mod 60))) in
             String.length text
             = 6 + Nat.max 2 (String.length (printZ (Z.of_N (n / 3600))))
             /\ ((n < 360000)%N -> String.length text = 8)).
  { intros n text. unfold text.
    rewrite !length_append, !padStart_length. cbn [String.length].
    assert (Hm : String.length (printZ (Z.of_N (n mod 3600 / 60))) <= 2).
    { apply printZ_two_digits. zify. Z.to_euclidean_division_equations. lia. }
    assert (Hs : String.length (printZ (Z.of_N (n mod 60))) <= 2).
    { apply printZ_two_digits. zify. Z.to_euclidean_division_equations. lia. }
    split; [lia |]. intro Hn.
    assert (Hh : String.length (printZ (Z.of_N (n / 3600))) <= 2).
    { apply printZ_two_digits. zify. Z.to_euclidean_division_equations. lia. }
    lia. }
  split.
  - intros printFraction n Hhours text. unfold text.
    rewrite formatTime_natural by exact Hhours. apply Hwidth.
  - intros n Hn text. unfold text. rewrite formatTime_b64_whole by exact Hn. apply Hwidth.
Qed.

Lemma formatTime_width_witness :
  String.length (@formatTime xreal _ (xreal_Printing (fun _ => "")) (ofZ (Z.of_N 3661))) = 8
  /\ String.length (formatTime (ofZ (Z.of_N 3661) : float)) = 8.
Proof.
  destruct formatTime_width as [Hexact Hbinary64].
  split.
  - apply (proj2 (Hexact (fun _ => "") 3661%N eq_refl)). reflexivity.
  - apply (proj2 (Hbinary64 3661%N eq_refl)). reflexivity.
Defined.

(** ** The surface area entered by hand and the total of the files *)

Lemma xle_zero (v : R) : xle (XFin v) (XFin 0) = true <-> (v <= 0)%R.
Proof. unfold xle. destruct (Rle_dec v 0); split; (discriminate || tauto). Qed.

(** X21.  In exact arithmetic, with [v] the number that [parseFloat] reads
    in the text entered: the surface area is 0 when the text gives no number
    or [v <= 0]; otherwise it is [v] for dm2, [v / 100] for cm2, [v * 100]
    for m2 and [v / 10000] for mm2, which is what [mm2ToDm2] gives. *)
Theorem manualSurfaceArea_dm2_conversions :
  forall (text : string),
    (parseFloat text = XNaN ->
     forall unit, manualSurfaceArea_dm2 text unit = XFin 0)
    /\ (forall v : R,
           parseFloat text = XFin v -> (v <= 0)%R ->
           forall unit, manualSurfaceArea_dm2 text unit = XFin 0)
    /\ (forall v : R,
           parseFloat text = XFin v -> (0 < v)%R ->
           manualSurfaceArea_dm2 text dm2 = XFin v
           /\ manualSurfaceArea_dm2 text cm2 = XFin (v / 100)
           /\ manualSurfaceArea_dm2 text m2 = XFin (v * 100)
           /\ manualSurfaceArea_dm2 text mm2 = XFin (v / 10000)
           /\ manualSurfaceArea_dm2 text mm2 = mm2ToDm2 (XFin v)).
Proof.
  intro text. unfold manualSurfaceArea_dm2, mm2ToDm2. rewrite !xreal_ofZ.
  split; [| split].
  - intros -> unit. reflexivity.
  - intros v -> Hv unit. cbn [isNaN xreal_JSNumber nle xreal_Comparing orb].
    now rewrite (proj2 (xle_zero v) Hv).
  - intros v -> Hv. cbn [isNaN xreal_JSNumber nle xreal_Comparing orb].
    destruct (xle (XFin v) (XFin 0)) eqn:Hle; [apply xle_zero in Hle; lra |].
    cbn [ndiv nmul js_arith xreal_JSNumber xreal_Arith xdiv xmul].
    rewrite !(Rsign_pos 100), !(Rsign_pos 10000) by lra.
    repeat split; reflexivity.
Qed.

Lemma manualSurfaceArea_dm2_conversions_witness :
  manualSurfaceArea_dm2 (num := xreal) "250" cm2 = XFin (250 / 100).
Proof.
  destruct (manualSurfaceArea_dm2_conversions "250") as (_ & _ & Hpositive).
  destruct (Hpositive 250%R) as (_ & Hcm2 & _); [| lra | exact Hcm2].
  unfold parseFloat. cbn [JS.parseFloatLiteral ofLiteral].
  change (ofDecimal (num := xreal) false 250 0 = XFin 250).
  rewrite xreal_ofN. reflexivity.
Defined.

Lemma xadd_assoc (x y z : xreal) : xadd (xadd x y) z = xadd x (xadd y z).
Proof.
  destruct x as [| [] | p], y as [| [] | q], z as [| [] | r]; cbn; try reflexivity.
  f_equal. ring.
Qed.

Lemma xadd_zero_l (x : xreal) : xadd (XFin 0) x = x.
Proof. destruct x as [| s | r]; cbn; [reflexivity | reflexivity | f_equal; ring]. Qed.

Lemma totalArea_from (files : list (FileData xreal)) :
  forall start : xreal,
    fold_left (fun sum file => nadd sum (surfaceArea_dm2 file)) files start
    = xadd start (totalArea files).
Proof.
  unfold totalArea. rewrite xreal_ofZ.
  induction files as [| f fs IH]; intro start; cbn [fold_left].
  - destruct start as [| s | r]; cbn; [reflexivity | reflexivity | f_equal; ring].
  - rewrite IH, (IH (nadd (XFin 0) (surfaceArea_dm2 f))).
    cbn [nadd js_arith xreal_JSNumber xreal_Arith].
    now rewrite xadd_zero_l, xadd_assoc.
Qed.

(** X22.  In exact arithmetic the total surface area that the calculator
    gets in upload mode is the total of the results table; it is 0 once the
    files are cleared, and after a batch of results is loaded it is the
    total before plus the total of the batch. *)
Theorem totalSurfaceArea_of_loaded_files :
  forall (files batch : list (FileData xreal)) (text : string) (unit : SurfaceAreaUnit),
    totalSurfaceArea upload files text unit = totalArea files
    /\ totalSurfaceArea upload handleClearFiles text unit = XFin 0
    /\ totalSurfaceArea upload (handleFilesLoaded files batch) text unit
       = xadd (totalSurfaceArea upload files text unit)
              (totalSurfaceArea upload batch text unit).
Proof.
  intros files batch text unit. split; [reflexivity |]. split.
  - unfold totalSurfaceArea, handleClearFiles. cbn [fold_left]. apply xreal_ofZ.
  - unfold totalSurfaceArea, handleFilesLoaded. rewrite fold_left_app.
    fold (totalArea files). fold (totalArea batch). apply totalArea_from.
Qed.

(** ** The values that the calculator derives from its state *)

(** X23.  The calculator never gives a time and a thickness at once, and
    it gives either only when the current density in use and the efficiency
    are above zero, and a thickness only when the time text in use reads as
    a number above zero: division by zero and unreadable input give no
    result. *)
Theorem calculator_results_guarded :
  forall (num : Type) (JN : JSNumber num) (C : Comparing num)
         (st : PlatingCalculator.State num),
    let density :=
      if PlatingCalculator.isSingle (PlatingCalculator.jobType st)
      then PlatingCalculator.currentDensityNum st
      else PlatingCalculator.stage3DensityNum st in
    let timeText :=
      if PlatingCalculator.isSingle (PlatingCalculator.jobType st)
      then PlatingCalculator.timeInput st
      else PlatingCalculator.stage3TimeInput st in
    (PlatingCalculator.calculatedTime st = None
     \/ PlatingCalculator.calculatedThickness st = None)
    /\ (PlatingCalculator.calculatedTime st <> None ->
        nlt (ofZ 0) density = true
        /\ nlt (ofZ 0) (PlatingCalculator.efficiencyDecimal st) = true)
    /\ (PlatingCalculator.calculatedThickness st <> None ->
        nlt (ofZ 0) density = true
        /\ nlt (ofZ 0) (PlatingCalculator.efficiencyDecimal st) = true
        /\ nlt (ofZ 0) (parseTime timeText) = true).
Proof.
  intros num JN C st density timeText. subst density timeText.
  unfold PlatingCalculator.calculatedTime, PlatingCalculator.calculatedThickness,
    PlatingCalculator.isTimeToThickness.
  destruct (PlatingCalculator.isSingle (PlatingCalculator.jobType st)).
  - destruct (PlatingCalculator.isThicknessToTime (PlatingCalculator.mode st));
      cbn [negb andb].
    + split; [now right |]. split; [| congruence].
      destruct (PlatingCalculator.nonEmpty _); cbn [andb]; [| congruence].
      destruct (nlt (ofZ 0) (PlatingCalculator.thicknessInMicrometers st));
        cbn [andb]; [| congruence].
      destruct (nlt (ofZ 0) (PlatingCalculator.currentDensityNum st));
        cbn [andb]; [| congruence].
      destruct (nlt (ofZ 0) (PlatingCalculator.efficiencyDecimal st)); [| congruence].
      now split.
    + split; [now left |]. split; [congruence |].
      destruct (PlatingCalculator.nonEmpty _); cbn [andb]; [| congruence].
      destruct (nlt (ofZ 0) (parseTime (PlatingCalculator.timeInput st)));
        cbn [andb]; [| congruence].
      destruct (nlt (ofZ 0) (PlatingCalculator.currentDensityNum st));
        cbn [andb]; [| congruence].
      destruct (nlt (ofZ 0) (PlatingCalculator.efficiencyDecimal st)); [| congruence].
      now repeat split.
  - destruct (PlatingCalculator.isThicknessToTime (PlatingCalculator.stage3Mode st));
      cbn [negb andb].
    + split; [now right |]. split; [| congruence].
      destruct (PlatingCalculator.nonEmpty _); cbn [andb]; [| congruence].
      destruct (nlt (ofZ 0) (nsub _ _)); cbn [andb]; [| congruence].
      destruct (nlt (ofZ 0) (PlatingCalculator.stage3DensityNum st));
        cbn [andb]; [| congruence].
      destruct (nlt (ofZ 0) (PlatingCalculator.efficiencyDecimal st)); [| congruence].
      now split.
    + split; [now left |]. split; [congruence |].
      destruct (PlatingCalculator.nonEmpty _); cbn [andb]; [| congruence].
      destruct (nlt (ofZ 0) (parseTime (PlatingCalculator.stage3TimeInput st)));
        cbn [andb]; [| congruence].
      destruct (nlt (ofZ 0) (PlatingCalculator.stage3DensityNum st));
        cbn [andb]; [| congruence].
      destruct (nlt (ofZ 0) (PlatingCalculator.efficiencyDecimal st)); [| congruence].
      now repeat split.
Qed.

Lemma calculator_results_guarded_witness :
  nlt (ofZ 0) (PlatingCalculator.currentDensityNum
                 (PlatingCalculator.initialState (num := float))) = true
  /\ nlt (ofZ 0) (PlatingCalculator.efficiencyDecimal
                    (PlatingCalculator.initialState (num := float))) = true.
Proof.
  destruct (calculator_results_guarded float b64_JSNumber b64_Comparing
              PlatingCalculator.initialState) as (_ & Htime & _).
  apply Htime. vm_compute. discriminate.
Defined.

Lemma xlt_zero_positive (x : xreal) : xlt (XFin 0) x = true <-> xpositive x.
Proof.
  destruct x as [| [] | r]; cbn.
  - split; [intro Heq; discriminate Heq | intros []].
  - split; intro Heq; discriminate Heq.
  - split; reflexivity.
  - destruct (Rlt_dec 0 r) as [Hr | Hr]; split; intro Hyp;
      [exact Hr | reflexivity | discriminate Hyp | contradiction].
Qed.

Lemma xpositive_nonnegative (x : xreal) : xpositive x -> xnonnegative x.
Proof. destruct x as [| s | r]; cbn; [tauto | tauto | lra]. Qed.

Lemma xmul_positive (x y : xreal) : xpositive x -> xpositive y -> xpositive (xmul x y).
Proof.
  destruct x as [| s | p], y as [| t | q]; cbn; try tauto.
  - now intros -> ->.
  - intros -> Hq. now rewrite (Rsign_pos q Hq).
  - intros Hp ->. now rewrite (Rsign_pos p Hp).
  - intros Hp Hq. now apply Rmult_lt_0_compat.
Qed.

Lemma xdiv_positive (x : xreal) (k : R) :
  (0 < k)%R -> xpositive x -> xpositive (xdiv x (XFin k)).
Proof.
  intro Hk. destruct x as [| s | p]; cbn; rewrite ?(Rsign_pos k Hk); try tauto.
  intro Hp. now apply Rdiv_lt_0_compat.
Qed.

Lemma xadd_nonnegative_positive (x y : xreal) :
  xnonnegative x -> xpositive y -> xpositive (xadd x y).
Proof.
  destruct x as [| s | p], y as [| t | q]; cbn; try tauto.
  - now intros -> ->.
  - intros Hp Hq. lra.
Qed.

Lemma FARADAY_CONSTANTS_xreal (m : Material) :
  exists K : R, (0 < K)%R /\ FARADAY_CONSTANTS (num := xreal) m = XFin K.
Proof.
  destruct m; unfold FARADAY_CONSTANTS; rewrite xreal_tenths; cbn [Z.of_N];
    eexists; (split; [| reflexivity]); lra.
Qed.

Lemma calculateThicknessFromTime_positive (t d e : xreal) (m : Material) :
  xpositive t -> xpositive d -> xpositive e ->
  xpositive (calculateThicknessFromTime t d e m).
Proof.
  intros Ht Hd He. unfold calculateThicknessFromTime.
  destruct (FARADAY_CONSTANTS_xreal m) as (K & HK & ->).
  cbn [nmul ndiv js_arith xreal_Arith].
  apply xdiv_positive; [exact HK |]. now repeat apply xmul_positive.
Qed.

Lemma thicknessAfterStage1_nonnegative (st : PlatingCalculator.State xreal) :
  xnonnegative (PlatingCalculator.thicknessAfterStage1 st).
Proof.
  unfold PlatingCalculator.thicknessAfterStage1.
  assert (Hzero : xnonnegative (ofZ 0)) by (rewrite xreal_ofZ; cbn; lra).
  destruct (PlatingCalculator.isThreeStage _ && PlatingCalculator.nonEmpty _);
    cbn [andb]; [| exact Hzero].
  destruct (nlt _ (PlatingCalculator.stage1DensityNum st)) eqn:Hd; cbn [andb];
    [| exact Hzero].
  destruct (nlt _ (PlatingCalculator.efficiencyDecimal st)) eqn:He; [| exact Hzero].
  cbv zeta. destruct (nlt _ (parseTime _)) eqn:Ht; [| exact Hzero].
  rewrite xreal_ofZ in Hd, He, Ht.
  apply xpositive_nonnegative, calculateThicknessFromTime_positive;
    now apply xlt_zero_positive.
Qed.

Lemma thicknessAfterStage2_nonnegative (st : PlatingCalculator.State xreal) :
  xnonnegative (PlatingCalculator.thicknessAfterStage2 st).
Proof.
  unfold PlatingCalculator.thicknessAfterStage2.
  pose proof (thicknessAfterStage1_nonnegative st) as Hone.
  destruct (PlatingCalculator.isThreeStage _ && PlatingCalculator.nonEmpty _);
    cbn [andb]; [| exact Hone].
  destruct (nlt _ (PlatingCalculator.stage2DensityNum st)) eqn:Hd; cbn [andb];
    [| exact Hone].
  destruct (nlt _ (PlatingCalculator.efficiencyDecimal st)) eqn:He; [| exact Hone].
  cbv zeta. destruct (nlt _ (parseTime _)) eqn:Ht; [| exact Hone].
  rewrite xreal_ofZ in Hd, He, Ht.
  apply xpositive_nonnegative, xadd_nonnegative_positive; [exact Hone |].
  apply calculateThicknessFromTime_positive; now apply xlt_zero_positive.
Qed.

(** X24.  In exact arithmetic, whatever the state of the calculator holds:
    the thickness plated by the first stage and by the first two stages is
    never NaN and never negative, and a thickness that the calculator gives
    is never NaN and is above zero. *)
Theorem calculator_thickness_positive :
  forall st : PlatingCalculator.State xreal,
    xnonnegative (PlatingCalculator.thicknessAfterStage1 st)
    /\ xnonnegative (PlatingCalculator.thicknessAfterStage2 st)
    /\ (forall thickness : xreal,
           PlatingCalculator.calculatedThickness st = Some thickness ->
           xpositive thickness).
Proof.
  intro st. split; [apply thicknessAfterStage1_nonnegative |].
  split; [apply thicknessAfterStage2_nonnegative |].
  intro thickness. unfold PlatingCalculator.calculatedThickness.
  destruct (PlatingCalculator.isSingle _).
  - destruct (PlatingCalculator.isTimeToThickness _ && PlatingCalculator.nonEmpty _);
      [| discriminate].
    cbv zeta. destruct (nlt _ (parseTime _)) eqn:Ht; cbn [andb]; [| discriminate].
    destruct (nlt _ (PlatingCalculator.currentDensityNum st)) eqn:Hd; cbn [andb];
      [| discriminate].
    destruct (nlt _ (PlatingCalculator.efficiencyDecimal st)) eqn:He; [| discriminate].
    intro Heq. injection Heq as <-. rewrite xreal_ofZ in Hd, He, Ht.
    apply calculateThicknessFromTime_positive; now apply xlt_zero_positive.
  - destruct (PlatingCalculator.isTimeToThickness _ && PlatingCalculator.nonEmpty _);
      [| discriminate].
    cbv zeta. destruct (nlt _ (parseTime _)) eqn:Ht; cbn [andb]; [| discriminate].
    destruct (nlt _ (PlatingCalculator.stage3DensityNum st)) eqn:Hd; cbn [andb];
      [| discriminate].
    destruct (nlt _ (PlatingCalculator.efficiencyDecimal st)) eqn:He; [| discriminate].
    intro Heq. injection Heq as <-. rewrite xreal_ofZ in Hd, He, Ht.
    apply xadd_nonnegative_positive; [apply thicknessAfterStage2_nonnegative |].
    apply calculateThicknessFromTime_positive; now apply xlt_zero_positive.
Qed.

(** X25.  In exact arithmetic, whatever the state of the calculator holds:
    the total current is 0 unless the surface area is above zero, which it is
    not when it is NaN, and is never NaN and never negative; when the area
    and the current density in use are above zero it is their product; the
    deposition rate is never NaN and never negative. *)
Theorem calculator_current_and_rate :
  forall (st : PlatingCalculator.State xreal) (area : xreal),
    let density :=
      if PlatingCalculator.isSingle (PlatingCalculator.jobType st)
      then PlatingCalculator.currentDensityNum st
      else PlatingCalculator.stage3DensityNum st in
    xnonnegative (PlatingCalculator.totalCurrent st area)
    /\ (~ xpositive area -> PlatingCalculator.totalCurrent st area = XFin 0)
    /\ (xpositive area -> xpositive density ->
        PlatingCalculator.totalCurrent st area = calculateTotalCurrent area density)
    /\ xnonnegative (PlatingCalculator.depositionRate st).
Proof.
  intros st area density. subst density.
  unfold PlatingCalculator.totalCurrent, PlatingCalculator.depositionRate,
    PlatingCalculator.isThreeStage.
  rewrite !xreal_ofZ. cbn [nlt xreal_Comparing].
  assert (Hzero : xnonnegative (XFin 0)) by (cbn; lra).
  pose proof xlt_zero_positive as Hlt.
  assert (Hproduct : forall d : xreal,
             xpositive area -> xpositive d -> xnonnegative (calculateTotalCurrent area d)).
  { intros d Harea Hd. apply xpositive_nonnegative. now apply xmul_positive. }
  assert (Hrate : forall d e : xreal,
             xpositive d -> xpositive e ->
             xnonnegative (calculateDepositionRate d e (PlatingCalculator.material st))).
  { intros d e Hd He. apply xpositive_nonnegative.
    change (xpositive (calculateThicknessFromTime (ofZ 60) d e
                         (PlatingCalculator.material st))).
    apply calculateThicknessFromTime_positive; try assumption.
    rewrite xreal_ofZ. cbn. lra. }
  destruct (PlatingCalculator.isSingle (PlatingCalculator.jobType st)); cbn [negb andb].
  - split; [| split; [| split]].
    + destruct (xlt (XFin 0) area) eqn:Harea; [| exact Hzero].
      destruct (xlt (XFin 0) (PlatingCalculator.currentDensityNum st)) eqn:Hd;
        [| exact Hzero].
      apply Hproduct; now apply Hlt.
    + intro Harea. destruct (xlt (XFin 0) area) eqn:Hpos; [| reflexivity].
      apply Hlt in Hpos. contradiction.
    + intros Harea Hd. apply Hlt in Harea, Hd. now rewrite Harea, Hd.
    + destruct (xlt (XFin 0) (PlatingCalculator.currentDensityNum st)) eqn:Hd;
        cbn [andb]; [| exact Hzero].
      destruct (xlt (XFin 0) (PlatingCalculator.efficiencyDecimal st)) eqn:He;
        [| exact Hzero].
      apply Hrate; now apply Hlt.
  - split; [| split; [| split]].
    + destruct (xlt (XFin 0) area) eqn:Harea; [| exact Hzero].
      destruct (xlt (XFin 0) (PlatingCalculator.stage3DensityNum st)) eqn:Hd;
        [| exact Hzero].
      apply Hproduct; now apply Hlt.
    + intro Harea. destruct (xlt (XFin 0) area) eqn:Hpos; [| reflexivity].
      apply Hlt in Hpos. contradiction.
    + intros Harea Hd. apply Hlt in Harea, Hd. now rewrite Harea, Hd.
    + destruct (xlt (XFin 0) (PlatingCalculator.stage3DensityNum st)) eqn:Hd;
        cbn [andb]; [| exact Hzero].
      destruct (xlt (XFin 0) (PlatingCalculator.efficiencyDecimal st)) eqn:He;
        [| exact Hzero].
      apply Hrate; now apply Hlt.
Qed.

Lemma calculator_current_and_rate_witness :
  PlatingCalculator.totalCurrent PlatingCalculator.initialState XNaN = XFin 0.
Proof.
  destruct (calculator_current_and_rate PlatingCalculator.initialState XNaN)
    as (_ & Hwarning & _).
  apply Hwarning. intros [].
Defined.


(** ** The time that the calculator shows, entered again *)

Lemma orZero_positive (d : R) :
  (0 < d)%R -> PlatingCalculator.orZero (XFin d) = XFin d.
Proof.
  intro Hd. unfold PlatingCalculator.orZero. rewrite xreal_ofZ.
  cbn [isNaN strictEq xreal_JSNumber xeqb orb].
  destruct (Req_dec_T d 0) as [Heq | _]; [lra | reflexivity].
Qed.

Lemma nonEmpty_with_colon (s1 s2 : string) :
  PlatingCalculator.nonEmpty (s1 ++ ":" ++ s2) = true.
Proof. now destruct s1. Qed.

Lemma nonEmpty_number (text : string) (x : R) :
  parseFloat text = XFin x -> PlatingCalculator.nonEmpty text = true.
Proof. destruct text; [discriminate | reflexivity]. Qed.

(** X26.  In exact arithmetic, for a single-stage job with a thickness
    [x > 0] in micrometres, a current density [d > 0] and an efficiency
    [e > 0]: the calculator gives a time [T > 0]; when the text that
    [formatTime] shows for [T] is entered as the time and the mode is
    switched, the calculator gives no thickness if [T < 1] (the text reads
    as 0 seconds), and otherwise a thickness that is at most [x] and less
    than one second of plating below [x]. *)
Theorem displayed_time_entered_again :
  forall (printFraction : R -> string) (st : PlatingCalculator.State xreal) (x d e : R),
    PlatingCalculator.jobType st = PlatingCalculator.single ->
    PlatingCalculator.mode st = PlatingCalculator.thicknessToTime ->
    PlatingCalculator.thicknessUnit st = PlatingCalculator.micrometre ->
    parseFloat (PlatingCalculator.thicknessInput st) = XFin x ->
    parseFloat (PlatingCalculator.currentDensity st) = XFin d ->
    PlatingCalculator.efficiency st = XFin e ->
    (0 < x)%R -> (0 < d)%R -> (0 < e)%R ->
    exists T : R,
      PlatingCalculator.calculatedTime st = Some (XFin T)
      /\ (0 < T)%R
      /\ let shown := @formatTime xreal _ (xreal_Printing printFraction) (XFin T) in
         let st' := setTimeInput (setMode st PlatingCalculator.timeToThickness) shown in
         ((T < 1)%R -> PlatingCalculator.calculatedThickness st' = None)
         /\ ((1 <= T)%R ->
             exists y : R,
               PlatingCalculator.calculatedThickness st' = Some (XFin y)
               /\ (y <= x)%R
               /\ (x - y
                   < calculateDepositionRate d (e / 100) (PlatingCalculator.material st) / 60)%R).
Proof.
  intros printFraction st x d e Hjob Hmode Hunit Hx Hd He Hxpos Hdpos Hepos.
  destruct (FARADAY_CONSTANTS_xreal (PlatingCalculator.material st)) as (K & HK & HKx).
  assert (HKr : FARADAY_CONSTANTS (num := R) (PlatingCalculator.material st) = K).
  { destruct (PlatingCalculator.material st); unfold FARADAY_CONSTANTS in *;
      rewrite xreal_tenths in HKx; rewrite R_tenths; now injection HKx. }
  assert (He' : (0 < e / 100)%R) by (apply Rdiv_lt_0_compat; lra).
  assert (Hde : (0 < d * (e / 100))%R) by now apply Rmult_lt_0_compat.
  set (T := (K * x / (d * (e / 100)))%R).
  assert (HT : (0 < T)%R).
  { unfold T. apply Rdiv_lt_0_compat; [now apply Rmult_lt_0_compat | exact Hde]. }
  assert (Hdensity : PlatingCalculator.currentDensityNum st = XFin d).
  { unfold PlatingCalculator.currentDensityNum. rewrite Hd. now apply orZero_positive. }
  assert (Hefficiency : PlatingCalculator.efficiencyDecimal st = XFin (e / 100)).
  { unfold PlatingCalculator.efficiencyDecimal. rewrite He, xreal_ofZ.
    cbn [ndiv js_arith xreal_JSNumber xreal_Arith xdiv].
    now rewrite (Rsign_pos 100) by lra. }
  assert (Hpositive : forall r : R, (0 < r)%R -> xlt (XFin 0) (XFin r) = true).
  { intros r Hr. now apply xlt_zero_positive. }
  exists T. split; [| split; [exact HT |]].
  - unfold PlatingCalculator.calculatedTime, PlatingCalculator.thicknessInMicrometers,
      PlatingCalculator.toMicrometers.
    rewrite Hjob, Hmode, Hunit, Hx, Hdensity, Hefficiency.
    rewrite (nonEmpty_number _ x Hx).
    cbn [PlatingCalculator.isSingle PlatingCalculator.isThicknessToTime andb isNaN
         xreal_JSNumber].
    rewrite !xreal_ofZ. cbn [nlt xreal_Comparing].
    rewrite (Hpositive x), (Hpositive d), (Hpositive (e / 100)%R) by assumption.
    cbn [andb]. f_equal.
    unfold calculateTimeFromThickness. cbn [js_arith xreal_JSNumber]. rewrite HKx.
    cbn [nmul ndiv js_arith xreal_JSNumber xreal_Arith xmul xdiv].
    now rewrite (Rsign_pos _ Hde).
  - intros shown st'.
    assert (Hread : parseTime shown = XFin (IZR (Int_part T))).
    { unfold shown. rewrite formatTime_real by lra.
      rewrite parseTime_formatTime_natural.
      now rewrite Z2N.id by (apply Int_part_nonneg; lra). }
    assert (Hshown : PlatingCalculator.nonEmpty shown = true).
    { unfold shown. rewrite formatTime_real by lra. rewrite formatTime_whole.
      apply nonEmpty_with_colon. }
    assert (Hthickness :
              PlatingCalculator.calculatedThickness st'
              = if xlt (XFin 0) (XFin (IZR (Int_part T)))
                then Some (XFin (IZR (Int_part T) * d * (e / 100) / K))
                else None).
    { unfold PlatingCalculator.calculatedThickness, st', setTimeInput, setMode.
      cbn [PlatingCalculator.jobType PlatingCalculator.mode PlatingCalculator.timeInput
           PlatingCalculator.material].
      change (PlatingCalculator.currentDensityNum (PlatingCalculator.mkState _ _ _ _ _ _ _ _
                                                     _ _ _ _ _ _ _ _))
        with (PlatingCalculator.currentDensityNum st).
      change (PlatingCalculator.efficiencyDecimal (PlatingCalculator.mkState _ _ _ _ _ _ _ _
                                                     _ _ _ _ _ _ _ _))
        with (PlatingCalculator.efficiencyDecimal st).
      rewrite Hjob, Hshown, Hread, Hdensity, Hefficiency.
      cbn [PlatingCalculator.isSingle PlatingCalculator.isTimeToThickness
           PlatingCalculator.isThicknessToTime negb andb].
      rewrite !xreal_ofZ. cbn [nlt xreal_Comparing].
      rewrite (Hpositive d), (Hpositive (e / 100)%R) by assumption.
      destruct (xlt (XFin 0) (XFin (IZR (Int_part T)))); cbn [andb]; [| reflexivity].
      f_equal. unfold calculateThicknessFromTime. cbn [js_arith xreal_JSNumber].
      rewrite HKx.
      cbn [nmul ndiv js_arith xreal_JSNumber xreal_Arith xmul xdiv].
      now rewrite (Rsign_pos _ HK). }
    destruct (base_Int_part T) as [Hlo Hhi].
    pose proof (Int_part_nonneg T ltac:(lra)) as Hn.
    split.
    + intro Hshort. rewrite Hthickness.
      assert (Hzero : Int_part T = 0%Z).
      { destruct (Z.eq_dec (Int_part T) 0) as [Hz | Hz]; [exact Hz |].
        assert (Hone : (1 <= IZR (Int_part T))%R) by (apply IZR_le; lia). lra. }
      rewrite Hzero. cbn [xlt].
      destruct (Rlt_dec 0 0) as [Habsurd | _]; [lra | reflexivity].
    + intro Hlong. exists (IZR (Int_part T) * d * (e / 100) / K)%R.
      assert (Hone : (1 <= IZR (Int_part T))%R).
      { apply IZR_le. destruct (Z_le_gt_dec 1 (Int_part T)) as [Hle | Hgt]; [exact Hle |].
        assert (Hzero : Int_part T = 0%Z) by lia. rewrite Hzero in Hhi. lra. }
      rewrite Hthickness, Hpositive by lra. split; [reflexivity |].
      assert (Hxeq : x = (T * d * (e / 100) / K)%R).
      { unfold T. field. repeat split; lra. }
      unfold calculateDepositionRate. rewrite HKr, R_ofZ.
      cbn [nmul ndiv R_Arith].
      set (rate := (d * (e / 100) / K)%R).
      assert (Hrate : (0 < rate)%R) by (unfold rate; now apply Rdiv_lt_0_compat).
      replace (IZR (Int_part T) * d * (e / 100) / K)%R with (IZR (Int_part T) * rate)%R
        by (unfold rate; field; lra).
      replace (60 * d * (e / 100) / K / 60)%R with rate by (unfold rate; field; lra).
      replace x with (T * rate)%R by (rewrite Hxeq; unfold rate; field; lra).
      split; nra.
Qed.

Lemma displayed_time_entered_again_witness :
  exists T : R,
    PlatingCalculator.calculatedTime
      (PlatingCalculator.initialState (num := xreal)) = Some (XFin T)
    /\ (0 < T)%R.
Proof.
  destruct (displayed_time_entered_again (fun _ => "")
              (PlatingCalculator.initialState (num := xreal)) 10 2 100)
    as (T & Htime & Hpositive & _);
    try reflexivity; try lra.
  - unfold parseFloat. cbn [PlatingCalculator.initialState PlatingCalculator.thicknessInput].
    change (ofDecimal (num := xreal) false 10 0 = XFin 10).
    now rewrite xreal_ofN.
  - unfold parseFloat. cbn [PlatingCalculator.initialState PlatingCalculator.currentDensity].
    change (ofDecimal (num := xreal) false 20 (-1) = XFin 2).
    rewrite xreal_tenths. f_equal. cbn [Z.of_N]. lra.
  - cbn [PlatingCalculator.initialState PlatingCalculator.efficiency].
    now rewrite xreal_ofZ.
  - now exists T.
Defined.

(** ** A batch of files and the total surface area *)

Section BatchTotal.
Variable loadZip : ArrayBuffer -> result (list (string * string)).
Variable decodeUtf8 : ArrayBuffer -> string.
Variable parseXML : string -> Element.

(** X27.  When [handleFiles] has handled a batch, the files that the
    application holds are the ones held before followed by the results of
    the files of the batch that could be processed, so that a batch none of
    whose files can be processed changes nothing, and in exact arithmetic
    the total surface area is the total before plus the areas of these
    results.  In the second version of the application the results take the
    place of the files held before, unless the batch had no file named
    [.stl] or [.3mf]. *)
Theorem total_after_batch :
  (forall (num : Type) (JN : JSNumber num) (unit : STLUnit)
          (prevFiles : list (FileData num)) (files : list File),
      let process := processFile loadZip decodeUtf8 parseXML unit in
      let outcome := handleFiles loadZip decodeUtf8 parseXML unit files in
      filesAfterBatch prevFiles outcome
      = (prevFiles ++ nonNull (map process files))%list
      /\ (Forall (fun file => process file = None) files ->
          filesAfterBatch prevFiles outcome = prevFiles)
      /\ (Exists (fun file => hasMeshExtension file = true) files ->
          filesAfterBatchReplaced prevFiles outcome = nonNull (map process files)))
  /\ (forall (unit : STLUnit) (prevFiles : list (FileData xreal)) (files : list File)
             (text : string) (areaUnit : SurfaceAreaUnit),
         let process := processFile loadZip decodeUtf8 parseXML unit in
         let outcome := handleFiles loadZip decodeUtf8 parseXML unit files in
         totalSurfaceArea upload (filesAfterBatch prevFiles outcome) text areaUnit
         = xadd (totalSurfaceArea upload prevFiles text areaUnit)
                (totalArea (nonNull (map process files)))).
Proof.
  assert (Hafter : forall (num : Type) (JN : JSNumber num) (unit : STLUnit)
                          (prevFiles : list (FileData num)) (files : list File),
             filesAfterBatch prevFiles (handleFiles loadZip decodeUtf8 parseXML unit files)
             = (prevFiles
                ++ nonNull (map (processFile loadZip decodeUtf8 parseXML unit) files))%list).
  { intros num JN unit prevFiles files.
    rewrite <- (batch_results loadZip decodeUtf8 parseXML unit files).
    destruct (handleFiles loadZip decodeUtf8 parseXML unit files) as [| validResults];
      cbn [filesAfterBatch loadedResults handleFilesLoaded];
      [now rewrite List.app_nil_r | reflexivity]. }
  split.
  - intros num JN unit prevFiles files process outcome. subst process outcome.
    split; [apply Hafter |]. split.
    + intro Hfail. rewrite Hafter.
      replace (nonNull (map (processFile loadZip decodeUtf8 parseXML unit) files))
        with (@nil (FileData num)); [apply List.app_nil_r |].
      symmetry. apply nonNull_none. now apply Forall_map.
    + intro Hmesh.
      rewrite <- (batch_results loadZip decodeUtf8 parseXML unit files).
      destruct (handleFiles loadZip decodeUtf8 parseXML unit files) as [| validResults] eqn:Hrun;
        [| reflexivity].
      exfalso. apply Exists_exists in Hmesh as (file & Hin & Hfile).
      unfold handleFiles in Hrun.
      destruct (filter hasMeshExtension files) as [| f fs] eqn:Hvalid; [| discriminate].
      assert (Hfiltered : In file (filter hasMeshExtension files)) by now apply filter_In.
      rewrite Hvalid in Hfiltered. contradiction.
  - intros unit prevFiles files text areaUnit process outcome. subst process outcome.
    rewrite Hafter. unfold totalSurfaceArea. rewrite fold_left_app.
    fold (totalArea prevFiles). apply totalArea_from.
Qed.
End BatchTotal.

Lemma total_after_batch_witness :
  filesAfterBatch []
    (handleFiles (num := float) (fun _ => Throw (Error "no archive")) (fun b => b)
       (fun _ => Elem "model" [] []) mm [mkFile "empty.stl" (Return "")])
  = [].
Proof.
  destruct (total_after_batch (fun _ => Throw (Error "no archive")) (fun b => b)
              (fun _ => Elem "model" [] [])) as [Hfiles _].
  destruct (Hfiles float b64_JSNumber mm [] [mkFile "empty.stl" (Return "")])
    as (_ & Hfail & _).
  apply Hfail. repeat constructor.
Defined.

(** ** The examples of the specification *)

Example area_of_unit_right_triangle :
  calculateSurfaceArea
    [mkTriangle (point 0 0 0) (point 1 0 0) (point 0 1 0)] mm
  = ofDecimal false 5 (-5).
Proof. vm_compute. reflexivity. Qed.

Example copper_time_for_10_microns :
  calculateTimeFromThickness (ofZ 10) (ofZ 2) (ofZ 1) Copper
  = (ofDecimal false 13525 (-1) : float)
  /\ calculateThicknessFromTime (ofDecimal false 13525 (-1)) (ofZ 2) (ofZ 1) Copper
     = (ofZ 10 : float).
Proof. split; vm_compute; reflexivity. Qed.

Example parseTime_010101 : parseTime "01:01:01" = (ofZ 3661 : float).
Proof. vm_compute. reflexivity. Qed.

Example formatTime_3661 : formatTime (ofZ 3661 : float) = "01:01:01".
Proof. vm_compute. reflexivity. Qed.

(** From [10^21] hours on the hours are in the exponent form, with the
    shortest digits in binary64 and with every digit in exact arithmetic. *)
Example formatTime_exponent_form :
  formatTime (ofZ (3600 * 2 ^ 80) : float) = "1.2089258196146292e+24:00:00".
Proof. vm_compute. reflexivity. Qed.

Example printWhole_exponent_form :
  printWhole (2 ^ 80) = "1.208925819614629174706176e+24"
  /\ printWhole (10 ^ 21) = "1e+21"
  /\ printWhole (10 ^ 21 - 1) = "999999999999999999999".
Proof. repeat split; vm_compute; reflexivity. Qed.

Example formatTime_of_copper_time :
  formatTime (ofDecimal false 13525 (-1) : float) = "00:22:32".
Proof. vm_compute. reflexivity. Qed.

Example parseASCIISTL_two_facets :
  parseASCIISTL (num := float) twoFacets
  = [mkTriangle (point 0 0 0) (point 1 0 0) (point 0 1 0);
     mkTriangle (point 1 0 0) (point 1 1 0) (point 0 1 0)].
Proof. vm_compute. reflexivity. Qed.

Example parseASCIISTL_short_facet : parseASCIISTL (num := float) shortFacet = [].
Proof. vm_compute. reflexivity. Qed.
